(** * State machines of the AI-collaboration framework: a shallow embedding

    The development embeds the XState v5 machines of the repository

    - [losscut-judgment.ts]  (loss-cut judgment, LC),
    - [verification-loop.ts] (verification loop, SP-3),
    - [recovery-flow.ts]     (recovery flow RF with the escalation judgment ES),
    - [main-flow.ts]         (the orchestrator),

    together with the records of [types.ts], and proves properties of their
    runs.

    Conventions.
    - A JavaScript [number] is a [Z]; a [string] is a [String.string];
      [T | null] is [option T]; a union of string literals is an inductive
      type whose constructors carry the literals' names.
    - A machine is a pair of functions: the transition taken on an event, and
      the eventless ([always] / [onDone]) transition of a state.  A macrostep
      takes the event's transition and then eventless transitions until none
      is enabled; the number of eventless transitions is bounded by a fuel
      argument, and the lemmas say which fuel is enough.
    - [Date.now()] is an explicit argument [now].
    - Actions that the source leaves empty ("injected from outside" through
      [provide]) are parameters of the verification loop and of the recovery
      flow: an implementation maps the context to the context, as an
      [assign] does; the machine as written is the instance [noActions]
      where they do nothing.
    - Where two records of [types.ts] share a field name, or a state shares
      its name with a string literal, one of them is renamed: [pcPassed],
      [crPassed], [lrPassed] for the three fields [passed]; [division],
      [verdict], [evaluationResults] for the three fields [result];
      [StepTypecheck], [ApproachA], [completedTask] and the like for
      literals. *)

From Stdlib Require Import ZArith List String Bool Lia.
Import ListNotations.

Local Open Scope Z_scope.

(** ** Macrosteps *)

(** Result of looking for an eventless transition in a configuration:
    [Fired c obs] when one is taken (with what was observed on the way),
    [Idle] when none is enabled, [Raised] when a guard threw. *)
Inductive Micro (C O : Type) : Type :=
| Fired (c : C) (obs : list O)
| Idle
| Raised.
Arguments Fired {C O} c obs.
Arguments Idle {C O}.
Arguments Raised {C O}.

(** Result of a macrostep: [Settled c log] when a stable configuration is
    reached, [Crashed] when a guard threw (the actor stops with an error),
    [Diverged] when the fuel did not suffice. *)
Inductive Outcome (C O : Type) : Type :=
| Settled (c : C) (log : list O)
| Crashed
| Diverged.
Arguments Settled {C O} c log.
Arguments Crashed {C O}.
Arguments Diverged {C O}.

Fixpoint settle {C O : Type} (micro : C -> Micro C O) (fuel : nat)
  (c : C) (log : list O) : Outcome C O :=
  match micro c with
  | Idle => Settled c log
  | Raised => Crashed
  | Fired c' obs =>
      match fuel with
      | O => Diverged
      | S fuel' => settle micro fuel' c' (log ++ obs)
      end
  end.

(** ** Records of [types.ts] *)

(** [ErrorInfo.step]: ["typecheck" | "lint" | "test"]. *)
Inductive CheckStep : Type := StepTypecheck | StepLint | StepTest.

Definition CheckStep_eqb (a b : CheckStep) : bool :=
  match a, b with
  | StepTypecheck, StepTypecheck => true
  | StepLint, StepLint => true
  | StepTest, StepTest => true
  | _, _ => false
  end.

Record ErrorInfo : Type := mkErrorInfo {
  step : CheckStep;
  message : string;
  timestamp : Z
}.

Inductive ComplexityDelta : Type := increased | unchanged | decreased.

Definition ComplexityDelta_eqb (a b : ComplexityDelta) : bool :=
  match a, b with
  | increased, increased => true
  | unchanged, unchanged => true
  | decreased, decreased => true
  | _, _ => false
  end.

(** [ErrorRecord].  The field [error] is declared [ErrorInfo]; the
    verification loop fills it with [e.result.error!], whose non-null
    assertion is erased when the program runs, so that the slot holds
    [undefined] ([None]) when a failing check result carries no error. *)
Record ErrorRecord : Type := mkErrorRecord {
  error : option ErrorInfo;
  fixAttempt : string;
  complexityDelta : ComplexityDelta
}.

Record PrincipleCheckResult : Type := mkPrincipleCheckResult {
  pcPassed : bool;
  violations : list string
}.

Inductive LossCutDecision : Type := continue | cut.

Definition LossCutDecision_eqb (a b : LossCutDecision) : bool :=
  match a, b with
  | continue, continue => true
  | cut, cut => true
  | _, _ => false
  end.

Record LossCutContext : Type := mkLossCutContext {
  errorCount : Z;
  startedAt : Z;
  lastError : option ErrorInfo;
  errorHistory : list ErrorRecord;
  lossCutDecision : option LossCutDecision
}.

Record LossCutOutput : Type := mkLossCutOutput {
  decision : LossCutDecision
}.

(** [CheckResult = { passed: boolean; error?: ErrorInfo }]. *)
Record CheckResult : Type := mkCheckResult {
  crPassed : bool;
  crError : option ErrorInfo
}.

(** ** Loss-cut judgment ([losscut-judgment.ts]) *)

Module LossCut.

(** LC-GW1. *)
Definition checkErrorCount3OrMore (ctx : LossCutContext) : bool :=
  3 <=? errorCount ctx.

(** LC-GW2: [Date.now() - ctx.startedAt >= 1800000]. *)
Definition checkOver30Min (now : Z) (ctx : LossCutContext) : bool :=
  1800000 <=? now - startedAt ctx.

(** LC-GW3: [errorHistory[errorHistory.length - 1]?.complexityDelta ===
    'increased'].  On the empty history both sides read [undefined]. *)
Definition checkGrowingComplexity (ctx : LossCutContext) : bool :=
  match nth_error (errorHistory ctx) (List.length (errorHistory ctx) - 1)%nat with
  | Some latest => ComplexityDelta_eqb (complexityDelta latest) increased
  | None => false
  end.

(** The callback of [some] in LC-GW4.  Reading [record.error.message] of a
    record whose [error] is [undefined] throws: [None]. *)
Definition sameError (current : ErrorInfo) (record : ErrorRecord) : option bool :=
  match error record with
  | Some e =>
      Some (String.eqb (message e) (message current)
            && CheckStep_eqb (step e) (step current))
  | None => None
  end.

(** [Array.prototype.some] with a callback that may throw: elements are
    visited from the left, the visit stops at the first [true]. *)
Fixpoint some_throwing {A : Type} (f : A -> option bool) (l : list A) : option bool :=
  match l with
  | [] => Some false
  | x :: rest =>
      match f x with
      | None => None
      | Some true => Some true
      | Some false => some_throwing f rest
      end
  end.

(** LC-GW4: [slice(0, -1)] drops the last entry, the current error. *)
Definition checkRecurringError (ctx : LossCutContext) : option bool :=
  match lastError ctx with
  | None => Some false
  | Some current => some_throwing (sameError current) (removelast (errorHistory ctx))
  end.

Inductive State : Type :=
| recordErrorState
| check3Times
| check30Min
| checkComplexity
| checkRecurrence
| continueFix
| lossCutConfirmed.

Inductive Guard : Type :=
| isErrorCount3OrMore
| isOver30Min
| isGrowingComplexity
| isRecurringError.

(** What a run lets an observer see: the states entered and the guards
    evaluated, in order. *)
Inductive Obs : Type :=
| Enter (s : State)
| Eval (g : Guard).

Inductive Event : Type := ERROR_STATE_RECORDED.

Definition setDecision (d : LossCutDecision) (ctx : LossCutContext) : LossCutContext :=
  mkLossCutContext (errorCount ctx) (startedAt ctx) (lastError ctx)
    (errorHistory ctx) (Some d).

Definition isFinal (s : State) : bool :=
  match s with
  | continueFix | lossCutConfirmed => true
  | _ => false
  end.

(** The [always] transitions of each state; the first transition whose guard
    holds is taken and the guards after it are not evaluated. *)
Definition always (now : Z) (c : State * LossCutContext)
  : Micro (State * LossCutContext) Obs :=
  let '(s, ctx) := c in
  match s with
  | check3Times =>
      if checkErrorCount3OrMore ctx
      then Fired (lossCutConfirmed, setDecision cut ctx)
                 [Eval isErrorCount3OrMore; Enter lossCutConfirmed]
      else Fired (check30Min, ctx) [Eval isErrorCount3OrMore; Enter check30Min]
  | check30Min =>
      if checkOver30Min now ctx
      then Fired (lossCutConfirmed, setDecision cut ctx)
                 [Eval isOver30Min; Enter lossCutConfirmed]
      else Fired (checkComplexity, ctx) [Eval isOver30Min; Enter checkComplexity]
  | checkComplexity =>
      if checkGrowingComplexity ctx
      then Fired (lossCutConfirmed, setDecision cut ctx)
                 [Eval isGrowingComplexity; Enter lossCutConfirmed]
      else Fired (checkRecurrence, ctx) [Eval isGrowingComplexity; Enter checkRecurrence]
  | checkRecurrence =>
      match checkRecurringError ctx with
      | None => Raised
      | Some true =>
          Fired (lossCutConfirmed, setDecision cut ctx)
                [Eval isRecurringError; Enter lossCutConfirmed]
      | Some false =>
          Fired (continueFix, setDecision continue ctx)
                [Eval isRecurringError; Enter continueFix]
      end
  | recordErrorState | continueFix | lossCutConfirmed => Idle
  end.

(** The transition taken on an event ([None]: the event is not handled in
    the state and is dropped). *)
Definition on (c : State * LossCutContext) (e : Event)
  : option ((State * LossCutContext) * list Obs) :=
  let '(s, ctx) := c in
  match s, e with
  | recordErrorState, ERROR_STATE_RECORDED => Some ((check3Times, ctx), [Enter check3Times])
  | _, _ => None
  end.

Definition send (now : Z) (fuel : nat) (c : State * LossCutContext)
  (log : list Obs) (e : Event) : Outcome (State * LossCutContext) Obs :=
  match on c e with
  | Some (c', obs) => settle (always now) fuel c' (log ++ obs)
  | None => Settled c log
  end.

(** The actor starts in [recordErrorState]; its entry action
    [recordCurrentErrorState] is empty. *)
Definition start (ctx : LossCutContext) : (State * LossCutContext) * list Obs :=
  ((recordErrorState, ctx), [Enter recordErrorState]).

(** [output: ({ context }) => ({ decision: context.lossCutDecision ?? 'continue' })]. *)
Definition output (ctx : LossCutContext) : LossCutOutput :=
  mkLossCutOutput
    match lossCutDecision ctx with
    | Some d => d
    | None => continue
    end.

(** One judgment: the actor is started on [ctx], the recorded error is
    acknowledged, and the eventless chain runs.  The result is the final
    state, the output of the machine and the observations. *)
Definition run (now : Z) (fuel : nat) (ctx : LossCutContext)
  : Outcome (State * LossCutContext) Obs :=
  let '(c, log) := start ctx in
  send now fuel c log ERROR_STATE_RECORDED.

Definition judge (now : Z) (fuel : nat) (ctx : LossCutContext) : option LossCutDecision :=
  match run now fuel ctx with
  | Settled (s, ctx') _ => if isFinal s then Some (decision (output ctx')) else None
  | _ => None
  end.

(** Every record of a history carries its error, as the type [ErrorRecord]
    declares. *)
Definition recordsTyped (records : list ErrorRecord) : Prop :=
  Forall (fun r => error r <> None) records.

(** The pair (step, message) of [record] is that of [current]. *)
Definition samePair (current : ErrorInfo) (record : ErrorRecord) : Prop :=
  exists e, error record = Some e
            /\ message e = message current /\ step e = step current.

(** Two contexts hold the same judgment input: the same count, start time,
    last error and history (the decision slot is not an input). *)
Definition sameInput (a b : LossCutContext) : Prop :=
  errorCount a = errorCount b
  /\ startedAt a = startedAt b
  /\ lastError a = lastError b
  /\ errorHistory a = errorHistory b.

End LossCut.

(** ** Verification loop ([verification-loop.ts]) *)

(** [SP3OutputExtended]. *)
Module SP3.
Record Output : Type := mkOutput {
  passed : bool;
  lossCut : bool;
  lastError : option ErrorInfo;
  errorHistory : list ErrorRecord;
  principleViolation : bool
}.
End SP3.

Module VerificationLoop.

(** [VerificationLoopContext = LossCutContext & { ... }]: the loss-cut
    fields are kept together in [base], on which the guards of
    [losscut-judgment.ts] are evaluated. *)
Record Context : Type := mkContext {
  base : LossCutContext;
  currentStep : CheckStep;
  collaborationCheckResult : option PrincipleCheckResult;
  aiPrincipleCheckResult : option PrincipleCheckResult
}.

Definition withBase (b : LossCutContext) (ctx : Context) : Context :=
  mkContext b (currentStep ctx) (collaborationCheckResult ctx)
    (aiPrincipleCheckResult ctx).

Inductive State : Type :=
| typecheck
| lint
| test
| lossCutJudgment (sub : LossCut.State)
| issueFix
| verificationPassed
| verificationFailed.

Inductive Event : Type :=
| TYPECHECK_COMPLETE (result : CheckResult)
| LINT_COMPLETE (result : CheckResult)
| TEST_COMPLETE (result : CheckResult)
| ERROR_STATE_RECORDED
| FIX_ISSUED.

(** The named actions of [setup]; every one of them has an empty body in the
    source and is meant to be replaced through [provide]. *)
Inductive Action : Type :=
| runTypecheck
| runLint
| runTest
| checkCollaborationPrinciples
| checkAIPrinciples
| recordCurrentErrorState
| issueFixInstruction.

(** What reaches the actor: an event, or the passing of [ms] milliseconds. *)
Inductive Input : Type :=
| Deliver (e : Event)
| Elapse (ms : N).

(** A configuration: the active state and the context, the clock
    ([Date.now()]) and the due time of the delayed transition [after] of
    the root ([None] once it has fired). *)
Record Config : Type := mkConfig {
  state : State;
  context : Context;
  clock : Z;
  deadline : option Z
}.

Definition isFinal (s : State) : bool :=
  match s with
  | verificationPassed | verificationFailed => true
  | _ => false
  end.

Definition isCheckStage (s : State) : bool :=
  match s with
  | typecheck | lint | test => true
  | _ => false
  end.

(** The actions of the machine as written. *)
Definition noActions (a : Action) (ctx : Context) : Context := ctx.

(** [context] of [createMachine]; [startedAt: Date.now()] is evaluated when
    the machine is defined, at time [definedAt]. *)
Definition initialContext (definedAt : Z) : Context :=
  mkContext (mkLossCutContext 0 definedAt None [] None) StepTypecheck None None.

(** The assignment of the failure branch of a check state:
    [errorCount + 1], [lastError: e.result.error ?? null] and the history
    extended by [{ error: e.result.error!, fixAttempt: "", complexityDelta:
    "unchanged" }].  The three check states carry the same assignment. *)
Definition recordFailure (result : CheckResult) (ctx : Context) : Context :=
  withBase
    (mkLossCutContext
       (errorCount (base ctx) + 1)
       (startedAt (base ctx))
       (crError result)
       (errorHistory (base ctx) ++ [mkErrorRecord (crError result) EmptyString unchanged])
       (lossCutDecision (base ctx)))
    ctx.

Definition setDecision (d : option LossCutDecision) (ctx : Context) : Context :=
  withBase
    (mkLossCutContext (errorCount (base ctx)) (startedAt (base ctx))
       (lastError (base ctx)) (errorHistory (base ctx)) d)
    ctx.

(** The assignment of [FIX_ISSUED]. *)
Definition resetForRetry (ctx : Context) : Context :=
  let ctx' := setDecision None ctx in
  mkContext (base ctx') StepTypecheck (collaborationCheckResult ctx')
    (aiPrincipleCheckResult ctx').

(** [output] of the machine. *)
Definition output (ctx : Context) : SP3.Output :=
  SP3.mkOutput
    (negb (match lossCutDecision (base ctx) with Some cut => true | _ => false end))
    (match lossCutDecision (base ctx) with Some cut => true | _ => false end)
    (lastError (base ctx))
    (errorHistory (base ctx))
    (match aiPrincipleCheckResult ctx with
     | Some r => Bool.eqb (pcPassed r) false
     | None => false
     end).

(** No record of a history reports a complexity other than [unchanged]. *)
Definition allUnchanged (records : list ErrorRecord) : Prop :=
  Forall (fun r => complexityDelta r = unchanged) records.

(** A monitor has a violation on record: its result slot holds a failed
    check. *)
Definition latched (slot : option PrincipleCheckResult) : Prop :=
  exists r, slot = Some r /\ pcPassed r = false.

Section Machine.

(** The implementation given to each named action. *)
Variable exec : Action -> Context -> Context.

(** Entry actions of a state, in the order of the [entry] array. *)
Definition entry (s : State) (ctx : Context) : Context :=
  match s with
  | typecheck =>
      exec checkAIPrinciples (exec checkCollaborationPrinciples (exec runTypecheck ctx))
  | lint =>
      exec checkAIPrinciples (exec checkCollaborationPrinciples (exec runLint ctx))
  | test =>
      exec checkAIPrinciples (exec checkCollaborationPrinciples (exec runTest ctx))
  | lossCutJudgment LossCut.recordErrorState => exec recordCurrentErrorState ctx
  | issueFix => exec issueFixInstruction ctx
  | _ => ctx
  end.

(** Entering [s]: the entry actions run and the state is logged. *)
Definition enter (s : State) (ctx : Context) (cfg : Config) : Config * list State :=
  (mkConfig s (entry s ctx) (clock cfg) (deadline cfg), [s]).

(** The transition taken on an event; [None] when the state does not handle
    the event.  A final state handles nothing: the actor has stopped. *)
Definition on (cfg : Config) (e : Event) : option (Config * list State) :=
  let ctx := context cfg in
  match state cfg, e with
  | typecheck, TYPECHECK_COMPLETE result =>
      if Bool.eqb (crPassed result) true
      then Some (enter lint ctx cfg)
      else Some (enter (lossCutJudgment LossCut.recordErrorState)
                   (recordFailure result ctx) cfg)
  | lint, LINT_COMPLETE result =>
      if Bool.eqb (crPassed result) true
      then Some (enter test ctx cfg)
      else Some (enter (lossCutJudgment LossCut.recordErrorState)
                   (recordFailure result ctx) cfg)
  | test, TEST_COMPLETE result =>
      if Bool.eqb (crPassed result) true
      then Some (enter verificationPassed ctx cfg)
      else Some (enter (lossCutJudgment LossCut.recordErrorState)
                   (recordFailure result ctx) cfg)
  | lossCutJudgment LossCut.recordErrorState, ERROR_STATE_RECORDED =>
      Some (enter (lossCutJudgment LossCut.check3Times) ctx cfg)
  | issueFix, FIX_ISSUED =>
      Some (enter typecheck (resetForRetry ctx) cfg)
  | _, _ => None
  end.

(** The eventless transitions: the chain of [always] inside
    [lossCutJudgment], whose guards are those of [losscut-judgment.ts] read
    at the current clock, and the [onDone] of the compound state. *)
Definition always (cfg : Config) : Micro Config State :=
  let ctx := context cfg in
  match state cfg with
  | lossCutJudgment LossCut.check3Times =>
      if LossCut.checkErrorCount3OrMore (base ctx)
      then Fired (fst (enter (lossCutJudgment LossCut.lossCutConfirmed)
                         (setDecision (Some cut) ctx) cfg))
                 [lossCutJudgment LossCut.lossCutConfirmed]
      else Fired (fst (enter (lossCutJudgment LossCut.check30Min) ctx cfg))
                 [lossCutJudgment LossCut.check30Min]
  | lossCutJudgment LossCut.check30Min =>
      if LossCut.checkOver30Min (clock cfg) (base ctx)
      then Fired (fst (enter (lossCutJudgment LossCut.lossCutConfirmed)
                         (setDecision (Some cut) ctx) cfg))
                 [lossCutJudgment LossCut.lossCutConfirmed]
      else Fired (fst (enter (lossCutJudgment LossCut.checkComplexity) ctx cfg))
                 [lossCutJudgment LossCut.checkComplexity]
  | lossCutJudgment LossCut.checkComplexity =>
      if LossCut.checkGrowingComplexity (base ctx)
      then Fired (fst (enter (lossCutJudgment LossCut.lossCutConfirmed)
                         (setDecision (Some cut) ctx) cfg))
                 [lossCutJudgment LossCut.lossCutConfirmed]
      else Fired (fst (enter (lossCutJudgment LossCut.checkRecurrence) ctx cfg))
                 [lossCutJudgment LossCut.checkRecurrence]
  | lossCutJudgment LossCut.checkRecurrence =>
      match LossCut.checkRecurringError (base ctx) with
      | None => Raised
      | Some true =>
          Fired (fst (enter (lossCutJudgment LossCut.lossCutConfirmed)
                        (setDecision (Some cut) ctx) cfg))
                [lossCutJudgment LossCut.lossCutConfirmed]
      | Some false =>
          Fired (fst (enter (lossCutJudgment LossCut.continueFix)
                        (setDecision (Some continue) ctx) cfg))
                [lossCutJudgment LossCut.continueFix]
      end
  | lossCutJudgment LossCut.continueFix
  | lossCutJudgment LossCut.lossCutConfirmed =>
      (* onDone: guard isLossCutContinue, then the unguarded transition *)
      match lossCutDecision (base ctx) with
      | Some continue => Fired (fst (enter issueFix ctx cfg)) [issueFix]
      | _ => Fired (fst (enter verificationFailed ctx cfg)) [verificationFailed]
      end
  | _ => Idle
  end.

(** The delayed transition [after: { 1800000: { target: ".lossCutJudgment" } }]
    of the root: whatever child state is active is left and
    [lossCutJudgment] is entered at its initial state. *)
Definition fire (cfg : Config) : Config * list State :=
  enter (lossCutJudgment LossCut.recordErrorState) (context cfg)
    (mkConfig (state cfg) (context cfg) (clock cfg) None).

(** [ms] milliseconds pass. *)
Definition elapse (ms : N) (cfg : Config) : Config :=
  mkConfig (state cfg) (context cfg) (clock cfg + Z.of_N ms) (deadline cfg).

(** The delayed transition is pending and its due time has come. *)
Definition due (cfg : Config) : bool :=
  match deadline cfg with
  | Some t => t <=? clock cfg
  | None => false
  end.

Definition step (fuel : nat) (cfg : Config) (log : list State) (i : Input)
  : Outcome Config State :=
  if isFinal (state cfg) then Settled cfg log
  else
    match i with
    | Deliver e =>
        match on cfg e with
        | Some (cfg', obs) => settle always fuel cfg' (log ++ obs)
        | None => Settled cfg log
        end
    | Elapse ms =>
        if due (elapse ms cfg)
        then let '(cfg', obs) := fire (elapse ms cfg) in
             settle always fuel cfg' (log ++ obs)
        else Settled (elapse ms cfg) log
    end.

Fixpoint run (fuel : nat) (cfg : Config) (log : list State) (inputs : list Input)
  : Outcome Config State :=
  match inputs with
  | [] => Settled cfg log
  | i :: rest =>
      match step fuel cfg log i with
      | Settled cfg' log' => run fuel cfg' log' rest
      | Crashed => Crashed
      | Diverged => Diverged
      end
  end.

(** The actor is started at time [startedNow] on the machine defined at
    time [definedAt]: the root is entered, which arms the delayed
    transition, and then the initial state [typecheck]. *)
Definition start (definedAt startedNow : Z) : Config * list State :=
  enter typecheck (initialContext definedAt)
    (mkConfig typecheck (initialContext definedAt) startedNow
       (Some (startedNow + 1800000))).

Definition execute (fuel : nat) (definedAt startedNow : Z) (inputs : list Input)
  : Outcome Config State :=
  let '(cfg, log) := start definedAt startedNow in
  run fuel cfg log inputs.

(** Configurations met by the actor started at [startedNow], the transient
    ones included: every transition, eventless or not, is one step. *)
Inductive Reach (definedAt startedNow : Z) : Config -> Prop :=
| Reach_start :
    Reach definedAt startedNow (fst (start definedAt startedNow))
| Reach_on cfg e cfg' obs :
    Reach definedAt startedNow cfg ->
    on cfg e = Some (cfg', obs) ->
    Reach definedAt startedNow cfg'
| Reach_always cfg cfg' obs :
    Reach definedAt startedNow cfg ->
    always cfg = Fired cfg' obs ->
    Reach definedAt startedNow cfg'
| Reach_elapse cfg ms :
    Reach definedAt startedNow cfg ->
    isFinal (state cfg) = false ->
    due (elapse ms cfg) = false ->
    Reach definedAt startedNow (elapse ms cfg)
| Reach_fire cfg ms :
    Reach definedAt startedNow cfg ->
    isFinal (state cfg) = false ->
    due (elapse ms cfg) = true ->
    Reach definedAt startedNow (fst (fire (elapse ms cfg))).

End Machine.

End VerificationLoop.

(** ** Recovery flow and escalation judgment ([recovery-flow.ts]) *)

Record ProblemAnalysis : Type := mkProblemAnalysis {
  verbalization : string;
  causeAnalysis : string;
  essenceIdentification : string;
  hasSecurityIssue : bool;
  hasProductionImpact : bool;
  hasDataLossRisk : bool;
  retreatCount : Z;
  isUnknownCause : bool;
  isOutOfSkillScope : bool
}.

Record FailureRecord : Type := mkFailureRecord {
  pattern : string;
  workaround : string;
  recordedAt : Z
}.

Inductive EscalationResult : Type := escalate | self.

(** [selectedApproach]: ["A" | "B" | "C" | "D"]. *)
Inductive Approach : Type := ApproachA | ApproachB | ApproachC | ApproachD.

Record RecoveryFlowOutput : Type := mkRecoveryFlowOutput {
  recovered : bool
}.

Module RecoveryFlow.

Record Context : Type := mkContext {
  lastError : option ErrorInfo;
  errorHistory : list ErrorRecord;
  analysisResult : option ProblemAnalysis;
  selectedApproach : option Approach;
  escalationResult : option EscalationResult;
  failureRecord : option FailureRecord;
  shouldShareWithTeam : bool
}.

(** RF-GW1 / ES-GW1. *)
Definition checkImmediateEscalationNeeded (analysis : option ProblemAnalysis) : bool :=
  match analysis with
  | None => false
  | Some a => hasSecurityIssue a || hasProductionImpact a || hasDataLossRisk a
  end.

(** ES-GW2. *)
Definition checkDelayedEscalationNeeded (analysis : option ProblemAnalysis) : bool :=
  match analysis with
  | None => false
  | Some a => (3 <=? retreatCount a) || isUnknownCause a || isOutOfSkillScope a
  end.

Inductive AnalysisStep : Type := verbalizeProblem | analyzeCause | identifyEssence.

Inductive EscalationStep : Type :=
| checkImmediate
| executeImmediate
| check30Min
| consider30Min
| escalationConfirmed
| selfResolution.

Inductive DirectStep : Type := humanDirectFix | askAiExplanation.

Inductive State : Type :=
| problemAnalysis (sub : AnalysisStep)
| escalationCheck
| escalationJudgment (sub : EscalationStep)
| approachSelection
| directResolution (sub : DirectStep)
| redecompose
| resetContext
| consultTeam
| recordToClaudeMd
| documentWorkaround
| teamShareDecision
| shareWithTeam
| recoveryComplete.

Inductive Event : Type :=
| PROBLEM_VERBALIZED
| CAUSE_ANALYZED
| ESSENCE_IDENTIFIED (analysis : ProblemAnalysis)
| ESCALATION_DECIDED
| HUMAN_FIX_COMPLETE
| AI_EXPLANATION_RECEIVED
| REDECOMPOSE_COMPLETE
| CONTEXT_RESET_COMPLETE
| TEAM_CONSULTED
| CLAUDE_MD_RECORDED
| WORKAROUND_DOCUMENTED
| TEAM_SHARED.

(** The named actions of [setup] (several share their name with a state);
    all have an empty body in the source. *)
Module Act.
Inductive Name : Type :=
| verbalizeProblem
| analyzeCause
| identifyEssence
| selectApproach
| humanDirectFix
| askAiExplanation
| redecomposeProblem
| resetContext
| consultTeam
| executeImmediateEscalation
| considerEscalation
| recordFailurePattern
| documentWorkaround
| shareWithTeam.
End Act.

(** The named guards of [setup]. *)
Module Guard.
Inductive Name : Type :=
| needsImmediateEscalation
| isApproachA
| isApproachB
| isApproachC
| shouldShareWithTeam
| isSecurityOrProductionOrDataLoss
| isRetreat3TimesOrUnknownOrOutOfScope
| isEscalationConfirmed.
End Guard.

(** Observations of a run: a state entered, with the context left by its
    entry actions, and a guard evaluated, with its value. *)
Inductive Obs : Type :=
| Enter (s : State) (ctx : Context)
| Eval (g : Guard.Name) (value : bool).

Definition noActions (a : Act.Name) (ctx : Context) : Context := ctx.

Definition initialContext : Context :=
  mkContext None [] None None None None false.

Definition setAnalysisResult (a : ProblemAnalysis) (ctx : Context) : Context :=
  mkContext (lastError ctx) (errorHistory ctx) (Some a) (selectedApproach ctx)
    (escalationResult ctx) (failureRecord ctx) (shouldShareWithTeam ctx).

Definition setEscalationResult (r : EscalationResult) (ctx : Context) : Context :=
  mkContext (lastError ctx) (errorHistory ctx) (analysisResult ctx)
    (selectedApproach ctx) (Some r) (failureRecord ctx) (shouldShareWithTeam ctx).

Definition isApproach (x : Approach) (ctx : Context) : bool :=
  match selectedApproach ctx, x with
  | Some ApproachA, ApproachA => true
  | Some ApproachB, ApproachB => true
  | Some ApproachC, ApproachC => true
  | Some ApproachD, ApproachD => true
  | _, _ => false
  end.

Definition isEscalationConfirmed (ctx : Context) : bool :=
  match escalationResult ctx with
  | Some escalate => true
  | _ => false
  end.

(** [output: () => ({ recovered: true })]. *)
Definition output (ctx : Context) : RecoveryFlowOutput :=
  mkRecoveryFlowOutput true.

Definition isFinal (s : State) : bool :=
  match s with
  | recoveryComplete => true
  | _ => false
  end.

(** The closing states of the flow: recording, documenting, the sharing
    decision, sharing, completion. *)
Definition isClosing (s : State) : bool :=
  match s with
  | recordToClaudeMd | documentWorkaround | teamShareDecision
  | shareWithTeam | recoveryComplete => true
  | _ => false
  end.

(** An observation made before the recording state is entered: no closing
    state is entered and the sharing guard is not evaluated. *)
Definition beforeRecording (o : Obs) : Prop :=
  match o with
  | Enter s _ => isClosing s = false
  | Eval g _ => g <> Guard.shouldShareWithTeam
  end.

(** The observations of a completed run that ended on [ctx]: a part made
    before recording, then recording, documenting and the sharing decision
    in this order, then completion, preceded by sharing exactly when the
    flag read by the decision was set. *)
Definition completedLog (log : list Obs) (ctx : Context) : Prop :=
  exists pre c1 c2 c3,
    Forall beforeRecording pre
    /\ ((shouldShareWithTeam c3 = false
         /\ log = pre ++ [Enter recordToClaudeMd c1;
                          Enter documentWorkaround c2;
                          Enter teamShareDecision c3;
                          Eval Guard.shouldShareWithTeam false;
                          Enter recoveryComplete ctx])
        \/ (shouldShareWithTeam c3 = true
            /\ exists c4,
                log = pre ++ [Enter recordToClaudeMd c1;
                              Enter documentWorkaround c2;
                              Enter teamShareDecision c3;
                              Eval Guard.shouldShareWithTeam true;
                              Enter shareWithTeam c4;
                              Enter recoveryComplete ctx])).

(** What the observations look like in each state of a run. *)
Definition logShape (c : State * Context) (log : list Obs) : Prop :=
  let '(s, ctx) := c in
  match s with
  | recordToClaudeMd =>
      exists pre,
        Forall beforeRecording pre
        /\ log = pre ++ [Enter recordToClaudeMd ctx]
  | documentWorkaround =>
      exists pre c1,
        Forall beforeRecording pre
        /\ log = pre ++ [Enter recordToClaudeMd c1; Enter documentWorkaround ctx]
  | teamShareDecision =>
      exists pre c1 c2,
        Forall beforeRecording pre
        /\ log = pre ++ [Enter recordToClaudeMd c1; Enter documentWorkaround c2;
                         Enter teamShareDecision ctx]
  | shareWithTeam =>
      exists pre c1 c2 c3,
        Forall beforeRecording pre
        /\ shouldShareWithTeam c3 = true
        /\ log = pre ++ [Enter recordToClaudeMd c1; Enter documentWorkaround c2;
                         Enter teamShareDecision c3;
                         Eval Guard.shouldShareWithTeam true;
                         Enter shareWithTeam ctx]
  | recoveryComplete => completedLog log ctx
  | _ => Forall beforeRecording log
  end.


Section Machine.

Variable exec : Act.Name -> Context -> Context.

(** Entry actions of the atomic states. *)
Definition entry (s : State) (ctx : Context) : Context :=
  match s with
  | problemAnalysis verbalizeProblem => exec Act.verbalizeProblem ctx
  | problemAnalysis analyzeCause => exec Act.analyzeCause ctx
  | problemAnalysis identifyEssence => exec Act.identifyEssence ctx
  | escalationJudgment executeImmediate => exec Act.executeImmediateEscalation ctx
  | escalationJudgment consider30Min => exec Act.considerEscalation ctx
  | approachSelection => exec Act.selectApproach ctx
  | directResolution humanDirectFix => exec Act.humanDirectFix ctx
  | directResolution askAiExplanation => exec Act.askAiExplanation ctx
  | redecompose => exec Act.redecomposeProblem ctx
  | resetContext => exec Act.resetContext ctx
  | consultTeam => exec Act.consultTeam ctx
  | recordToClaudeMd => exec Act.recordFailurePattern ctx
  | documentWorkaround => exec Act.documentWorkaround ctx
  | shareWithTeam => exec Act.shareWithTeam ctx
  | _ => ctx
  end.

Definition enter (s : State) (ctx : Context) : (State * Context) * list Obs :=
  ((s, entry s ctx), [Enter s (entry s ctx)]).

(** A transition taken after the guards [probes] were evaluated. *)
Definition take (probes : list Obs) (s : State) (ctx : Context)
  : Micro (State * Context) Obs :=
  let '(c, obs) := enter s ctx in Fired c (probes ++ obs).

(** The transition taken on an event. *)
Definition on (c : State * Context) (e : Event) : option ((State * Context) * list Obs) :=
  let '(s, ctx) := c in
  match s, e with
  | problemAnalysis verbalizeProblem, PROBLEM_VERBALIZED =>
      Some (enter (problemAnalysis analyzeCause) ctx)
  | problemAnalysis analyzeCause, CAUSE_ANALYZED =>
      Some (enter (problemAnalysis identifyEssence) ctx)
  | problemAnalysis identifyEssence, ESSENCE_IDENTIFIED a =>
      Some (enter escalationCheck (setAnalysisResult a ctx))
  | escalationJudgment executeImmediate, ESCALATION_DECIDED =>
      Some (enter (escalationJudgment escalationConfirmed) (setEscalationResult escalate ctx))
  | escalationJudgment consider30Min, ESCALATION_DECIDED =>
      Some (enter (escalationJudgment escalationConfirmed) (setEscalationResult escalate ctx))
  | directResolution humanDirectFix, HUMAN_FIX_COMPLETE =>
      Some (enter (directResolution askAiExplanation) ctx)
  | directResolution askAiExplanation, AI_EXPLANATION_RECEIVED =>
      Some (enter recordToClaudeMd ctx)
  | redecompose, REDECOMPOSE_COMPLETE => Some (enter recordToClaudeMd ctx)
  | resetContext, CONTEXT_RESET_COMPLETE => Some (enter recordToClaudeMd ctx)
  | consultTeam, TEAM_CONSULTED => Some (enter recordToClaudeMd ctx)
  | recordToClaudeMd, CLAUDE_MD_RECORDED => Some (enter documentWorkaround ctx)
  | documentWorkaround, WORKAROUND_DOCUMENTED => Some (enter teamShareDecision ctx)
  | shareWithTeam, TEAM_SHARED => Some (enter recoveryComplete ctx)
  | _, _ => None
  end.

(** The eventless transitions inside the compound state
    [escalationJudgment] (ES-GW1, ES-GW2). *)
Definition escalationAlways (c : State * Context) : Micro (State * Context) Obs :=
  let '(s, ctx) := c in
  match s with
  | escalationJudgment checkImmediate =>
      if checkImmediateEscalationNeeded (analysisResult ctx)
      then take [Eval Guard.isSecurityOrProductionOrDataLoss true]
             (escalationJudgment executeImmediate) ctx
      else take [Eval Guard.isSecurityOrProductionOrDataLoss false]
             (escalationJudgment check30Min) ctx
  | escalationJudgment check30Min =>
      if checkDelayedEscalationNeeded (analysisResult ctx)
      then take [Eval Guard.isRetreat3TimesOrUnknownOrOutOfScope true]
             (escalationJudgment consider30Min) ctx
      else take [Eval Guard.isRetreat3TimesOrUnknownOrOutOfScope false]
             (escalationJudgment selfResolution) (setEscalationResult self ctx)
  | _ => Idle
  end.

(** All eventless transitions of the machine: those of the escalation
    judgment, its [onDone], and the [always] of [escalationCheck],
    [approachSelection] and [teamShareDecision]. *)
Definition always (c : State * Context) : Micro (State * Context) Obs :=
  let '(s, ctx) := c in
  match s with
  | escalationCheck =>
      if checkImmediateEscalationNeeded (analysisResult ctx)
      then take [Eval Guard.needsImmediateEscalation true]
             (escalationJudgment checkImmediate) ctx
      else take [Eval Guard.needsImmediateEscalation false] approachSelection ctx
  | escalationJudgment escalationConfirmed
  | escalationJudgment selfResolution =>
      if isEscalationConfirmed ctx
      then take [Eval Guard.isEscalationConfirmed true] consultTeam ctx
      else take [Eval Guard.isEscalationConfirmed false] approachSelection ctx
  | escalationJudgment _ => escalationAlways c
  | approachSelection =>
      if isApproach ApproachA ctx
      then take [Eval Guard.isApproachA true] (directResolution humanDirectFix) ctx
      else if isApproach ApproachB ctx
      then take [Eval Guard.isApproachA false; Eval Guard.isApproachB true] redecompose ctx
      else if isApproach ApproachC ctx
      then take [Eval Guard.isApproachA false; Eval Guard.isApproachB false;
                 Eval Guard.isApproachC true] resetContext ctx
      else take [Eval Guard.isApproachA false; Eval Guard.isApproachB false;
                 Eval Guard.isApproachC false] (escalationJudgment checkImmediate) ctx
  | teamShareDecision =>
      if shouldShareWithTeam ctx
      then take [Eval Guard.shouldShareWithTeam true] shareWithTeam ctx
      else take [Eval Guard.shouldShareWithTeam false] recoveryComplete ctx
  | _ => Idle
  end.

Definition step (fuel : nat) (c : State * Context) (log : list Obs) (e : Event)
  : Outcome (State * Context) Obs :=
  match on c e with
  | Some (c', obs) => settle always fuel c' (log ++ obs)
  | None => Settled c log
  end.

Fixpoint run (fuel : nat) (c : State * Context) (log : list Obs) (events : list Event)
  : Outcome (State * Context) Obs :=
  match events with
  | [] => Settled c log
  | e :: rest =>
      match step fuel c log e with
      | Settled c' log' => run fuel c' log' rest
      | Crashed => Crashed
      | Diverged => Diverged
      end
  end.

(** The actor starts in [problemAnalysis.verbalizeProblem]. *)
Definition start : (State * Context) * list Obs :=
  enter (problemAnalysis verbalizeProblem) initialContext.

Definition execute (fuel : nat) (events : list Event) : Outcome (State * Context) Obs :=
  let '(c, log) := start in run fuel c log events.




End Machine.

End RecoveryFlow.

(** ** Orchestrator ([main-flow.ts]) *)

Record LevelResult : Type := mkLevelResult {
  lrPassed : bool;
  issues : list string
}.

Record EvaluationResults : Type := mkEvaluationResults {
  l0 : option LevelResult;
  l1 : option LevelResult;
  l2 : option LevelResult;
  l3 : option LevelResult
}.

Record L0L3CheckOutput : Type := mkL0L3CheckOutput {
  evaluationResults : EvaluationResults;
  allPassed : bool
}.

Inductive TaskCharacteristic : Type :=
| initialDraft
| styleUnification
| gapDetection
| designDecision
| domainSpecific
| unknown.

Inductive DivisionResult : Type := aiLed | humanLed.

Inductive PromptTechnique : Type :=
| zeroShot
| chainOfThought
| treeOfThoughts
| react
| selfConsistency.

Record SP2Output : Type := mkSP2Output {
  division : DivisionResult;
  promptTechnique : option PromptTechnique;
  taskCharacteristic : TaskCharacteristic
}.

Inductive BrightLineViolation : Type :=
| BL1_humanJudgment
| BL2_preDeployCheck
| BL3_humanReview
| BL4_independentVerify.

Record BrightLinesResult : Type := mkBrightLinesResult {
  hasViolation : bool;
  blViolations : list BrightLineViolation
}.

Record ExecutionResult : Type := mkExecutionResult {
  erOutput : string;
  isAiGenerated : bool;
  humanReviewed : bool
}.

Inductive Sp1Verdict : Type := allPass | failed.

(** The record kept in [MainFlowContext.sp1Result]. *)
Record Sp1Result : Type := mkSp1Result {
  verdict : Sp1Verdict;
  failedLevel : option Z;
  evaluatedLevels : Z
}.

Inductive CompletionType : Type := completedTask | recoveryExited.

Module MainFlow.

Record Context : Type := mkContext {
  taskDescription : string;
  brightLinesResult : BrightLinesResult;
  sp1Result : option Sp1Result;
  adjustmentCount : Z;
  sp2Result : option SP2Output;
  executionResult : option ExecutionResult;
  sp3Result : option SP3.Output;
  lastError : option ErrorInfo;
  errorHistory : list ErrorRecord;
  recoveryResult : option RecoveryFlowOutput;
  hasPrincipleViolation : bool
}.

Record Output : Type := mkOutput {
  completionType : CompletionType;
  outExecutionResult : option ExecutionResult;
  outRecoveryResult : option RecoveryFlowOutput
}.

Inductive State : Type :=
| brightLinesCheck
| brightLinesFix
| sp1Check
| taskAdjustment
| sp2Division
| humanExecution
| aiExecution
| humanReview
| sp3Verification
| recoveryFlow
| taskCompleted
| recoveryExit.

(** The members of [MainFlowEvent], followed by the completion events of
    the four invoked actors, which carry the actor's output. *)
Inductive Event : Type :=
| START
| CHECK_BRIGHT_LINES
| BRIGHT_LINES_PASS
| BRIGHT_LINES_FAIL (violations : list BrightLineViolation)
| BRIGHT_LINES_FIXED
| SP1_PASS
| SP1_FAIL (level : Z)
| ADJUSTMENT_DONE
| SP2_AI_LED (technique : PromptTechnique) (characteristic : TaskCharacteristic)
| SP2_HUMAN_LED
| EXECUTE_HUMAN (output : string)
| EXECUTE_AI (output : string)
| HUMAN_REVIEW_DONE (approved : bool)
| SP3_PASS
| SP3_LOSSCUT
| SP3_PRINCIPLE_VIOLATION
| RECOVERY_DONE
| DoneSp1 (output : L0L3CheckOutput)
| DoneSp2 (output : SP2Output)
| DoneSp3 (output : SP3.Output)
| DoneRf (output : RecoveryFlowOutput).

(** [createMainFlowContext]. *)
Definition createMainFlowContext (description : string) : Context :=
  mkContext description (mkBrightLinesResult false []) None 0 None None None
    None [] None false.

Definition setBrightLinesResult (r : BrightLinesResult) (c : Context) : Context :=
  mkContext (taskDescription c) r (sp1Result c) (adjustmentCount c) (sp2Result c)
    (executionResult c) (sp3Result c) (lastError c) (errorHistory c)
    (recoveryResult c) (hasPrincipleViolation c).

Definition setSp1Result (r : option Sp1Result) (c : Context) : Context :=
  mkContext (taskDescription c) (brightLinesResult c) r (adjustmentCount c)
    (sp2Result c) (executionResult c) (sp3Result c) (lastError c)
    (errorHistory c) (recoveryResult c) (hasPrincipleViolation c).

Definition setAdjustmentCount (n : Z) (c : Context) : Context :=
  mkContext (taskDescription c) (brightLinesResult c) (sp1Result c) n
    (sp2Result c) (executionResult c) (sp3Result c) (lastError c)
    (errorHistory c) (recoveryResult c) (hasPrincipleViolation c).

Definition setSp2Result (r : option SP2Output) (c : Context) : Context :=
  mkContext (taskDescription c) (brightLinesResult c) (sp1Result c)
    (adjustmentCount c) r (executionResult c) (sp3Result c) (lastError c)
    (errorHistory c) (recoveryResult c) (hasPrincipleViolation c).

Definition setExecutionResult (r : option ExecutionResult) (c : Context) : Context :=
  mkContext (taskDescription c) (brightLinesResult c) (sp1Result c)
    (adjustmentCount c) (sp2Result c) r (sp3Result c) (lastError c)
    (errorHistory c) (recoveryResult c) (hasPrincipleViolation c).

Definition setSp3Result (r : option SP3.Output) (c : Context) : Context :=
  mkContext (taskDescription c) (brightLinesResult c) (sp1Result c)
    (adjustmentCount c) (sp2Result c) (executionResult c) r (lastError c)
    (errorHistory c) (recoveryResult c) (hasPrincipleViolation c).

Definition setHasPrincipleViolation (b : bool) (c : Context) : Context :=
  mkContext (taskDescription c) (brightLinesResult c) (sp1Result c)
    (adjustmentCount c) (sp2Result c) (executionResult c) (sp3Result c)
    (lastError c) (errorHistory c) (recoveryResult c) b.

Definition setHandOver (e : option ErrorInfo) (h : list ErrorRecord) (c : Context) : Context :=
  mkContext (taskDescription c) (brightLinesResult c) (sp1Result c)
    (adjustmentCount c) (sp2Result c) (executionResult c) (sp3Result c) e h
    (recoveryResult c) (hasPrincipleViolation c).

Definition setRecoveryResult (r : option RecoveryFlowOutput) (c : Context) : Context :=
  mkContext (taskDescription c) (brightLinesResult c) (sp1Result c)
    (adjustmentCount c) (sp2Result c) (executionResult c) (sp3Result c)
    (lastError c) (errorHistory c) r (hasPrincipleViolation c).

(** The assignment of [HUMAN_REVIEW_DONE]:
    [{ ...context.executionResult!, humanReviewed: event.approved }].
    Spreading [null] leaves [output] and [isAiGenerated] undefined; the state
    [humanReview] is entered with a result in place, see
    [humanReview_has_result]. *)
Definition reviewed (approved : bool) (r : option ExecutionResult) : ExecutionResult :=
  match r with
  | Some x => mkExecutionResult (erOutput x) (isAiGenerated x) approved
  | None => mkExecutionResult EmptyString false approved
  end.

(** The [onDone] transitions of [sp3Verification], tried in the order of the
    array: the first one whose guard holds is taken. *)
Definition sp3VerificationDone (output : SP3.Output) (c : Context) : State * Context :=
  if Bool.eqb (SP3.passed output) true then
    (taskCompleted, setSp3Result (Some output) c)
  else if Bool.eqb (SP3.principleViolation output) true then
    (brightLinesCheck, setHasPrincipleViolation true (setSp3Result (Some output) c))
  else
    (recoveryFlow,
     setHandOver (SP3.lastError output) (SP3.errorHistory output)
       (setSp3Result (Some output) c)).

(** The transition taken on an event; [None] when the state does not handle
    it.  The named actions of the machine ([fixBrightLines], [adjustTask],
    [executeHuman], [executeAi], [reviewAiOutput]) have empty bodies. *)
Definition on (cfg : State * Context) (e : Event) : option (State * Context) :=
  let '(s, c) := cfg in
  match s, e with
  | brightLinesCheck, BRIGHT_LINES_PASS => Some (sp1Check, c)
  | brightLinesCheck, BRIGHT_LINES_FAIL violations =>
      Some (brightLinesFix, setBrightLinesResult (mkBrightLinesResult true violations) c)
  | brightLinesFix, BRIGHT_LINES_FIXED =>
      Some (brightLinesCheck, setBrightLinesResult (mkBrightLinesResult false []) c)
  | sp1Check, DoneSp1 output =>
      if Bool.eqb (allPassed output) true
      then Some (sp2Division, setSp1Result (Some (mkSp1Result allPass None 4)) c)
      else Some (taskAdjustment, setSp1Result (Some (mkSp1Result failed None 4)) c)
  | taskAdjustment, ADJUSTMENT_DONE =>
      Some (sp1Check, setSp1Result None (setAdjustmentCount (adjustmentCount c + 1) c))
  | sp2Division, DoneSp2 output =>
      match division output with
      | aiLed => Some (aiExecution, setSp2Result (Some output) c)
      | humanLed => Some (humanExecution, setSp2Result (Some output) c)
      end
  | humanExecution, EXECUTE_HUMAN output =>
      Some (sp3Verification,
            setExecutionResult (Some (mkExecutionResult output false true)) c)
  | aiExecution, EXECUTE_AI output =>
      Some (humanReview,
            setExecutionResult (Some (mkExecutionResult output true false)) c)
  | humanReview, HUMAN_REVIEW_DONE approved =>
      Some (sp3Verification,
            setExecutionResult (Some (reviewed approved (executionResult c))) c)
  | sp3Verification, DoneSp3 output => Some (sp3VerificationDone output c)
  | recoveryFlow, DoneRf output =>
      Some (recoveryExit, setRecoveryResult (Some output) c)
  | _, _ => None
  end.

(** A transition that was taken: the state it left and the event. *)
Definition Taken : Type := (State * Event)%type.

Definition step (cfg : State * Context) (log : list Taken) (e : Event)
  : (State * Context) * list Taken :=
  match on cfg e with
  | Some cfg' => (cfg', log ++ [(fst cfg, e)])
  | None => (cfg, log)
  end.

Fixpoint run (cfg : State * Context) (log : list Taken) (events : list Event)
  : (State * Context) * list Taken :=
  match events with
  | [] => (cfg, log)
  | e :: rest => let '(cfg', log') := step cfg log e in run cfg' log' rest
  end.

(** The actor starts in [brightLinesCheck] on [createMainFlowContext ""]. *)
Definition start : State * Context := (brightLinesCheck, createMainFlowContext EmptyString).

Definition execute (events : list Event) : (State * Context) * list Taken :=
  run start [] events.

(** A human review verdict was delivered to the state [humanReview], whose
    transition assigns [humanReviewed]. *)
Definition reviewedIn (log : list Taken) : Prop :=
  exists approved, In (humanReview, HUMAN_REVIEW_DONE approved) log.

(** In [humanReview] an execution result is in place; an AI-generated
    result is either awaiting its review or has had one. *)
Definition reviewInvariant (cfg : State * Context) (log : list Taken) : Prop :=
  (fst cfg = humanReview -> executionResult (snd cfg) <> None)
  /\ (forall r,
        executionResult (snd cfg) = Some r ->
        isAiGenerated r = true ->
        fst cfg = humanReview \/ reviewedIn log).

(** [output] of the machine. *)
Definition output (c : Context) : Output :=
  mkOutput
    (match recoveryResult c with Some _ => recoveryExited | None => completedTask end)
    (executionResult c)
    (recoveryResult c).

End MainFlow.

(** ** Sample inputs *)

Module Sample.

(** A lint error that comes back: the history holds it twice, the second
    time as the current error. *)
Definition lintError : ErrorInfo := mkErrorInfo StepLint "E1"%string 7.

Definition pastRecord : ErrorRecord :=
  mkErrorRecord (Some (mkErrorInfo StepLint "E1"%string 3)) EmptyString unchanged.

Definition latestRecord : ErrorRecord :=
  mkErrorRecord (Some lintError) EmptyString unchanged.

Definition recurringContext : LossCutContext :=
  mkLossCutContext 2 0 (Some lintError) [pastRecord; latestRecord] None.

(** Five errors counted, nothing else on record. *)
Definition countedContext : LossCutContext :=
  mkLossCutContext 5 0 None [] None.

(** A loop started at time 0 with nothing on record, and the same state
    with a decision left over in its slot. *)
Definition freshContext : LossCutContext :=
  mkLossCutContext 0 0 None [] None.

Definition decidedContext : LossCutContext :=
  mkLossCutContext 0 0 None [] (Some cut).

Definition passing : CheckResult := mkCheckResult true None.

Definition failing (s : CheckStep) (m : string) : CheckResult :=
  mkCheckResult false (Some (mkErrorInfo s m 0)).

(** An implementation of the actions of the verification loop in which the
    collaboration-principle check records a violation and every other
    action keeps its empty body. *)
Definition collaborationFails (a : VerificationLoop.Action)
  (ctx : VerificationLoop.Context) : VerificationLoop.Context :=
  match a with
  | VerificationLoop.checkCollaborationPrinciples =>
      VerificationLoop.mkContext
        (VerificationLoop.base ctx)
        (VerificationLoop.currentStep ctx)
        (Some (mkPrincipleCheckResult false ["C1"%string]))
        (VerificationLoop.aiPrincipleCheckResult ctx)
  | _ => ctx
  end.

(** The loop, started at time 0, has passed the type check and rests in
    [lint] one second later. *)
Definition lintAfterOneSecond : VerificationLoop.Config :=
  VerificationLoop.mkConfig VerificationLoop.lint
    (VerificationLoop.initialContext 0) 1000 (Some 1800000).

Definition passThenWait : list VerificationLoop.Input :=
  [VerificationLoop.Deliver (VerificationLoop.TYPECHECK_COMPLETE passing);
   VerificationLoop.Elapse 1000].

Definition failThenAcknowledge : list VerificationLoop.Input :=
  [VerificationLoop.Deliver
     (VerificationLoop.TYPECHECK_COMPLETE (failing StepTypecheck "E1"%string));
   VerificationLoop.Deliver VerificationLoop.ERROR_STATE_RECORDED].

(** The loop as written, started at time 0, after one failed type check
    that the judgment lets continue: it rests in [issueFix]. *)
Definition afterOneFailure : VerificationLoop.Config :=
  VerificationLoop.mkConfig VerificationLoop.issueFix
    (VerificationLoop.mkContext
       (mkLossCutContext 1 0 (Some (mkErrorInfo StepTypecheck "E1"%string 0))
          [mkErrorRecord (Some (mkErrorInfo StepTypecheck "E1"%string 0))
             EmptyString unchanged]
          (Some continue))
       StepTypecheck None None)
    0 (Some 1800000).

(** An implementation of the actions of the recovery flow whose
    [selectApproach] assigns the approach [x] and whose other actions keep
    their empty body. *)
Definition choose (x : option Approach) (a : RecoveryFlow.Act.Name)
  (ctx : RecoveryFlow.Context) : RecoveryFlow.Context :=
  match a with
  | RecoveryFlow.Act.selectApproach =>
      RecoveryFlow.mkContext
        (RecoveryFlow.lastError ctx) (RecoveryFlow.errorHistory ctx)
        (RecoveryFlow.analysisResult ctx) x
        (RecoveryFlow.escalationResult ctx) (RecoveryFlow.failureRecord ctx)
        (RecoveryFlow.shouldShareWithTeam ctx)
  | _ => ctx
  end.

(** As [choose], with a [documentWorkaround] that sets the share flag. *)
Definition chooseAndShare (x : option Approach) (a : RecoveryFlow.Act.Name)
  (ctx : RecoveryFlow.Context) : RecoveryFlow.Context :=
  match a with
  | RecoveryFlow.Act.documentWorkaround =>
      RecoveryFlow.mkContext
        (RecoveryFlow.lastError ctx) (RecoveryFlow.errorHistory ctx)
        (RecoveryFlow.analysisResult ctx) (RecoveryFlow.selectedApproach ctx)
        (RecoveryFlow.escalationResult ctx) (RecoveryFlow.failureRecord ctx)
        true
  | _ => choose x a ctx
  end.

(** An analysis whose escalation flags are all off, but for the fields given. *)
Definition analysis (security dataLoss : bool) (retreats : Z) : ProblemAnalysis :=
  mkProblemAnalysis "p"%string "c"%string "e"%string
    security false dataLoss retreats false false.

Definition analysed (a : ProblemAnalysis) : list RecoveryFlow.Event :=
  [RecoveryFlow.PROBLEM_VERBALIZED; RecoveryFlow.CAUSE_ANALYZED;
   RecoveryFlow.ESSENCE_IDENTIFIED a].

Definition closing : list RecoveryFlow.Event :=
  [RecoveryFlow.CLAUDE_MD_RECORDED; RecoveryFlow.WORKAROUND_DOCUMENTED].

Definition runA : list RecoveryFlow.Event :=
  analysed (analysis false false 0)
    ++ [RecoveryFlow.HUMAN_FIX_COMPLETE; RecoveryFlow.AI_EXPLANATION_RECEIVED]
    ++ closing.

Definition runB : list RecoveryFlow.Event :=
  analysed (analysis false false 0) ++ [RecoveryFlow.REDECOMPOSE_COMPLETE] ++ closing.

Definition runC : list RecoveryFlow.Event :=
  analysed (analysis false false 0) ++ [RecoveryFlow.CONTEXT_RESET_COMPLETE] ++ closing.

Definition runD : list RecoveryFlow.Event :=
  analysed (analysis false false 3)
    ++ [RecoveryFlow.ESCALATION_DECIDED; RecoveryFlow.TEAM_CONSULTED] ++ closing.


(** An output of the verification loop that reports both a pass and a
    principle violation. *)
Definition passedWithViolation : SP3.Output :=
  SP3.mkOutput true false None [] true.

(** The human-led path of the orchestrator up to the end of the
    verification loop, which reports [out]. *)
Definition humanPath (out : SP3.Output) : list MainFlow.Event :=
  [MainFlow.BRIGHT_LINES_PASS;
   MainFlow.DoneSp1 (mkL0L3CheckOutput (mkEvaluationResults None None None None) true);
   MainFlow.DoneSp2 (mkSP2Output humanLed None unknown);
   MainFlow.EXECUTE_HUMAN "done"%string;
   MainFlow.DoneSp3 out].

(** The AI-led path of the orchestrator, with an approving review, up to a
    passing verification. *)
Definition aiPath : list MainFlow.Event :=
  [MainFlow.BRIGHT_LINES_PASS;
   MainFlow.DoneSp1 (mkL0L3CheckOutput (mkEvaluationResults None None None None) true);
   MainFlow.DoneSp2 (mkSP2Output aiLed (Some zeroShot) initialDraft);
   MainFlow.EXECUTE_AI "draft"%string;
   MainFlow.HUMAN_REVIEW_DONE true;
   MainFlow.DoneSp3 (SP3.mkOutput true false None [] false)].

(** Where [aiPath] ends. *)
Definition aiPathEnd : (MainFlow.State * MainFlow.Context) * list MainFlow.Taken :=
  Eval vm_compute in MainFlow.execute aiPath.

(** An implementation of the actions of the verification loop in which the
    agent-behavior-principle check records a violation and every other
    action keeps its empty body. *)
Definition agentCheckFails (a : VerificationLoop.Action)
  (ctx : VerificationLoop.Context) : VerificationLoop.Context :=
  match a with
  | VerificationLoop.checkAIPrinciples =>
      VerificationLoop.mkContext
        (VerificationLoop.base ctx)
        (VerificationLoop.currentStep ctx)
        (VerificationLoop.collaborationCheckResult ctx)
        (Some (mkPrincipleCheckResult false ["A4"%string]))
  | _ => ctx
  end.

Definition threePasses : list VerificationLoop.Input :=
  [VerificationLoop.Deliver (VerificationLoop.TYPECHECK_COMPLETE passing);
   VerificationLoop.Deliver (VerificationLoop.LINT_COMPLETE passing);
   VerificationLoop.Deliver (VerificationLoop.TEST_COMPLETE passing)].

End Sample.

(** ** L0-L3 check ([l0l4-hierarchy.ts], SP-1) *)

Module L0L3Check.

(** [L0L3CheckContext]. *)
Record Context : Type := mkContext {
  evaluationResults : EvaluationResults
}.

Inductive State : Type :=
| l0Check
| l1Check
| l2Check
| l3Check
| passed
| failed.

Inductive Event : Type :=
| L0_EVALUATION_COMPLETE (result : LevelResult)
| L1_EVALUATION_COMPLETE (result : LevelResult)
| L2_EVALUATION_COMPLETE (result : LevelResult)
| L3_EVALUATION_COMPLETE (result : LevelResult).

(** [context] of [createMachine]. *)
Definition initialContext : Context :=
  mkContext (mkEvaluationResults None None None None).

(** The four assignments [{ ...context.evaluationResults, lN: event.result }]. *)
Definition setL0 (r : LevelResult) (ctx : Context) : Context :=
  mkContext (mkEvaluationResults (Some r) (l1 (evaluationResults ctx))
               (l2 (evaluationResults ctx)) (l3 (evaluationResults ctx))).

Definition setL1 (r : LevelResult) (ctx : Context) : Context :=
  mkContext (mkEvaluationResults (l0 (evaluationResults ctx)) (Some r)
               (l2 (evaluationResults ctx)) (l3 (evaluationResults ctx))).

Definition setL2 (r : LevelResult) (ctx : Context) : Context :=
  mkContext (mkEvaluationResults (l0 (evaluationResults ctx))
               (l1 (evaluationResults ctx)) (Some r) (l3 (evaluationResults ctx))).

Definition setL3 (r : LevelResult) (ctx : Context) : Context :=
  mkContext (mkEvaluationResults (l0 (evaluationResults ctx))
               (l1 (evaluationResults ctx)) (l2 (evaluationResults ctx)) (Some r)).

(** The transition taken on an event; the guards [isL0Pass] to [isL3Pass]
    read [event.result.passed === true].  The entry actions [evaluateL0] to
    [evaluateL3] have empty bodies. *)
Definition on (c : State * Context) (e : Event) : option (State * Context) :=
  let '(s, ctx) := c in
  match s, e with
  | l0Check, L0_EVALUATION_COMPLETE result =>
      if Bool.eqb (lrPassed result) true
      then Some (l1Check, setL0 result ctx)
      else Some (failed, setL0 result ctx)
  | l1Check, L1_EVALUATION_COMPLETE result =>
      if Bool.eqb (lrPassed result) true
      then Some (l2Check, setL1 result ctx)
      else Some (failed, setL1 result ctx)
  | l2Check, L2_EVALUATION_COMPLETE result =>
      if Bool.eqb (lrPassed result) true
      then Some (l3Check, setL2 result ctx)
      else Some (failed, setL2 result ctx)
  | l3Check, L3_EVALUATION_COMPLETE result =>
      if Bool.eqb (lrPassed result) true
      then Some (passed, setL3 result ctx)
      else Some (failed, setL3 result ctx)
  | _, _ => None
  end.

Definition step (c : State * Context) (e : Event) : State * Context :=
  match on c e with
  | Some c' => c'
  | None => c
  end.

Definition run (c : State * Context) (events : list Event) : State * Context :=
  fold_left step events c.

Definition start : State * Context := (l0Check, initialContext).

Definition execute (events : list Event) : State * Context := run start events.

Definition isFinal (s : State) : bool :=
  match s with
  | passed | failed => true
  | _ => false
  end.

(** The callback of [every]: [r?.passed === true]. *)
Definition levelPassed (r : option LevelResult) : bool :=
  match r with
  | Some x => Bool.eqb (lrPassed x) true
  | None => false
  end.

(** [output]: [Object.values] lists the levels in the order l0, l1, l2, l3. *)
Definition output (ctx : Context) : L0L3CheckOutput :=
  mkL0L3CheckOutput (evaluationResults ctx)
    (forallb levelPassed
       [l0 (evaluationResults ctx); l1 (evaluationResults ctx);
        l2 (evaluationResults ctx); l3 (evaluationResults ctx)]).

(** A level was evaluated and passed; a level was evaluated and did not. *)
Definition okAt (r : option LevelResult) : Prop :=
  exists x, r = Some x /\ lrPassed x = true.

Definition koAt (r : option LevelResult) : Prop :=
  exists x, r = Some x /\ lrPassed x = false.

(** What the context holds in each state: the levels passed so far, then,
    in [failed], the level that did not pass, and nothing after it. *)
Definition levelsShape (c : State * Context) : Prop :=
  let '(s, ctx) := c in
  let r := evaluationResults ctx in
  match s with
  | l0Check => l0 r = None /\ l1 r = None /\ l2 r = None /\ l3 r = None
  | l1Check => okAt (l0 r) /\ l1 r = None /\ l2 r = None /\ l3 r = None
  | l2Check => okAt (l0 r) /\ okAt (l1 r) /\ l2 r = None /\ l3 r = None
  | l3Check => okAt (l0 r) /\ okAt (l1 r) /\ okAt (l2 r) /\ l3 r = None
  | passed => okAt (l0 r) /\ okAt (l1 r) /\ okAt (l2 r) /\ okAt (l3 r)
  | failed =>
      (koAt (l0 r) /\ l1 r = None /\ l2 r = None /\ l3 r = None)
      \/ (okAt (l0 r) /\ koAt (l1 r) /\ l2 r = None /\ l3 r = None)
      \/ (okAt (l0 r) /\ okAt (l1 r) /\ koAt (l2 r) /\ l3 r = None)
      \/ (okAt (l0 r) /\ okAt (l1 r) /\ okAt (l2 r) /\ koAt (l3 r))
  end.

End L0L3Check.

(** ** Division of work ([sp2DivisionMachine], SP-2) *)

Module SP2Division.

(** [SP2Context]. *)
Record Context : Type := mkContext {
  taskDescription : string;
  taskCharacteristic : option TaskCharacteristic;
  isAiStrength : option bool;
  divisionResult : option DivisionResult;
  promptTechnique : option PromptTechnique
}.

Definition createSP2Context (description : string) : Context :=
  mkContext description None None None None.

(** DT-6 guard. *)
Definition isNotAiStrength (characteristic : TaskCharacteristic) : bool :=
  match characteristic with
  | designDecision | domainSpecific => true
  | _ => false
  end.

Inductive State : Type :=
| analyzingTask
| decidingDivision
| selectingPrompt
| aiLedExit
| humanLedExit.

(** [SP2Event]. *)
Inductive Event : Type :=
| ANALYZE_TASK
| TASK_ANALYZED (characteristic : TaskCharacteristic) (aiStrength : bool)
| DECIDE_DIVISION (result : DivisionResult)
| SELECT_PROMPT (technique : PromptTechnique).

(** The actions of the transitions write into the context object:
    [context.taskCharacteristic = ...] and so on. *)
Definition analysed (characteristic : TaskCharacteristic) (aiStrength : bool)
  (division : option DivisionResult) (ctx : Context) : Context :=
  mkContext (taskDescription ctx) (Some characteristic) (Some aiStrength)
    division (promptTechnique ctx).

Definition setDivisionResult (r : DivisionResult) (ctx : Context) : Context :=
  mkContext (taskDescription ctx) (taskCharacteristic ctx) (isAiStrength ctx)
    (Some r) (promptTechnique ctx).

Definition setPromptTechnique (t : PromptTechnique) (ctx : Context) : Context :=
  mkContext (taskDescription ctx) (taskCharacteristic ctx) (isAiStrength ctx)
    (divisionResult ctx) (Some t).

Definition on (c : State * Context) (e : Event) : option (State * Context) :=
  let '(s, ctx) := c in
  match s, e with
  | analyzingTask, TASK_ANALYZED characteristic aiStrength =>
      if isNotAiStrength characteristic
      then Some (humanLedExit, analysed characteristic aiStrength (Some humanLed) ctx)
      else Some (decidingDivision,
                 analysed characteristic aiStrength (divisionResult ctx) ctx)
  | decidingDivision, DECIDE_DIVISION result =>
      match result with
      | humanLed => Some (humanLedExit, setDivisionResult result ctx)
      | aiLed => Some (selectingPrompt, setDivisionResult result ctx)
      end
  | selectingPrompt, SELECT_PROMPT technique =>
      Some (aiLedExit, setPromptTechnique technique ctx)
  | _, _ => None
  end.

Definition step (c : State * Context) (e : Event) : State * Context :=
  match on c e with
  | Some c' => c'
  | None => c
  end.

Definition run (c : State * Context) (events : list Event) : State * Context :=
  fold_left step events c.

(** [context: () => createSP2Context("")]. *)
Definition start : State * Context := (analyzingTask, createSP2Context EmptyString).

Definition execute (events : list Event) : State * Context := run start events.

Definition isFinal (s : State) : bool :=
  match s with
  | aiLedExit | humanLedExit => true
  | _ => false
  end.

(** [output] of the machine. *)
Definition output (ctx : Context) : SP2Output :=
  mkSP2Output
    (match divisionResult ctx with Some r => r | None => humanLed end)
    (match divisionResult ctx with
     | Some aiLed => promptTechnique ctx
     | _ => None
     end)
    (match taskCharacteristic ctx with Some c => c | None => unknown end).

(** What the context holds in each state. *)
Definition contextShape (c : State * Context) : Prop :=
  let '(s, ctx) := c in
  match s with
  | analyzingTask =>
      taskCharacteristic ctx = None /\ divisionResult ctx = None
      /\ promptTechnique ctx = None
  | decidingDivision =>
      (exists ch, taskCharacteristic ctx = Some ch /\ isNotAiStrength ch = false)
      /\ divisionResult ctx = None /\ promptTechnique ctx = None
  | selectingPrompt =>
      (exists ch, taskCharacteristic ctx = Some ch /\ isNotAiStrength ch = false)
      /\ divisionResult ctx = Some aiLed /\ promptTechnique ctx = None
  | aiLedExit =>
      (exists ch, taskCharacteristic ctx = Some ch /\ isNotAiStrength ch = false)
      /\ divisionResult ctx = Some aiLed
      /\ exists t, promptTechnique ctx = Some t
  | humanLedExit =>
      (exists ch, taskCharacteristic ctx = Some ch)
      /\ divisionResult ctx = Some humanLed /\ promptTechnique ctx = None
  end.

(** Two configurations that differ at most in the recorded flag. *)
Definition sameButFlag (a b : State * Context) : Prop :=
  fst a = fst b
  /\ taskDescription (snd a) = taskDescription (snd b)
  /\ taskCharacteristic (snd a) = taskCharacteristic (snd b)
  /\ divisionResult (snd a) = divisionResult (snd b)
  /\ promptTechnique (snd a) = promptTechnique (snd b).

(** The event with its [isAiStrength] flag replaced by [b]. *)
Definition withFlag (b : bool) (e : Event) : Event :=
  match e with
  | TASK_ANALYZED characteristic _ => TASK_ANALYZED characteristic b
  | _ => e
  end.

End SP2Division.

(** ** Paths of the orchestrator *)

Module MainFlowPaths.

Import MainFlow.

(** One failed round of the L0-L3 check followed by the task adjustment. *)
Definition failedRound (o : L0L3CheckOutput) : list Taken :=
  [(sp1Check, DoneSp1 o); (taskAdjustment, ADJUSTMENT_DONE)].

(** The gate is passed, then come the failed rounds of [outs]. *)
Definition throughGate (outs : list L0L3CheckOutput) : list Taken :=
  (brightLinesCheck, BRIGHT_LINES_PASS) :: flat_map failedRound outs.

Definition allFailed (outs : list L0L3CheckOutput) : Prop :=
  Forall (fun o => allPassed o = false) outs.

(** The log ends with a pass of the gate and failed rounds only. *)
Definition atSp1 (log : list Taken) : Prop :=
  exists pre outs, allFailed outs /\ log = pre ++ throughGate outs.

(** ... then a check that all levels passed. *)
Definition pastSp1 (log : list Taken) : Prop :=
  exists l o1,
    atSp1 l /\ allPassed o1 = true /\ log = l ++ [(sp1Check, DoneSp1 o1)].

(** ... then a division of work with result [d]. *)
Definition pastSp2 (d : DivisionResult) (log : list Taken) : Prop :=
  exists l o2,
    pastSp1 l /\ division o2 = d /\ log = l ++ [(sp2Division, DoneSp2 o2)].

(** ... then the execution: by the human, or by the AI followed by the
    human review. *)
Definition pastExecution (log : list Taken) : Prop :=
  (exists l x,
      pastSp2 humanLed l /\ log = l ++ [(humanExecution, EXECUTE_HUMAN x)])
  \/ (exists l x b,
         pastSp2 aiLed l
         /\ log = (l ++ [(aiExecution, EXECUTE_AI x)])
                    ++ [(humanReview, HUMAN_REVIEW_DONE b)]).

(** ... then a verification whose output satisfies [ok]. *)
Definition pastSp3 (ok : SP3.Output -> Prop) (log : list Taken) : Prop :=
  exists l o3,
    pastExecution l /\ ok o3 /\ log = l ++ [(sp3Verification, DoneSp3 o3)].

Definition passedOutput (o : SP3.Output) : Prop := SP3.passed o = true.

Definition abandonedOutput (o : SP3.Output) : Prop :=
  SP3.passed o = false /\ SP3.principleViolation o = false.

(** ... then the recovery flow. *)
Definition pastRecovery (log : list Taken) : Prop :=
  exists l o, pastSp3 abandonedOutput l /\ log = l ++ [(recoveryFlow, DoneRf o)].

(** What the log of taken transitions looks like in each state. *)
Definition pathShape (cfg : State * Context) (log : list Taken) : Prop :=
  match fst cfg with
  | brightLinesCheck | brightLinesFix => True
  | sp1Check => atSp1 log
  | taskAdjustment =>
      exists l o,
        atSp1 l /\ allPassed o = false /\ log = l ++ [(sp1Check, DoneSp1 o)]
  | sp2Division => pastSp1 log
  | humanExecution => pastSp2 humanLed log
  | aiExecution => pastSp2 aiLed log
  | humanReview =>
      exists l x, pastSp2 aiLed l /\ log = l ++ [(aiExecution, EXECUTE_AI x)]
  | sp3Verification => pastExecution log
  | taskCompleted => pastSp3 passedOutput log
  | recoveryFlow => pastSp3 abandonedOutput log
  | recoveryExit => pastRecovery log
  end.

(** The number of task adjustments taken. *)
Definition isAdjustment (t : Taken) : bool :=
  match t with
  | (taskAdjustment, ADJUSTMENT_DONE) => true
  | _ => false
  end.

(** A verification that ended without a pass and with a principle
    violation was handed to [sp3Verification]. *)
Definition violationTaken (log : list Taken) : Prop :=
  exists o,
    In (sp3Verification, DoneSp3 o) log
    /\ SP3.passed o = false /\ SP3.principleViolation o = true.

(** The execution result on record and the transitions that produced it:
    the human's execution, or the AI's execution followed at once by the
    human review whose verdict is the one on record. *)
Definition executedRecord (r : option ExecutionResult) (log : list Taken) : Prop :=
  (exists l x,
      log = l ++ [(humanExecution, EXECUTE_HUMAN x)]
      /\ r = Some (mkExecutionResult x false true))
  \/ (exists l x b,
         log = (l ++ [(aiExecution, EXECUTE_AI x)])
                 ++ [(humanReview, HUMAN_REVIEW_DONE b)]
         /\ r = Some (mkExecutionResult x true b)).

(** What the execution result on record is in each state from the
    execution on. *)
Definition recordShape (cfg : State * Context) (log : list Taken) : Prop :=
  match fst cfg with
  | humanReview =>
      exists l x,
        log = l ++ [(aiExecution, EXECUTE_AI x)]
        /\ executionResult (snd cfg) = Some (mkExecutionResult x true false)
  | sp3Verification => executedRecord (executionResult (snd cfg)) log
  | taskCompleted | recoveryFlow =>
      exists l o,
        log = l ++ [(sp3Verification, DoneSp3 o)]
        /\ executedRecord (executionResult (snd cfg)) l
  | recoveryExit =>
      exists l o rf,
        log = (l ++ [(sp3Verification, DoneSp3 o)]) ++ [(recoveryFlow, DoneRf rf)]
        /\ executedRecord (executionResult (snd cfg)) l
  | _ => True
  end.

(** The event with the verdict of a human review replaced by [b]. *)
Definition withVerdict (b : bool) (e : Event) : Event :=
  match e with
  | HUMAN_REVIEW_DONE _ => HUMAN_REVIEW_DONE b
  | _ => e
  end.

(** Two execution results that differ at most in [humanReviewed]. *)
Definition sameButReviewed (a b : option ExecutionResult) : Prop :=
  match a, b with
  | Some x, Some y => erOutput x = erOutput y /\ isAiGenerated x = isAiGenerated y
  | None, None => True
  | _, _ => False
  end.

(** Two configurations that differ at most in the verdict on record. *)
Definition sameButVerdict (a b : State * Context) : Prop :=
  fst a = fst b
  /\ taskDescription (snd a) = taskDescription (snd b)
  /\ brightLinesResult (snd a) = brightLinesResult (snd b)
  /\ sp1Result (snd a) = sp1Result (snd b)
  /\ adjustmentCount (snd a) = adjustmentCount (snd b)
  /\ sp2Result (snd a) = sp2Result (snd b)
  /\ sameButReviewed (executionResult (snd a)) (executionResult (snd b))
  /\ sp3Result (snd a) = sp3Result (snd b)
  /\ lastError (snd a) = lastError (snd b)
  /\ errorHistory (snd a) = errorHistory (snd b)
  /\ recoveryResult (snd a) = recoveryResult (snd b)
  /\ hasPrincipleViolation (snd a) = hasPrincipleViolation (snd b).

End MainFlowPaths.

(** ** Paths and contexts of the verification loop *)

Module VerificationLoopPaths.

Import VerificationLoop.

Definition endsWith (suffix log : list State) : Prop :=
  exists pre, log = pre ++ suffix.

(** The four checks of the loss-cut judgment, in the order in which they
    are entered. *)
Definition checks : list State :=
  [lossCutJudgment LossCut.check3Times;
   lossCutJudgment LossCut.check30Min;
   lossCutJudgment LossCut.checkComplexity;
   lossCutJudgment LossCut.checkRecurrence].

(** A judgment from the recording of the error state up to and including
    the [k]-th check. *)
Definition judgment (k : nat) : list State :=
  lossCutJudgment LossCut.recordErrorState :: firstn k checks.

(** A judgment that cut at the [k]-th check. *)
Definition cutAt (k : nat) (log : list State) : Prop :=
  (1 <= k <= 4)%nat
  /\ endsWith (judgment k ++ [lossCutJudgment LossCut.lossCutConfirmed]) log.

(** What the log of entered states looks like, and what the judgment has
    decided, in each state. *)
Definition pathShape (cfg : Config) (log : list State) : Prop :=
  match state cfg with
  | typecheck => endsWith [typecheck] log
  | lint => endsWith [typecheck; lint] log
  | test => endsWith [typecheck; lint; test] log
  | verificationPassed => endsWith [typecheck; lint; test; verificationPassed] log
  | lossCutJudgment LossCut.recordErrorState => endsWith (judgment 0) log
  | lossCutJudgment LossCut.check3Times => endsWith (judgment 1) log
  | lossCutJudgment LossCut.check30Min => endsWith (judgment 2) log
  | lossCutJudgment LossCut.checkComplexity => endsWith (judgment 3) log
  | lossCutJudgment LossCut.checkRecurrence => endsWith (judgment 4) log
  | lossCutJudgment LossCut.continueFix =>
      endsWith (judgment 4 ++ [lossCutJudgment LossCut.continueFix]) log
      /\ lossCutDecision (base (context cfg)) = Some continue
  | lossCutJudgment LossCut.lossCutConfirmed =>
      (exists k, cutAt k log)
      /\ lossCutDecision (base (context cfg)) = Some cut
  | issueFix =>
      endsWith (judgment 4 ++ [lossCutJudgment LossCut.continueFix; issueFix]) log
  | verificationFailed =>
      (exists k l, cutAt k l /\ log = l ++ [verificationFailed])
      /\ lossCutDecision (base (context cfg)) = Some cut
  end.

(** The error of the latest record of a history. *)
Definition latestError (records : list ErrorRecord) : option ErrorInfo :=
  last (map error records) None.

(** The bound on the number of recorded failures in each state, and the
    decision on record. *)
Definition stateShape (cfg : Config) : Prop :=
  let b := base (context cfg) in
  match state cfg with
  | typecheck | lint | test | verificationPassed =>
      errorCount b <= 2 /\ lossCutDecision b = None
  | lossCutJudgment LossCut.recordErrorState
  | lossCutJudgment LossCut.check3Times => errorCount b <= 3
  | lossCutJudgment LossCut.check30Min
  | lossCutJudgment LossCut.checkComplexity
  | lossCutJudgment LossCut.checkRecurrence => errorCount b <= 2
  | lossCutJudgment LossCut.continueFix | issueFix =>
      errorCount b <= 2 /\ lossCutDecision b = Some continue
  | lossCutJudgment LossCut.lossCutConfirmed | verificationFailed =>
      errorCount b <= 3 /\ lossCutDecision b = Some cut
  end.

(** What the loss-cut fields hold in a loop defined at [definedAt]. *)
Definition contextShape (definedAt : Z) (cfg : Config) : Prop :=
  let b := base (context cfg) in
  startedAt b = definedAt
  /\ errorCount b = Z.of_nat (List.length (errorHistory b))
  /\ lastError b = latestError (errorHistory b)
  /\ stateShape cfg.

(** Where the loop can be once the delayed transition has fired. *)
Definition afterDeadline (s : State) : bool :=
  match s with
  | lossCutJudgment LossCut.recordErrorState
  | lossCutJudgment LossCut.check3Times
  | lossCutJudgment LossCut.check30Min
  | lossCutJudgment LossCut.lossCutConfirmed
  | verificationFailed => true
  | _ => false
  end.

(** The context of a check stage is what the two principle checks left,
    run after the stage's own action. *)
Definition monitorsRan (exec : Action -> Context -> Context) (cfg : Config) : Prop :=
  match state cfg with
  | typecheck =>
      exists ctx0,
        context cfg
        = exec checkAIPrinciples
            (exec checkCollaborationPrinciples (exec runTypecheck ctx0))
  | lint =>
      exists ctx0,
        context cfg
        = exec checkAIPrinciples
            (exec checkCollaborationPrinciples (exec runLint ctx0))
  | test =>
      exists ctx0,
        context cfg
        = exec checkAIPrinciples
            (exec checkCollaborationPrinciples (exec runTest ctx0))
  | _ => True
  end.

(** The states in which the loop waits for an event or has stopped: no
    eventless transition leaves them. *)
Definition resting (s : State) : bool :=
  match s with
  | lossCutJudgment LossCut.recordErrorState => true
  | lossCutJudgment _ => false
  | _ => true
  end.

End VerificationLoopPaths.

(** ** Paths of the recovery flow *)

Module RecoveryFlowPaths.

Import RecoveryFlow.

(** The state [s] was entered. *)
Definition entered (s : State) (log : list Obs) : Prop :=
  exists ctx, In (Enter s ctx) log.

(** The log starts with the three steps of the analysis, in order, and the
    escalation check. *)
Definition analysisEntries (log : list Obs) : Prop :=
  exists c0 c1 c2 c3 rest,
    log = Enter (problemAnalysis verbalizeProblem) c0
          :: Enter (problemAnalysis analyzeCause) c1
          :: Enter (problemAnalysis identifyEssence) c2
          :: Enter escalationCheck c3 :: rest.

Definition analysisShape (c : State * Context) (log : list Obs) : Prop :=
  match fst c with
  | problemAnalysis verbalizeProblem =>
      exists c0, log = [Enter (problemAnalysis verbalizeProblem) c0]
  | problemAnalysis analyzeCause =>
      exists c0 c1,
        log = [Enter (problemAnalysis verbalizeProblem) c0;
               Enter (problemAnalysis analyzeCause) c1]
  | problemAnalysis identifyEssence =>
      exists c0 c1 c2,
        log = [Enter (problemAnalysis verbalizeProblem) c0;
               Enter (problemAnalysis analyzeCause) c1;
               Enter (problemAnalysis identifyEssence) c2]
  | _ => analysisEntries log
  end.

(** An event that does not report an analysis without an immediate
    escalation condition. *)
Definition urgent (e : Event) : Prop :=
  match e with
  | ESSENCE_IDENTIFIED a => checkImmediateEscalationNeeded (Some a) = true
  | _ => True
  end.

(** The states of the approaches A, B and C. *)
Definition isChosenApproach (s : State) : bool :=
  match s with
  | directResolution _ | redecompose | resetContext => true
  | _ => false
  end.

Definition approachEntered (log : list Obs) : Prop :=
  exists s ctx, isChosenApproach s = true /\ In (Enter s ctx) log.

(** The states from the team consultation on. *)
Definition isConsulted (s : State) : bool :=
  match s with
  | consultTeam => true
  | _ => isClosing s
  end.

(** Runs whose analyses all raise an immediate escalation condition. *)
Definition urgentShape (c : State * Context) (log : list Obs) : Prop :=
  ~ entered approachSelection log
  /\ ~ approachEntered log
  /\ match fst c with
     | problemAnalysis _ => True
     | escalationCheck
     | escalationJudgment checkImmediate =>
         checkImmediateEscalationNeeded (analysisResult (snd c)) = true
     | escalationJudgment executeImmediate => True
     | escalationJudgment escalationConfirmed =>
         escalationResult (snd c) = Some escalate
     | consultTeam | recordToClaudeMd | documentWorkaround | teamShareDecision
     | shareWithTeam | recoveryComplete => entered consultTeam log
     | _ => False
     end.

(** Runs in which no approach is ever assigned. *)
Definition unassignedShape (c : State * Context) (log : list Obs) : Prop :=
  selectedApproach (snd c) = None
  /\ ~ approachEntered log
  /\ isChosenApproach (fst c) = false
  /\ (isConsulted (fst c) = true -> entered consultTeam log).

End RecoveryFlowPaths.

(** ** Delayed transitions ([delay-example.ts]) *)

Module DelayExample.

Definition THIRTY_MINUTES_MS : Z := 30 * 60 * 1000.

Inductive State : Type := fixing | fixed | lossCut.

Inductive Event : Type := CHECK_PASS | CHECK_FAIL.

(** What reaches the actor: an event, or the passing of [ms] milliseconds. *)
Inductive Input : Type :=
| Deliver (e : Event)
| Elapse (ms : N).

(** A configuration: the active state, the context field [errorCount]
    ([delayBasicMachine] has no context and leaves the field alone), the
    clock, and the due time of the delayed transition [after] of [fixing]
    while it is pending. *)
Record Config : Type := mkConfig {
  state : State;
  errorCount : Z;
  clock : Z;
  deadline : option Z
}.

Definition isFinal (s : State) : bool :=
  match s with
  | fixing => false
  | _ => true
  end.

(** [fixing] is left for [s]: its delayed transition is cancelled. *)
Definition leave (s : State) (count : Z) (cfg : Config) : Config :=
  mkConfig s count (clock cfg) None.

(** [on] of [delayBasicMachine]. *)
Definition basicOn (cfg : Config) (e : Event) : option Config :=
  match state cfg, e with
  | fixing, CHECK_PASS => Some (leave fixed (errorCount cfg) cfg)
  | _, _ => None
  end.

(** [on] of [delayCombinedMachine].  The second transition of [CHECK_FAIL]
    has no target: [fixing] is not left and its delayed transition stays
    armed. *)
Definition combinedOn (cfg : Config) (e : Event) : option Config :=
  match state cfg, e with
  | fixing, CHECK_PASS => Some (leave fixed (errorCount cfg) cfg)
  | fixing, CHECK_FAIL =>
      if 2 <=? errorCount cfg
      then Some (leave lossCut (errorCount cfg + 1) cfg)
      else Some (mkConfig fixing (errorCount cfg + 1) (clock cfg) (deadline cfg))
  | _, _ => None
  end.

Definition elapse (ms : N) (cfg : Config) : Config :=
  mkConfig (state cfg) (errorCount cfg) (clock cfg + Z.of_N ms) (deadline cfg).

Definition due (cfg : Config) : bool :=
  match deadline cfg with
  | Some t => t <=? clock cfg
  | None => false
  end.

Section Machine.

Variable on : Config -> Event -> option Config.

Definition step (cfg : Config) (i : Input) : Config :=
  if isFinal (state cfg) then cfg
  else
    match i with
    | Deliver e =>
        match on cfg e with
        | Some cfg' => cfg'
        | None => cfg
        end
    | Elapse ms =>
        if due (elapse ms cfg)
        then leave lossCut (errorCount cfg) (elapse ms cfg)
        else elapse ms cfg
    end.

Definition run (cfg : Config) (inputs : list Input) : Config :=
  fold_left step inputs cfg.

End Machine.

(** The actor is started at time [now]: [fixing] is entered, which arms
    its delayed transition. *)
Definition start (now : Z) : Config :=
  mkConfig fixing 0 now (Some (now + THIRTY_MINUTES_MS)).

Definition execute (on : Config -> Event -> option Config) (now : Z)
  (inputs : list Input) : Config :=
  run on (start now) inputs.

(** What a configuration of a run started at [now] looks like. *)
Definition runShape (now : Z) (cfg : Config) : Prop :=
  match state cfg with
  | fixing =>
      0 <= errorCount cfg <= 2
      /\ deadline cfg = Some (now + THIRTY_MINUTES_MS)
      /\ clock cfg < now + THIRTY_MINUTES_MS
  | fixed => 0 <= errorCount cfg <= 2 /\ clock cfg < now + THIRTY_MINUTES_MS
  | lossCut =>
      (errorCount cfg = 3 /\ clock cfg < now + THIRTY_MINUTES_MS)
      \/ (0 <= errorCount cfg <= 2 /\ now + THIRTY_MINUTES_MS <= clock cfg)
  end.

End DelayExample.

(** ** More sample inputs *)

Module Sample2.

Definition levelOk : LevelResult := mkLevelResult true [].

Definition fourLevelsPass : list L0L3Check.Event :=
  [L0L3Check.L0_EVALUATION_COMPLETE levelOk;
   L0L3Check.L1_EVALUATION_COMPLETE levelOk;
   L0L3Check.L2_EVALUATION_COMPLETE levelOk;
   L0L3Check.L3_EVALUATION_COMPLETE levelOk].

Definition aiLedRun : list SP2Division.Event :=
  [SP2Division.TASK_ANALYZED initialDraft true;
   SP2Division.DECIDE_DIVISION aiLed;
   SP2Division.SELECT_PROMPT chainOfThought].

(** The context of the orchestrator after the L0-L3 check passed, and
    after the AI-led division that follows. *)
Definition afterSp1 : MainFlow.Context :=
  MainFlow.setSp1Result (Some (mkSp1Result allPass None 4))
    (MainFlow.createMainFlowContext EmptyString).

Definition afterSp2 : MainFlow.Context :=
  MainFlow.setSp2Result
    (Some (mkSP2Output aiLed (Some chainOfThought) initialDraft)) afterSp1.

(** An output of the verification loop after a loss cut. *)
Definition abandoned : SP3.Output :=
  SP3.mkOutput false true (Some (mkErrorInfo StepTest "E"%string 1))
    [mkErrorRecord (Some (mkErrorInfo StepTest "E"%string 1)) EmptyString unchanged]
    false.

(** The human-led path of the orchestrator into the recovery flow and out
    of it. *)
Definition recoveryPath : list MainFlow.Event :=
  Sample.humanPath abandoned ++ [MainFlow.DoneRf (mkRecoveryFlowOutput true)].

(** The verification loop as written, defined and started at time 0, at
    the end of three passed checks. *)
Definition passedConfig : VerificationLoop.Config :=
  Eval vm_compute in
    match VerificationLoop.execute VerificationLoop.noActions 5 0 0 Sample.threePasses with
    | Settled c _ => c
    | _ => fst (VerificationLoop.start VerificationLoop.noActions 0 0)
    end.

Definition passedLog : list VerificationLoop.State :=
  [VerificationLoop.typecheck; VerificationLoop.lint; VerificationLoop.test;
   VerificationLoop.verificationPassed].

(** The loop whose agent-behavior-principle check records a violation,
    after one failed type check that the judgment lets continue: it rests
    in [issueFix]. *)
Definition fixPending : VerificationLoop.Config :=
  Eval vm_compute in
    match VerificationLoop.execute Sample.agentCheckFails 5 0 0
            Sample.failThenAcknowledge with
    | Settled c _ => c
    | _ => fst (VerificationLoop.start VerificationLoop.noActions 0 0)
    end.

Definition fixPendingLog : list VerificationLoop.State :=
  [VerificationLoop.typecheck;
   VerificationLoop.lossCutJudgment LossCut.recordErrorState;
   VerificationLoop.lossCutJudgment LossCut.check3Times;
   VerificationLoop.lossCutJudgment LossCut.check30Min;
   VerificationLoop.lossCutJudgment LossCut.checkComplexity;
   VerificationLoop.lossCutJudgment LossCut.checkRecurrence;
   VerificationLoop.lossCutJudgment LossCut.continueFix;
   VerificationLoop.issueFix].

(** The loop as written after thirty minutes without an event. *)
Definition thirtyMinutes : list VerificationLoop.Input :=
  [VerificationLoop.Elapse 1800000].

Definition timedOutConfig : VerificationLoop.Config :=
  Eval vm_compute in
    match VerificationLoop.execute VerificationLoop.noActions 5 0 0 thirtyMinutes with
    | Settled c _ => c
    | _ => fst (VerificationLoop.start VerificationLoop.noActions 0 0)
    end.

Definition timedOutLog : list VerificationLoop.State :=
  [VerificationLoop.typecheck;
   VerificationLoop.lossCutJudgment LossCut.recordErrorState].

(** A run of the recovery flow on an analysis with a security issue. *)
Definition urgentRun : list RecoveryFlow.Event :=
  Sample.analysed (Sample.analysis true false 0)
    ++ [RecoveryFlow.ESCALATION_DECIDED; RecoveryFlow.TEAM_CONSULTED]
    ++ Sample.closing.

(** Two failures, then half an hour without an event. *)
Definition twoFailuresThenWait : list DelayExample.Input :=
  [DelayExample.Deliver DelayExample.CHECK_FAIL;
   DelayExample.Elapse 1000;
   DelayExample.Deliver DelayExample.CHECK_FAIL;
   DelayExample.Elapse 1799000].

End Sample2.

(** * Properties *)

(** ** Loss-cut judgment *)

Section LossCutFacts.

Import LossCut.

Lemma CheckStep_eqb_eq (a b : CheckStep) : CheckStep_eqb a b = true <-> a = b.
Proof. destruct a, b; simpl; split; congruence. Qed.

Lemma ComplexityDelta_eqb_eq (a b : ComplexityDelta) :
  ComplexityDelta_eqb a b = true <-> a = b.
Proof. destruct a, b; simpl; split; congruence. Qed.

Lemma sameError_true current record :
  sameError current record = Some true <-> samePair current record.
Proof.
  unfold sameError, samePair. destruct (error record) as [e|].
  - split.
    + intros H. injection H as H. apply andb_true_iff in H as [Hm Hs].
      apply String.eqb_eq in Hm. apply CheckStep_eqb_eq in Hs. eauto.
    + intros (e' & He & Hm & Hs). injection He as <-.
      apply String.eqb_eq in Hm. apply CheckStep_eqb_eq in Hs.
      now rewrite Hm, Hs.
  - split; [discriminate | intros (e & He & _); discriminate].
Qed.

Lemma some_throwing_typed current records :
  recordsTyped records ->
  exists b, some_throwing (sameError current) records = Some b
            /\ (b = true <-> Exists (samePair current) records).
Proof.
  induction 1 as [|r rest Hr _ IH]; simpl.
  - exists false. split; [reflexivity|]. split; [discriminate|].
    intros H; inversion H.
  - destruct (sameError current r) as [[|]|] eqn:E.
    + exists true. split; [reflexivity|]. split; [|reflexivity].
      intros _. left. now apply sameError_true.
    + destruct IH as (b & -> & Hb). exists b. split; [reflexivity|].
      rewrite Hb. split; [now right|].
      intros H; inversion H as [? ? Hs|]; subst; [|assumption].
      apply sameError_true in Hs. congruence.
    + unfold sameError in E. destruct (error r); [discriminate | congruence].
Qed.

Lemma latest_of_snoc (earlier : list ErrorRecord) latest :
  nth_error (earlier ++ [latest]) (List.length (earlier ++ [latest]) - 1) = Some latest.
Proof.
  rewrite length_app. simpl.
  replace (List.length earlier + 1 - 1)%nat with (List.length earlier) by lia.
  rewrite nth_error_app2 by lia. now rewrite Nat.sub_diag.
Qed.

(** The eventless chain, unfolded: with four units of fuel the judgment
    settles, unless LC-GW4 throws. *)
Lemma lc_run_unfold now n ctx :
  run now (4 + n) ctx =
  if checkErrorCount3OrMore ctx then
    Settled (lossCutConfirmed, setDecision cut ctx)
      [Enter recordErrorState; Enter check3Times;
       Eval isErrorCount3OrMore; Enter lossCutConfirmed]
  else if checkOver30Min now ctx then
    Settled (lossCutConfirmed, setDecision cut ctx)
      [Enter recordErrorState; Enter check3Times;
       Eval isErrorCount3OrMore; Enter check30Min;
       Eval isOver30Min; Enter lossCutConfirmed]
  else if checkGrowingComplexity ctx then
    Settled (lossCutConfirmed, setDecision cut ctx)
      [Enter recordErrorState; Enter check3Times;
       Eval isErrorCount3OrMore; Enter check30Min;
       Eval isOver30Min; Enter checkComplexity;
       Eval isGrowingComplexity; Enter lossCutConfirmed]
  else
    match checkRecurringError ctx with
    | None => Crashed
    | Some true =>
        Settled (lossCutConfirmed, setDecision cut ctx)
          [Enter recordErrorState; Enter check3Times;
           Eval isErrorCount3OrMore; Enter check30Min;
           Eval isOver30Min; Enter checkComplexity;
           Eval isGrowingComplexity; Enter checkRecurrence;
           Eval isRecurringError; Enter lossCutConfirmed]
    | Some false =>
        Settled (continueFix, setDecision continue ctx)
          [Enter recordErrorState; Enter check3Times;
           Eval isErrorCount3OrMore; Enter check30Min;
           Eval isOver30Min; Enter checkComplexity;
           Eval isGrowingComplexity; Enter checkRecurrence;
           Eval isRecurringError; Enter continueFix]
    end.
Proof.
  unfold run, send, start, on. cbn [settle always Nat.add].
  destruct (checkErrorCount3OrMore ctx); [reflexivity|].
  cbn [settle always].
  destruct (checkOver30Min now ctx); [reflexivity|].
  cbn [settle always].
  destruct (checkGrowingComplexity ctx); [reflexivity|].
  cbn [settle always].
  destruct (checkRecurringError ctx) as [[|]|]; destruct n; reflexivity.
Qed.

Lemma lc_judge_unfold now n ctx :
  judge now (4 + n) ctx =
  if checkErrorCount3OrMore ctx then Some cut
  else if checkOver30Min now ctx then Some cut
  else if checkGrowingComplexity ctx then Some cut
  else match checkRecurringError ctx with
       | None => None
       | Some true => Some cut
       | Some false => Some continue
       end.
Proof.
  unfold judge. rewrite lc_run_unfold.
  destruct (checkErrorCount3OrMore ctx); [reflexivity|].
  destruct (checkOver30Min now ctx); [reflexivity|].
  destruct (checkGrowingComplexity ctx); [reflexivity|].
  destruct (checkRecurringError ctx) as [[|]|]; reflexivity.
Qed.

Lemma fuel_split (k fuel : nat) : (k <= fuel)%nat -> exists n, fuel = (k + n)%nat.
Proof. intros H. exists (fuel - k)%nat. lia. Qed.

End LossCutFacts.

(** ** Claims on the loss-cut judgment *)

(** C2.  For every loss-cut state whose current failure has already been
    appended to the history ([lastError] is the error of the last record,
    and the records before it carry their errors), the judgment returns
    [cut] if and only if at least one of the four conditions holds
    -- (1) [errorCount >= 3], (2) [now - startedAt >= 1800000] (30 minutes),
    (3) the most recent record has [complexityDelta = increased], (4) the
    pair (step, message) of the current failure is that of an earlier
    record, the just-appended one excluded -- and returns [continue] if none
    of them holds. *)
Theorem C2_cut_iff_one_of_four_conditions
  (now : Z) (fuel : nat) (ctx : LossCutContext)
  (current : ErrorInfo) (earlier : list ErrorRecord) (latest : ErrorRecord) :
  (4 <= fuel)%nat ->
  lastError ctx = Some current ->
  errorHistory ctx = earlier ++ [latest] ->
  error latest = Some current ->
  LossCut.recordsTyped earlier ->
  let conditions :=
    3 <= errorCount ctx
    \/ 1800000 <= now - startedAt ctx
    \/ complexityDelta latest = increased
    \/ Exists (LossCut.samePair current) earlier in
  (LossCut.judge now fuel ctx = Some cut <-> conditions)
  /\ (LossCut.judge now fuel ctx = Some continue <-> ~ conditions).
Proof.
  intros Hfuel Hlast Hhist Hlatest Htyped conditions.
  destruct (fuel_split 4 fuel Hfuel) as [n ->].
  rewrite lc_judge_unfold.
  unfold LossCut.checkErrorCount3OrMore, LossCut.checkOver30Min,
    LossCut.checkGrowingComplexity, LossCut.checkRecurringError.
  rewrite Hlast, Hhist, latest_of_snoc, removelast_last.
  destruct (some_throwing_typed current earlier Htyped) as (b & -> & Hb).
  subst conditions.
  destruct (Z.leb_spec 3 (errorCount ctx)) as [H1|H1].
  { split; split; try tauto; try discriminate. }
  destruct (Z.leb_spec 1800000 (now - startedAt ctx)) as [H2|H2].
  { split; split; try tauto; try discriminate. }
  destruct (ComplexityDelta_eqb (complexityDelta latest) increased) eqn:H3.
  { apply ComplexityDelta_eqb_eq in H3.
    split; split; try tauto; try discriminate. }
  assert (H3' : complexityDelta latest <> increased).
  { intros E. apply ComplexityDelta_eqb_eq in E. congruence. }
  destruct b.
  - assert (H4 : Exists (LossCut.samePair current) earlier) by now apply Hb.
    split; split; try tauto; try discriminate.
  - assert (H4 : ~ Exists (LossCut.samePair current) earlier).
    { intros E. apply Hb in E. discriminate. }
    assert (Hno : ~ (3 <= errorCount ctx
                     \/ 1800000 <= now - startedAt ctx
                     \/ complexityDelta latest = increased
                     \/ Exists (LossCut.samePair current) earlier)).
    { intros [?|[?|[?|?]]]; [lia | lia | tauto | tauto]. }
    split; split; intros; try discriminate; try reflexivity; tauto.
Qed.

Lemma C2_witness :
  (4 <= 4)%nat
  /\ lastError Sample.recurringContext = Some Sample.lintError
  /\ errorHistory Sample.recurringContext = [Sample.pastRecord] ++ [Sample.latestRecord]
  /\ error Sample.latestRecord = Some Sample.lintError
  /\ LossCut.recordsTyped [Sample.pastRecord]
  /\ LossCut.judge 100 4 Sample.recurringContext = Some cut.
Proof.
  assert (Hfuel : (4 <= 4)%nat) by lia.
  assert (Htyped : LossCut.recordsTyped [Sample.pastRecord]).
  { constructor; [discriminate | constructor]. }
  refine (conj Hfuel (conj eq_refl (conj eq_refl (conj eq_refl (conj Htyped _))))).
  apply (proj1 (C2_cut_iff_one_of_four_conditions 100 4 Sample.recurringContext
                  Sample.lintError [Sample.pastRecord] Sample.latestRecord
                  Hfuel eq_refl eq_refl eq_refl Htyped)).
  right; right; right. constructor.
  exists (mkErrorInfo StepLint "E1"%string 3). repeat split.
Defined.

(** C3.  For every loss-cut state with [errorCount >= 3] the judgment
    decides [cut] by the first condition alone: from [check3Times] the
    machine goes to [lossCutConfirmed] at once; the states [check30Min],
    [checkComplexity] and [checkRecurrence] are not entered and the guards
    of conditions 2 to 4 are not evaluated, whatever the other fields hold. *)
Theorem C3_count_rule_decides_alone (now : Z) (fuel : nat) (ctx : LossCutContext) :
  (1 <= fuel)%nat ->
  3 <= errorCount ctx ->
  exists log,
    LossCut.run now fuel ctx
      = Settled (LossCut.lossCutConfirmed, LossCut.setDecision cut ctx) log
    /\ log = [LossCut.Enter LossCut.recordErrorState;
              LossCut.Enter LossCut.check3Times;
              LossCut.Eval LossCut.isErrorCount3OrMore;
              LossCut.Enter LossCut.lossCutConfirmed]
    /\ LossCut.judge now fuel ctx = Some cut
    /\ ~ In (LossCut.Enter LossCut.check30Min) log
    /\ ~ In (LossCut.Enter LossCut.checkComplexity) log
    /\ ~ In (LossCut.Enter LossCut.checkRecurrence) log
    /\ ~ In (LossCut.Eval LossCut.isOver30Min) log
    /\ ~ In (LossCut.Eval LossCut.isGrowingComplexity) log
    /\ ~ In (LossCut.Eval LossCut.isRecurringError) log.
Proof.
  intros Hfuel Hcount.
  destruct (fuel_split 1 fuel Hfuel) as [n ->].
  assert (Hrun : LossCut.run now (1 + n) ctx
                 = Settled (LossCut.lossCutConfirmed, LossCut.setDecision cut ctx)
                     [LossCut.Enter LossCut.recordErrorState;
                      LossCut.Enter LossCut.check3Times;
                      LossCut.Eval LossCut.isErrorCount3OrMore;
                      LossCut.Enter LossCut.lossCutConfirmed]).
  { unfold LossCut.run, LossCut.send, LossCut.start, LossCut.on.
    cbn [settle LossCut.always Nat.add].
    unfold LossCut.checkErrorCount3OrMore.
    destruct (Z.leb_spec 3 (errorCount ctx)); [|lia].
    destruct n; reflexivity. }
  eexists. split; [exact Hrun|]. split; [reflexivity|].
  split; [unfold LossCut.judge; now rewrite Hrun|].
  repeat split; intros H; simpl in H; intuition discriminate.
Qed.

Lemma C3_witness :
  (1 <= 1)%nat
  /\ 3 <= errorCount Sample.countedContext
  /\ LossCut.judge 1800000 1 Sample.countedContext = Some cut.
Proof.
  assert (Hfuel : (1 <= 1)%nat) by lia.
  assert (Hcount : 3 <= errorCount Sample.countedContext) by (simpl; lia).
  refine (conj Hfuel (conj Hcount _)).
  destruct (C3_count_rule_decides_alone 1800000 1 Sample.countedContext Hfuel Hcount)
    as (log & _ & _ & Hjudge & _).
  exact Hjudge.
Defined.

Lemma recordsTyped_removelast (records : list ErrorRecord) :
  LossCut.recordsTyped records -> LossCut.recordsTyped (removelast records).
Proof.
  induction 1 as [|r rest Hr Hrest IH]; simpl; [constructor|].
  destruct rest; [constructor|]. constructor; assumption.
Qed.

(** C9, as the code has it.  The judgment is a total, deterministic function
    of the loss-cut state together with the clock reading [Date.now()]: for
    every state whose records carry their errors and every clock reading it
    ends with exactly one of the two decisions, and two calls on states with
    the same count, start time, last error and history, made at the same
    clock reading, give the same decision. *)
Theorem C9_total_and_deterministic_at_a_clock_reading
  (now : Z) (fuel : nat) (a b : LossCutContext) :
  (4 <= fuel)%nat ->
  LossCut.recordsTyped (errorHistory a) ->
  LossCut.sameInput a b ->
  exists d,
    LossCut.judge now fuel a = Some d
    /\ LossCut.judge now fuel b = Some d
    /\ (d = continue \/ d = cut).
Proof.
  intros Hfuel Htyped (Hc & Hs & Hl & Hh).
  destruct (fuel_split 4 fuel Hfuel) as [n ->].
  rewrite !lc_judge_unfold.
  unfold LossCut.checkErrorCount3OrMore, LossCut.checkOver30Min,
    LossCut.checkGrowingComplexity, LossCut.checkRecurringError.
  rewrite <- Hc, <- Hs, <- Hl, <- Hh.
  destruct (3 <=? errorCount a); [exists cut; auto|].
  destruct (1800000 <=? now - startedAt a); [exists cut; auto|].
  destruct (nth_error (errorHistory a) (List.length (errorHistory a) - 1)) as [r|].
  - destruct (ComplexityDelta_eqb (complexityDelta r) increased); [exists cut; auto|].
    destruct (lastError a) as [current|]; [|exists continue; auto].
    destruct (some_throwing_typed current _ (recordsTyped_removelast _ Htyped))
      as (v & -> & _).
    destruct v; [exists cut | exists continue]; auto.
  - destruct (lastError a) as [current|]; [|exists continue; auto].
    destruct (some_throwing_typed current _ (recordsTyped_removelast _ Htyped))
      as (v & -> & _).
    destruct v; [exists cut | exists continue]; auto.
Qed.

Lemma C9_witness :
  (4 <= 4)%nat
  /\ LossCut.recordsTyped (errorHistory Sample.freshContext)
  /\ LossCut.sameInput Sample.freshContext Sample.decidedContext
  /\ exists d,
       LossCut.judge 5 4 Sample.freshContext = Some d
       /\ LossCut.judge 5 4 Sample.decidedContext = Some d
       /\ (d = continue \/ d = cut).
Proof.
  assert (Hfuel : (4 <= 4)%nat) by lia.
  assert (Htyped : LossCut.recordsTyped (errorHistory Sample.freshContext))
    by constructor.
  assert (Hsame : LossCut.sameInput Sample.freshContext Sample.decidedContext)
    by (repeat split).
  refine (conj Hfuel (conj Htyped (conj Hsame _))).
  exact (C9_total_and_deterministic_at_a_clock_reading 5 4
           Sample.freshContext Sample.decidedContext Hfuel Htyped Hsame).
Defined.

(** C9, as stated, fails: one loss-cut state, judged at two clock readings,
    gives [continue] at the first and [cut] at the second. *)
Lemma C9_counterexample :
  LossCut.judge 0 4 Sample.freshContext = Some continue
  /\ LossCut.judge 1800000 4 Sample.freshContext = Some cut
  /\ LossCut.judge 0 4 Sample.freshContext
     <> LossCut.judge 1800000 4 Sample.freshContext.
Proof.
  repeat split; try reflexivity. vm_compute. discriminate.
Qed.

(** ** Verification loop *)

Section VerificationLoopFacts.

Import VerificationLoop.

Variable exec : Action -> Context -> Context.

Lemma vl_on_timer cfg e cfg' obs :
  on exec cfg e = Some (cfg', obs) ->
  clock cfg' = clock cfg /\ deadline cfg' = deadline cfg.
Proof.
  unfold on, enter.
  destruct (state cfg) as [| | |[]| | |], e as [r|r|r| |];
    try discriminate; try destruct (Bool.eqb (crPassed r) true);
    intros H; injection H as <- _; auto.
Qed.

Lemma vl_always_timer cfg cfg' obs :
  always exec cfg = Fired cfg' obs ->
  clock cfg' = clock cfg /\ deadline cfg' = deadline cfg.
Proof.
  unfold always, enter.
  destruct (state cfg) as [| | |[]| | |]; try discriminate;
    repeat match goal with
      | |- context [if ?b then _ else _] => destruct b
      | |- context [match ?x with _ => _ end] => destruct x
      end;
    try discriminate; intros H; injection H as <- _; auto.
Qed.

Lemma vl_settle_Reach definedAt startedNow fuel :
  forall cfg log cfg' log',
    Reach exec definedAt startedNow cfg ->
    settle (always exec) fuel cfg log = Settled cfg' log' ->
    Reach exec definedAt startedNow cfg'.
Proof.
  induction fuel as [|fuel IH]; intros cfg log cfg' log' HR; simpl;
    destruct (always exec cfg) as [c obs| |] eqn:E; try discriminate.
  - intros H; injection H as <- _; assumption.
  - intros H. eapply IH; [|exact H]. eapply Reach_always; eassumption.
  - intros H; injection H as <- _; assumption.
Qed.

Lemma vl_step_Reach definedAt startedNow fuel cfg log i cfg' log' :
  Reach exec definedAt startedNow cfg ->
  step exec fuel cfg log i = Settled cfg' log' ->
  Reach exec definedAt startedNow cfg'.
Proof.
  intros HR. unfold step.
  destruct (isFinal (state cfg)) eqn:Hfin.
  { intros H; injection H as <- _; assumption. }
  destruct i as [e|ms].
  - destruct (on exec cfg e) as [[c obs]|] eqn:E.
    + apply vl_settle_Reach. eapply Reach_on; eassumption.
    + intros H; injection H as <- _; assumption.
  - destruct (due (elapse ms cfg)) eqn:Hdue.
    + destruct (fire exec (elapse ms cfg)) as [c obs] eqn:Hfire.
      apply vl_settle_Reach.
      replace c with (fst (fire exec (elapse ms cfg))) by now rewrite Hfire.
      now apply Reach_fire.
    + intros H; injection H as <- _. now apply Reach_elapse.
Qed.

Lemma vl_run_Reach definedAt startedNow fuel inputs :
  forall cfg log cfg' log',
    Reach exec definedAt startedNow cfg ->
    run exec fuel cfg log inputs = Settled cfg' log' ->
    Reach exec definedAt startedNow cfg'.
Proof.
  induction inputs as [|i rest IH]; intros cfg log cfg' log' HR; simpl.
  - intros H; injection H as <- _; assumption.
  - destruct (step exec fuel cfg log i) as [c l| |] eqn:E; try discriminate.
    apply IH. eapply vl_step_Reach; eassumption.
Qed.

(** A settled run ends in a reachable configuration. *)
Lemma vl_execute_Reach definedAt startedNow fuel inputs cfg log :
  execute exec fuel definedAt startedNow inputs = Settled cfg log ->
  Reach exec definedAt startedNow cfg.
Proof.
  unfold execute.
  destruct (start exec definedAt startedNow) as [c l] eqn:E.
  apply vl_run_Reach.
  replace c with (fst (start exec definedAt startedNow)) by now rewrite E.
  constructor.
Qed.

(** The delayed transition is armed once, for [startedNow + 1800000]; it is
    pending as long as that time has not come and gone afterwards. *)
Lemma vl_deadline_invariant definedAt startedNow cfg :
  Reach exec definedAt startedNow cfg ->
  deadline cfg = Some (startedNow + 1800000)
  \/ (deadline cfg = None /\ startedNow + 1800000 <= clock cfg).
Proof.
  induction 1 as [|cfg e cfg' obs _ IH Hon|cfg cfg' obs _ IH Hal
                  |cfg ms _ IH Hfin Hdue|cfg ms _ IH Hfin Hdue].
  - left. reflexivity.
  - apply vl_on_timer in Hon as [-> ->]. exact IH.
  - apply vl_always_timer in Hal as [-> ->]. exact IH.
  - unfold elapse; simpl. destruct IH as [IH|[IH Hc]]; [now left|].
    right. split; [assumption|]. lia.
  - right. unfold fire, enter, elapse, due in *; simpl in *.
    split; [reflexivity|].
    destruct IH as [IH|[IH _]]; rewrite IH in Hdue; [|discriminate].
    apply Z.leb_le in Hdue. exact Hdue.
Qed.

End VerificationLoopFacts.

(** C5.  The verification loop has one wall-clock deadline, armed when the
    loop is entered at [startedNow] and never re-armed: in whatever check
    stage ([typecheck], [lint] or [test]) a run rests before the deadline,
    re-entries after a fix included, the pending due time is still
    [startedNow + 1800000]; when the clock reaches exactly that time the
    loop is forced into the loss-cut judgment, and when it reaches one
    millisecond less nothing happens. *)
Theorem C5_deadline_forces_judgment_from_any_stage
  (exec : VerificationLoop.Action -> VerificationLoop.Context -> VerificationLoop.Context)
  (fuel : nat) (definedAt startedNow : Z) (inputs : list VerificationLoop.Input)
  (cfg : VerificationLoop.Config) (log : list VerificationLoop.State) :
  VerificationLoop.execute exec fuel definedAt startedNow inputs = Settled cfg log ->
  VerificationLoop.isCheckStage (VerificationLoop.state cfg) = true ->
  VerificationLoop.clock cfg < startedNow + 1800000 ->
  VerificationLoop.deadline cfg = Some (startedNow + 1800000)
  /\ (forall ms : N,
        VerificationLoop.clock cfg + Z.of_N ms = startedNow + 1800000 ->
        exists cfg',
          VerificationLoop.step exec fuel cfg log (VerificationLoop.Elapse ms)
            = Settled cfg'
                (log ++ [VerificationLoop.lossCutJudgment LossCut.recordErrorState])
          /\ VerificationLoop.state cfg'
             = VerificationLoop.lossCutJudgment LossCut.recordErrorState
          /\ VerificationLoop.deadline cfg' = None)
  /\ (forall ms : N,
        VerificationLoop.clock cfg + Z.of_N ms = startedNow + 1800000 - 1 ->
        exists cfg',
          VerificationLoop.step exec fuel cfg log (VerificationLoop.Elapse ms)
            = Settled cfg' log
          /\ VerificationLoop.state cfg' = VerificationLoop.state cfg
          /\ VerificationLoop.deadline cfg' = Some (startedNow + 1800000)).
Proof.
  intros Hrun Hstage Hclock.
  apply vl_execute_Reach in Hrun.
  assert (Hdl : VerificationLoop.deadline cfg = Some (startedNow + 1800000)).
  { destruct (vl_deadline_invariant _ _ _ _ Hrun) as [H|[_ H]]; [exact H | lia]. }
  assert (Hfin : VerificationLoop.isFinal (VerificationLoop.state cfg) = false).
  { destruct (VerificationLoop.state cfg); simpl in *; congruence. }
  split; [exact Hdl|]. split; intros ms Hms.
  - unfold VerificationLoop.step. rewrite Hfin.
    unfold VerificationLoop.due, VerificationLoop.elapse; simpl.
    rewrite Hdl, Hms, Z.leb_refl.
    eexists. split; [destruct fuel; reflexivity|]. split; reflexivity.
  - unfold VerificationLoop.step. rewrite Hfin.
    unfold VerificationLoop.due, VerificationLoop.elapse; simpl.
    rewrite Hdl, Hms.
    destruct (Z.leb_spec (startedNow + 1800000) (startedNow + 1800000 - 1)); [lia|].
    eexists. split; [reflexivity|]. split; reflexivity.
Qed.

Lemma C5_witness :
  VerificationLoop.execute VerificationLoop.noActions 5 0 0 Sample.passThenWait
    = Settled Sample.lintAfterOneSecond [VerificationLoop.typecheck; VerificationLoop.lint]
  /\ VerificationLoop.isCheckStage (VerificationLoop.state Sample.lintAfterOneSecond) = true
  /\ VerificationLoop.clock Sample.lintAfterOneSecond < 0 + 1800000
  /\ exists cfg',
       VerificationLoop.step VerificationLoop.noActions 5 Sample.lintAfterOneSecond
         [VerificationLoop.typecheck; VerificationLoop.lint]
         (VerificationLoop.Elapse 1799000)
       = Settled cfg'
           ([VerificationLoop.typecheck; VerificationLoop.lint]
              ++ [VerificationLoop.lossCutJudgment LossCut.recordErrorState])
       /\ VerificationLoop.state cfg'
          = VerificationLoop.lossCutJudgment LossCut.recordErrorState.
Proof.
  assert (Hrun : VerificationLoop.execute VerificationLoop.noActions 5 0 0
                   Sample.passThenWait
                 = Settled Sample.lintAfterOneSecond
                     [VerificationLoop.typecheck; VerificationLoop.lint])
    by reflexivity.
  assert (Hstage : VerificationLoop.isCheckStage
                     (VerificationLoop.state Sample.lintAfterOneSecond) = true)
    by reflexivity.
  assert (Hclock : VerificationLoop.clock Sample.lintAfterOneSecond < 0 + 1800000)
    by (simpl; lia).
  refine (conj Hrun (conj Hstage (conj Hclock _))).
  destruct (C5_deadline_forces_judgment_from_any_stage _ _ _ _ _ _ _ Hrun Hstage Hclock)
    as (_ & Hfire & _).
  destruct (Hfire 1799000%N eq_refl) as (cfg' & Hstep & Hstate & _).
  exists cfg'. split; assumption.
Defined.

Section HistoryFacts.

Import VerificationLoop.

Variable exec : Action -> Context -> Context.

(** The injected actions leave the error history alone. *)
Hypothesis exec_keeps_history :
  forall a ctx, errorHistory (base (exec a ctx)) = errorHistory (base ctx).

Lemma vl_entry_history s ctx :
  errorHistory (base (entry exec s ctx)) = errorHistory (base ctx).
Proof.
  unfold entry. destruct s as [| | |[]| | |];
    rewrite ?exec_keeps_history; reflexivity.
Qed.

Lemma allUnchanged_snoc records r :
  allUnchanged records -> complexityDelta r = unchanged -> allUnchanged (records ++ [r]).
Proof.
  intros H Hr. apply Forall_app. split; [exact H|]. constructor; [exact Hr|constructor].
Qed.

Lemma vl_on_history cfg e cfg' obs :
  on exec cfg e = Some (cfg', obs) ->
  allUnchanged (errorHistory (base (context cfg))) ->
  allUnchanged (errorHistory (base (context cfg'))).
Proof.
  unfold on, enter.
  destruct (state cfg) as [| | |[]| | |], e as [r|r|r| |];
    try discriminate; try destruct (Bool.eqb (crPassed r) true);
    intros H; injection H as <- _; cbn [context];
    rewrite ?vl_entry_history, ?exec_keeps_history; cbn; auto using allUnchanged_snoc.
Qed.

Lemma vl_always_history cfg cfg' obs :
  always exec cfg = Fired cfg' obs ->
  errorHistory (base (context cfg')) = errorHistory (base (context cfg)).
Proof.
  unfold always, enter.
  destruct (state cfg) as [| | |[]| | |]; try discriminate;
    repeat match goal with
      | |- context [if ?b then _ else _] => destruct b
      | |- context [match ?x with _ => _ end] => destruct x
      end;
    try discriminate; intros H; injection H as <- _; cbn [context];
    rewrite ?vl_entry_history, ?exec_keeps_history; reflexivity.
Qed.

Lemma vl_history_invariant definedAt startedNow cfg :
  Reach exec definedAt startedNow cfg ->
  allUnchanged (errorHistory (base (context cfg))).
Proof.
  induction 1 as [|cfg e cfg' obs _ IH Hon|cfg cfg' obs _ IH Hal
                  |cfg ms _ IH Hfin Hdue|cfg ms _ IH Hfin Hdue].
  - unfold start, enter; cbn [fst context]. rewrite vl_entry_history.
    constructor.
  - eapply vl_on_history; eassumption.
  - now rewrite (vl_always_history _ _ _ Hal).
  - exact IH.
  - unfold fire, enter, elapse; cbn [fst context]. now rewrite vl_entry_history.
Qed.

Lemma allUnchanged_not_growing (b : LossCutContext) :
  allUnchanged (errorHistory b) -> LossCut.checkGrowingComplexity b = false.
Proof.
  unfold LossCut.checkGrowingComplexity. intros H.
  destruct (nth_error (errorHistory b) (List.length (errorHistory b) - 1)) as [r|] eqn:E;
    [|reflexivity].
  apply nth_error_In in E. unfold allUnchanged in H. rewrite Forall_forall in H.
  now rewrite (H r E).
Qed.

End HistoryFacts.

(** C10.  Every record that the verification loop appends on a check
    failure has [complexityDelta = unchanged]; hence, in every
    configuration met by the loop as written (transient ones included), all
    records of the history are [unchanged], the guard
    [checkGrowingComplexity] (loss-cut condition 3) is false, and the state
    [checkComplexity] is always left for [checkRecurrence]: condition 3
    never decides a judgment. *)
Theorem C10_complexity_rule_never_decides
  (definedAt startedNow : Z) (cfg : VerificationLoop.Config) :
  VerificationLoop.Reach VerificationLoop.noActions definedAt startedNow cfg ->
  (forall result ctx,
      errorHistory (VerificationLoop.base (VerificationLoop.recordFailure result ctx))
      = errorHistory (VerificationLoop.base ctx)
          ++ [mkErrorRecord (crError result) EmptyString unchanged])
  /\ VerificationLoop.allUnchanged
       (errorHistory (VerificationLoop.base (VerificationLoop.context cfg)))
  /\ LossCut.checkGrowingComplexity
       (VerificationLoop.base (VerificationLoop.context cfg)) = false
  /\ (VerificationLoop.state cfg = VerificationLoop.lossCutJudgment LossCut.checkComplexity ->
      exists cfg',
        VerificationLoop.always VerificationLoop.noActions cfg
          = Fired cfg' [VerificationLoop.lossCutJudgment LossCut.checkRecurrence]
        /\ VerificationLoop.state cfg'
           = VerificationLoop.lossCutJudgment LossCut.checkRecurrence).
Proof.
  intros HR.
  assert (Hall : VerificationLoop.allUnchanged
                   (errorHistory (VerificationLoop.base (VerificationLoop.context cfg)))).
  { apply (vl_history_invariant VerificationLoop.noActions) with definedAt startedNow;
      [reflexivity | exact HR]. }
  assert (Hguard := allUnchanged_not_growing _ Hall).
  split; [reflexivity|]. split; [exact Hall|]. split; [exact Hguard|].
  intros Hstate. unfold VerificationLoop.always. rewrite Hstate, Hguard.
  eexists. split; reflexivity.
Qed.

Lemma C10_witness :
  VerificationLoop.Reach VerificationLoop.noActions 0 0 Sample.afterOneFailure
  /\ LossCut.checkGrowingComplexity
       (VerificationLoop.base (VerificationLoop.context Sample.afterOneFailure)) = false.
Proof.
  assert (HR : VerificationLoop.Reach VerificationLoop.noActions 0 0 Sample.afterOneFailure).
  { apply (vl_execute_Reach VerificationLoop.noActions 0 0 5 Sample.failThenAcknowledge
             Sample.afterOneFailure
             [VerificationLoop.typecheck;
              VerificationLoop.lossCutJudgment LossCut.recordErrorState;
              VerificationLoop.lossCutJudgment LossCut.check3Times;
              VerificationLoop.lossCutJudgment LossCut.check30Min;
              VerificationLoop.lossCutJudgment LossCut.checkComplexity;
              VerificationLoop.lossCutJudgment LossCut.checkRecurrence;
              VerificationLoop.lossCutJudgment LossCut.continueFix;
              VerificationLoop.issueFix]).
    reflexivity. }
  refine (conj HR _).
  exact (proj1 (proj2 (proj2 (C10_complexity_rule_never_decides 0 0 _ HR)))).
Defined.

Section MonitorFacts.

Import VerificationLoop VerificationLoopPaths.

Variable exec : Action -> Context -> Context.

Lemma vl_on_monitors cfg e cfg' obs :
  on exec cfg e = Some (cfg', obs) -> monitorsRan exec cfg'.
Proof.
  unfold on, enter, monitorsRan.
  destruct (state cfg) as [| | |[]| | |], e as [r|r|r| |];
    try discriminate; try destruct (Bool.eqb (crPassed r) true);
    intros H; injection H as <- _; cbn [state context entry];
    first [exact I | eexists; reflexivity].
Qed.

Lemma vl_always_monitors cfg cfg' obs :
  always exec cfg = Fired cfg' obs -> monitorsRan exec cfg'.
Proof.
  unfold always, enter.
  destruct (state cfg) as [| | |[]| | |]; try discriminate;
    repeat match goal with
      | |- context [if ?b then _ else _] => destruct b
      | |- context [match ?x with _ => _ end] => destruct x
      end;
    try discriminate; intros H; injection H as <- _; exact I.
Qed.

(** In every configuration met by the loop in which a check stage is
    active, the two principle checks have run on entering it. *)
Lemma vl_monitors_invariant definedAt startedNow cfg :
  Reach exec definedAt startedNow cfg -> monitorsRan exec cfg.
Proof.
  induction 1 as [|cfg e cfg' obs _ IH Hon|cfg cfg' obs _ IH Hal
                  |cfg ms _ IH Hfin Hdue|cfg ms _ IH Hfin Hdue].
  - unfold start, enter, monitorsRan; cbn [fst state context entry].
    eexists. reflexivity.
  - eapply vl_on_monitors; eassumption.
  - eapply vl_always_monitors; eassumption.
  - exact IH.
  - exact I.
Qed.

(** A fix re-enters [typecheck] through its entry actions. *)
Lemma vl_fix_reenters fuel cfg log :
  state cfg = issueFix ->
  step exec fuel cfg log (Deliver FIX_ISSUED)
  = Settled
      (mkConfig typecheck
         (exec checkAIPrinciples
            (exec checkCollaborationPrinciples
               (exec runTypecheck (resetForRetry (context cfg)))))
         (clock cfg) (deadline cfg))
      (log ++ [typecheck]).
Proof.
  intros Hs. unfold step, on. rewrite Hs. cbn [isFinal enter entry].
  destruct fuel; reflexivity.
Qed.

End MonitorFacts.

(** C6, as the code has it.  The output field [principleViolation] is true
    if and only if the result of the agent-behavior-principle check held in
    the context when the run ends is a failure; it does not depend on the
    result of the collaboration-principle check, nor on whether the run
    ended passed or abandoned.  Both checks run on every entry of a check
    stage, in that order, after the stage's own action: whatever the
    injected actions and the inputs, whenever a settled run rests in
    [typecheck], [lint] or [test] -- the first entry of [typecheck], the
    entries of [lint] and [test] after a pass, a re-entry of [typecheck]
    after a fix -- its context is what the agent check left, run after the
    collaboration check, run after the stage's action; the same holds in
    every configuration met by the loop; and from [issueFix] the event
    [FIX_ISSUED] re-enters [typecheck] through these three actions, applied
    to the context reset for the retry. *)
Theorem C6_principleViolation_is_the_agent_check
  (exec : VerificationLoop.Action -> VerificationLoop.Context -> VerificationLoop.Context)
  (fuel : nat) (definedAt startedNow : Z) (inputs : list VerificationLoop.Input)
  (cfg : VerificationLoop.Config) (log : list VerificationLoop.State) :
  VerificationLoop.execute exec fuel definedAt startedNow inputs = Settled cfg log ->
  (forall ctx,
      SP3.principleViolation (VerificationLoop.output ctx) = true
      <-> VerificationLoop.latched (VerificationLoop.aiPrincipleCheckResult ctx))
  /\ (forall ctx b s collaboration,
        SP3.principleViolation
          (VerificationLoop.output
             (VerificationLoop.mkContext b s collaboration
                (VerificationLoop.aiPrincipleCheckResult ctx)))
        = SP3.principleViolation (VerificationLoop.output ctx))
  /\ VerificationLoopPaths.monitorsRan exec cfg
  /\ (forall met,
        VerificationLoop.Reach exec definedAt startedNow met ->
        VerificationLoopPaths.monitorsRan exec met)
  /\ (VerificationLoop.state cfg = VerificationLoop.issueFix ->
      VerificationLoop.step exec fuel cfg log
        (VerificationLoop.Deliver VerificationLoop.FIX_ISSUED)
      = Settled
          (VerificationLoop.mkConfig VerificationLoop.typecheck
             (exec VerificationLoop.checkAIPrinciples
                (exec VerificationLoop.checkCollaborationPrinciples
                   (exec VerificationLoop.runTypecheck
                      (VerificationLoop.resetForRetry (VerificationLoop.context cfg)))))
             (VerificationLoop.clock cfg) (VerificationLoop.deadline cfg))
          (log ++ [VerificationLoop.typecheck])).
Proof.
  intros Hrun. split; [|split; [|split; [|split]]].
  - intros ctx. unfold VerificationLoop.output, VerificationLoop.latched; simpl.
    destruct (VerificationLoop.aiPrincipleCheckResult ctx) as [r|].
    + split.
      * intros H. exists r. split; [reflexivity|]. now destruct (pcPassed r).
      * intros (r' & Hr & Hp). injection Hr as <-. now rewrite Hp.
    + split; [discriminate|]. intros (r & Hr & _). discriminate Hr.
  - reflexivity.
  - apply vl_execute_Reach in Hrun. eapply vl_monitors_invariant. exact Hrun.
  - intros met. apply vl_monitors_invariant.
  - apply vl_fix_reenters.
Qed.

Lemma C6_witness :
  VerificationLoop.execute Sample.agentCheckFails 5 0 0 Sample.failThenAcknowledge
  = Settled Sample2.fixPending Sample2.fixPendingLog
  /\ VerificationLoop.state Sample2.fixPending = VerificationLoop.issueFix
  /\ VerificationLoop.step Sample.agentCheckFails 5 Sample2.fixPending
       Sample2.fixPendingLog (VerificationLoop.Deliver VerificationLoop.FIX_ISSUED)
     = Settled
         (VerificationLoop.mkConfig VerificationLoop.typecheck
            (Sample.agentCheckFails VerificationLoop.checkAIPrinciples
               (Sample.agentCheckFails VerificationLoop.checkCollaborationPrinciples
                  (Sample.agentCheckFails VerificationLoop.runTypecheck
                     (VerificationLoop.resetForRetry
                        (VerificationLoop.context Sample2.fixPending)))))
            (VerificationLoop.clock Sample2.fixPending)
            (VerificationLoop.deadline Sample2.fixPending))
         (Sample2.fixPendingLog ++ [VerificationLoop.typecheck]).
Proof.
  assert (Hrun : VerificationLoop.execute Sample.agentCheckFails 5 0 0
                   Sample.failThenAcknowledge
                 = Settled Sample2.fixPending Sample2.fixPendingLog) by reflexivity.
  assert (Hs : VerificationLoop.state Sample2.fixPending = VerificationLoop.issueFix)
    by reflexivity.
  refine (conj Hrun (conj Hs _)).
  exact (proj2 (proj2 (proj2 (proj2 (C6_principleViolation_is_the_agent_check
                                       _ _ _ _ _ _ _ Hrun)))) Hs).
Defined.

(** C6, as stated, fails: in a run whose three checks pass, with a
    collaboration-principle check that records a violation on every stage
    entry, the loop ends in [verificationPassed] with that violation on
    record, and [principleViolation] is false. *)
Lemma C6_counterexample :
  exists cfg log,
    VerificationLoop.execute Sample.collaborationFails 5 0 0 Sample.threePasses
      = Settled cfg log
    /\ VerificationLoop.state cfg = VerificationLoop.verificationPassed
    /\ VerificationLoop.collaborationCheckResult (VerificationLoop.context cfg)
       = Some (mkPrincipleCheckResult false ["C1"%string])
    /\ SP3.principleViolation (VerificationLoop.output (VerificationLoop.context cfg))
       = false
    /\ ~ (SP3.principleViolation (VerificationLoop.output (VerificationLoop.context cfg)) = true
          <-> (VerificationLoop.latched
                 (VerificationLoop.collaborationCheckResult (VerificationLoop.context cfg))
               \/ VerificationLoop.latched
                    (VerificationLoop.aiPrincipleCheckResult (VerificationLoop.context cfg)))).
Proof.
  eexists. eexists. split; [reflexivity|]. split; [reflexivity|].
  split; [reflexivity|]. split; [reflexivity|].
  intros [_ H]. cbn in H.
  assert (Hpv : false = true); [|discriminate].
  apply H. left. eexists. split; reflexivity.
Qed.

(** With an agent-behavior-principle check that records a violation, a run
    whose three checks pass ends with an output that reports both the pass
    and the violation. *)
Lemma vl_pass_with_violation :
  exists cfg log,
    VerificationLoop.execute Sample.agentCheckFails 5 0 0 Sample.threePasses
      = Settled cfg log
    /\ VerificationLoop.state cfg = VerificationLoop.verificationPassed
    /\ VerificationLoop.output (VerificationLoop.context cfg)
       = Sample.passedWithViolation.
Proof.
  eexists. eexists. repeat split; reflexivity.
Qed.

(** ** Recovery flow and escalation judgment *)

Section EscalationFacts.

Import RecoveryFlow.

Variable exec : Act.Name -> Context -> Context.



End EscalationFacts.


Section RecoveryFlowFacts.

Import RecoveryFlow.

Variable exec : Act.Name -> Context -> Context.

Ltac early_step :=
  apply Forall_app; split;
  [assumption | repeat constructor; simpl; congruence].

Ltac closing_step :=
  repeat match goal with
    | H : exists _, _ |- _ => destruct H
    | H : _ /\ _ |- _ => destruct H
    end;
  subst; repeat eexists;
  [eassumption | try eassumption; rewrite <- app_assoc; reflexivity ..].

Lemma rf_on_shape c e c' obs log :
  logShape c log -> on exec c e = Some (c', obs) -> logShape c' (log ++ obs).
Proof.
  destruct c as [s ctx]. unfold on, enter.
  destruct s as [[]| |[]| |[]| | | | | | | |], e;
    try discriminate; intros HI H; injection H as <- <-;
    cbn [logShape] in *.
  all: try early_step.
  all: try (exists log; split; [assumption | reflexivity]).
  all: try closing_step.
  - destruct HI as (pre & c1 & c2 & c3 & Hpre & Hflag & ->).
    exists pre, c1, c2, c3. split; [assumption|]. right.
    split; [assumption|]. eexists. rewrite <- app_assoc. reflexivity.
Qed.

Lemma rf_always_shape c c' obs log :
  logShape c log -> always exec c = Fired c' obs -> logShape c' (log ++ obs).
Proof.
  destruct c as [s ctx]. unfold always, escalationAlways, take, enter.
  destruct s as [[]| |[]| |[]| | | | | | | |]; try discriminate;
    repeat match goal with
      | |- context [if ?b then _ else _] => destruct b eqn:?
      end;
    intros HI H; injection H as <- <-; cbn [logShape app] in *.
  all: try early_step.
  - destruct HI as (pre & c1 & c2 & Hpre & ->).
    exists pre, c1, c2, ctx. split; [assumption|].
    split; [assumption|]. rewrite <- app_assoc. reflexivity.
  - destruct HI as (pre & c1 & c2 & Hpre & ->).
    exists pre, c1, c2, ctx. split; [assumption|]. left.
    split; [assumption|]. rewrite <- app_assoc. reflexivity.
Qed.

Lemma rf_settle_shape fuel :
  forall c log c' log',
    logShape c log ->
    settle (always exec) fuel c log = Settled c' log' ->
    logShape c' log'.
Proof.
  induction fuel as [|fuel IH]; intros c log c' log' HI; simpl;
    destruct (always exec c) as [c1 obs| |] eqn:E; try discriminate.
  - intros H; injection H as <- <-; assumption.
  - apply IH. eapply rf_always_shape; eassumption.
  - intros H; injection H as <- <-; assumption.
Qed.

Lemma rf_step_shape fuel c log e c' log' :
  logShape c log -> step exec fuel c log e = Settled c' log' -> logShape c' log'.
Proof.
  intros HI. unfold step. destruct (on exec c e) as [[c1 obs]|] eqn:E.
  - apply rf_settle_shape. eapply rf_on_shape; eassumption.
  - intros H; injection H as <- <-; assumption.
Qed.

Lemma rf_run_shape fuel events :
  forall c log c' log',
    logShape c log -> run exec fuel c log events = Settled c' log' -> logShape c' log'.
Proof.
  induction events as [|e rest IH]; intros c log c' log' HI; simpl.
  - intros H; injection H as <- <-; assumption.
  - destruct (step exec fuel c log e) as [c1 l1| |] eqn:E; try discriminate.
    apply IH. eapply rf_step_shape; eassumption.
Qed.

Lemma rf_execute_shape fuel events c log :
  execute exec fuel events = Settled c log -> logShape c log.
Proof.
  unfold execute, start, enter. apply rf_run_shape.
  cbn [logShape]. repeat constructor.
Qed.

End RecoveryFlowFacts.

(** C8.  Every run of the recovery flow that ends in [recoveryComplete],
    whatever the injected actions and whichever approach (A, B, C or the
    escalation of D) it took, entered [recordToClaudeMd] before; the
    workaround documentation follows the recording at once and is not met
    before it; the team-sharing state is entered only when the share flag
    read by [teamShareDecision] is set; and the output is
    [{ recovered: true }]. *)
Theorem C8_recording_precedes_completion
  (exec : RecoveryFlow.Act.Name -> RecoveryFlow.Context -> RecoveryFlow.Context)
  (fuel : nat) (events : list RecoveryFlow.Event)
  (ctx : RecoveryFlow.Context) (log : list RecoveryFlow.Obs) :
  RecoveryFlow.execute exec fuel events
    = Settled (RecoveryFlow.recoveryComplete, ctx) log ->
  RecoveryFlow.completedLog log ctx
  /\ RecoveryFlow.output ctx = mkRecoveryFlowOutput true.
Proof.
  intros H. split; [|reflexivity].
  exact (rf_execute_shape exec fuel events _ _ H).
Qed.

Lemma C8_witness :
  exists ctx log,
    RecoveryFlow.execute (Sample.chooseAndShare (Some ApproachC)) 5
      (Sample.runC ++ [RecoveryFlow.TEAM_SHARED])
    = Settled (RecoveryFlow.recoveryComplete, ctx) log
    /\ RecoveryFlow.completedLog log ctx
    /\ RecoveryFlow.output ctx = mkRecoveryFlowOutput true.
Proof.
  eexists. eexists.
  assert (Hrun : RecoveryFlow.execute (Sample.chooseAndShare (Some ApproachC)) 5
                   (Sample.runC ++ [RecoveryFlow.TEAM_SHARED])
                 = Settled (RecoveryFlow.recoveryComplete, _) _) by reflexivity.
  refine (conj Hrun _).
  exact (C8_recording_precedes_completion _ _ _ _ _ Hrun).
Defined.

(** Each of the four approaches has a run that completes: A, B and C when
    [selectApproach] assigns them, D when it assigns nothing and the
    escalation judgment confirms the escalation. *)
Lemma rf_four_approaches_complete :
  (exists ctx log,
      RecoveryFlow.execute (Sample.choose (Some ApproachA)) 5 Sample.runA
      = Settled (RecoveryFlow.recoveryComplete, ctx) log)
  /\ (exists ctx log,
         RecoveryFlow.execute (Sample.choose (Some ApproachB)) 5 Sample.runB
         = Settled (RecoveryFlow.recoveryComplete, ctx) log)
  /\ (exists ctx log,
         RecoveryFlow.execute (Sample.choose (Some ApproachC)) 5 Sample.runC
         = Settled (RecoveryFlow.recoveryComplete, ctx) log)
  /\ (exists ctx log,
         RecoveryFlow.execute RecoveryFlow.noActions 5 Sample.runD
         = Settled (RecoveryFlow.recoveryComplete, ctx) log).
Proof.
  repeat split; eexists; eexists; reflexivity.
Qed.

(** With no approach assigned and an analysis that raises no flag, the flow
    goes round between approach selection and escalation judgment: no
    amount of fuel settles the macrostep. *)
Lemma rf_selection_loops (n : nat) :
  forall r l,
    RecoveryFlow.analysisResult r = Some (Sample.analysis false false 0) ->
    RecoveryFlow.selectedApproach r = None ->
    settle (RecoveryFlow.always RecoveryFlow.noActions) n
      (RecoveryFlow.approachSelection, r) l = Diverged.
Proof.
  induction n as [n IH] using (well_founded_induction Wf_nat.lt_wf).
  intros r l Ha Hs.
  assert (S1 : RecoveryFlow.always RecoveryFlow.noActions (RecoveryFlow.approachSelection, r)
               = Fired (RecoveryFlow.escalationJudgment RecoveryFlow.checkImmediate, r)
                   [RecoveryFlow.Eval RecoveryFlow.Guard.isApproachA false;
                    RecoveryFlow.Eval RecoveryFlow.Guard.isApproachB false;
                    RecoveryFlow.Eval RecoveryFlow.Guard.isApproachC false;
                    RecoveryFlow.Enter
                      (RecoveryFlow.escalationJudgment RecoveryFlow.checkImmediate) r]).
  { unfold RecoveryFlow.always, RecoveryFlow.isApproach. now rewrite Hs. }
  assert (S2 : RecoveryFlow.always RecoveryFlow.noActions
                 (RecoveryFlow.escalationJudgment RecoveryFlow.checkImmediate, r)
               = Fired (RecoveryFlow.escalationJudgment RecoveryFlow.check30Min, r)
                   [RecoveryFlow.Eval RecoveryFlow.Guard.isSecurityOrProductionOrDataLoss false;
                    RecoveryFlow.Enter
                      (RecoveryFlow.escalationJudgment RecoveryFlow.check30Min) r]).
  { unfold RecoveryFlow.always, RecoveryFlow.escalationAlways. now rewrite Ha. }
  assert (S3 : RecoveryFlow.always RecoveryFlow.noActions
                 (RecoveryFlow.escalationJudgment RecoveryFlow.check30Min, r)
               = Fired (RecoveryFlow.escalationJudgment RecoveryFlow.selfResolution,
                        RecoveryFlow.setEscalationResult self r)
                   [RecoveryFlow.Eval
                      RecoveryFlow.Guard.isRetreat3TimesOrUnknownOrOutOfScope false;
                    RecoveryFlow.Enter
                      (RecoveryFlow.escalationJudgment RecoveryFlow.selfResolution)
                      (RecoveryFlow.setEscalationResult self r)]).
  { unfold RecoveryFlow.always, RecoveryFlow.escalationAlways. now rewrite Ha. }
  assert (S4 : RecoveryFlow.always RecoveryFlow.noActions
                 (RecoveryFlow.escalationJudgment RecoveryFlow.selfResolution,
                  RecoveryFlow.setEscalationResult self r)
               = Fired (RecoveryFlow.approachSelection,
                        RecoveryFlow.setEscalationResult self r)
                   [RecoveryFlow.Eval RecoveryFlow.Guard.isEscalationConfirmed false;
                    RecoveryFlow.Enter RecoveryFlow.approachSelection
                      (RecoveryFlow.setEscalationResult self r)]).
  { reflexivity. }
  destruct n as [|n]; cbn [settle]; rewrite S1; [reflexivity|].
  destruct n as [|n]; cbn [settle]; rewrite S2; [reflexivity|].
  destruct n as [|n]; cbn [settle]; rewrite S3; [reflexivity|].
  destruct n as [|n]; cbn [settle]; rewrite S4; [reflexivity|].
  apply IH; [lia | exact Ha | exact Hs].
Qed.

Lemma rf_self_resolution_diverges (fuel : nat) :
  RecoveryFlow.execute RecoveryFlow.noActions fuel
    (Sample.analysed (Sample.analysis false false 0)) = Diverged.
Proof.
  unfold RecoveryFlow.execute, RecoveryFlow.start, RecoveryFlow.enter.
  cbn [RecoveryFlow.run Sample.analysed RecoveryFlow.step RecoveryFlow.on
         RecoveryFlow.entry RecoveryFlow.noActions RecoveryFlow.enter app].
  destruct fuel as [|n]; cbn; [reflexivity|].
  rewrite rf_selection_loops by reflexivity. reflexivity.
Qed.



(** ** Orchestrator *)

Section MainFlowFacts.

Import MainFlow.

Lemma reviewedIn_app log extra :
  reviewedIn log -> reviewedIn (log ++ extra).
Proof.
  intros (approved & H). exists approved. apply in_or_app. now left.
Qed.

Lemma mf_step_review cfg log e cfg' log' :
  reviewInvariant cfg log ->
  step cfg log e = (cfg', log') ->
  reviewInvariant cfg' log'.
Proof.
  destruct cfg as [s c]. unfold step, reviewInvariant.
  intros [Hin Hai].
  destruct (on (s, c) e) as [[s' c']|] eqn:E.
  2:{ intros H; injection H as <- <-. split; assumption. }
  intros H; injection H as <- <-. cbn [fst snd] in *.
  unfold on in E.
  destruct s, e; try discriminate;
    repeat match type of E with
      | context [if ?b then _ else _] => destruct b
      | context [match ?x with _ => _ end] => destruct x
      end;
    unfold sp3VerificationDone in E;
    repeat match type of E with
      | context [if ?b then _ else _] => destruct b
      end;
    injection E as <- <-; cbn in *;
    (split; [intros; try discriminate; try congruence|]);
    intros r Hr Hgen;
    try (injection Hr as <-; cbn in Hgen; try discriminate);
    try (left; reflexivity);
    try (right; destruct (Hai r Hr Hgen) as [Hs|Hs];
         [discriminate Hs | now apply reviewedIn_app]).
  all: right; exists approved; apply in_or_app; right; left; reflexivity.
Qed.

Lemma mf_run_review events :
  forall cfg log cfg' log',
    reviewInvariant cfg log ->
    run cfg log events = (cfg', log') ->
    reviewInvariant cfg' log'.
Proof.
  induction events as [|e rest IH]; intros cfg log cfg' log' HI; simpl.
  - intros H; injection H as <- <-; assumption.
  - destruct (step cfg log e) as [c1 l1] eqn:E.
    apply IH. eapply mf_step_review; eassumption.
Qed.

Lemma mf_execute_review events cfg log :
  execute events = (cfg, log) -> reviewInvariant cfg log.
Proof.
  unfold execute. apply mf_run_review.
  split; [discriminate|]. intros r Hr. discriminate Hr.
Qed.

(** The state [humanReview] is entered with an execution result in place. *)
Lemma humanReview_has_result events c log :
  execute events = ((humanReview, c), log) -> executionResult c <> None.
Proof.
  intros H. apply mf_execute_review in H. destruct H as [H _]. now apply H.
Qed.

End MainFlowFacts.

Section MainFlowRecordFacts.

Import MainFlow MainFlowPaths.

(** A property of configurations and logs that every step preserves holds
    along every run. *)
Lemma mf_run_invariant (P : State * Context -> list Taken -> Prop) :
  (forall cfg log e, P cfg log -> P (fst (step cfg log e)) (snd (step cfg log e))) ->
  forall events cfg log,
    P cfg log -> P (fst (run cfg log events)) (snd (run cfg log events)).
Proof.
  intros Hstep. induction events as [|e rest IH]; intros cfg log H; simpl; [exact H|].
  specialize (Hstep cfg log e H).
  destruct (step cfg log e) as [cfg' log']. now apply IH.
Qed.

Lemma mf_step_record cfg log e :
  recordShape cfg log -> recordShape (fst (step cfg log e)) (snd (step cfg log e)).
Proof.
  destruct cfg as [s c]. unfold step, on, sp3VerificationDone.
  destruct s, e as [| | |v| | |lvl| |t ch| |x|x|b| | | | |o|o|o|o];
    try (intros H; exact H); cbn;
    repeat match goal with
      | |- context [Bool.eqb ?b true] => destruct b eqn:?; cbn
      | |- context [match division ?o with _ => _ end] => destruct (division o) eqn:?
      end;
    cbn; try (intros _; exact I).
  - (* the human has executed *)
    intros _. left. exists log, x. split; reflexivity.
  - (* the AI has executed *)
    intros _. exists log, x. split; reflexivity.
  - (* the review *)
    intros (l & x & -> & Hr). right. exists l, x, b. split; [reflexivity|].
    unfold reviewed. rewrite Hr. reflexivity.
  - (* verification passed *)
    intros H. exists log, o. split; [reflexivity | exact H].
  - (* verification abandoned *)
    intros H. exists log, o. split; [reflexivity | exact H].
  - (* recovery done *)
    intros (l & o3 & -> & H). exists l, o3, o. split; [reflexivity | exact H].
Qed.

Lemma mf_execute_record events :
  recordShape (fst (execute events)) (snd (execute events)).
Proof.
  unfold execute. apply mf_run_invariant; [exact mf_step_record | exact I].
Qed.

End MainFlowRecordFacts.

(** C7.  In every run of the orchestrator that ends in [taskCompleted] with
    an AI-generated execution result, a [HUMAN_REVIEW_DONE] event was
    taken in the state [humanReview], where it assigns the verdict
    [humanReviewed]; more precisely, the result on record is the very
    output of the last [EXECUTE_AI], the human review of that output was
    the next transition taken, the verdict on record is the one that review
    delivered, and only the verification lies between the review and the
    completion: completion is not reached with a model-produced output that
    was never explicitly approved or rejected. *)
Theorem C7_ai_output_is_reviewed_before_completion
  (events : list MainFlow.Event) (c : MainFlow.Context)
  (log : list MainFlow.Taken) (r : ExecutionResult) :
  MainFlow.execute events = ((MainFlow.taskCompleted, c), log) ->
  MainFlow.executionResult c = Some r ->
  isAiGenerated r = true ->
  (exists approved,
      In (MainFlow.humanReview, MainFlow.HUMAN_REVIEW_DONE approved) log)
  /\ exists l x approved o,
       log = ((l ++ [(MainFlow.aiExecution, MainFlow.EXECUTE_AI x)])
                ++ [(MainFlow.humanReview, MainFlow.HUMAN_REVIEW_DONE approved)])
               ++ [(MainFlow.sp3Verification, MainFlow.DoneSp3 o)]
       /\ r = mkExecutionResult x true approved.
Proof.
  intros Hrun Hr Hgen.
  assert (Hlast : exists l x approved o,
             log = ((l ++ [(MainFlow.aiExecution, MainFlow.EXECUTE_AI x)])
                      ++ [(MainFlow.humanReview, MainFlow.HUMAN_REVIEW_DONE approved)])
                     ++ [(MainFlow.sp3Verification, MainFlow.DoneSp3 o)]
             /\ r = mkExecutionResult x true approved).
  { pose proof (mf_execute_record events) as H. rewrite Hrun in H.
    unfold MainFlowPaths.recordShape in H. cbn [fst snd] in H.
    destruct H as (l & o & -> & [(l' & x & -> & Hx)|(l' & x & b & -> & Hx)]);
      rewrite Hr in Hx; injection Hx as ->.
    - discriminate Hgen.
    - exists l', x, b, o. split; reflexivity. }
  split; [|exact Hlast].
  destruct Hlast as (l & x & approved & o & -> & _).
  exists approved. apply in_or_app. left. apply in_or_app. right. left. reflexivity.
Qed.

Lemma C7_witness :
  MainFlow.execute Sample.aiPath
    = ((MainFlow.taskCompleted, snd (fst Sample.aiPathEnd)), snd Sample.aiPathEnd)
  /\ MainFlow.executionResult (snd (fst Sample.aiPathEnd))
     = Some (mkExecutionResult "draft"%string true true)
  /\ isAiGenerated (mkExecutionResult "draft"%string true true) = true
  /\ (exists approved,
         In (MainFlow.humanReview, MainFlow.HUMAN_REVIEW_DONE approved)
            (snd Sample.aiPathEnd))
  /\ exists l x approved o,
       snd Sample.aiPathEnd
       = ((l ++ [(MainFlow.aiExecution, MainFlow.EXECUTE_AI x)])
            ++ [(MainFlow.humanReview, MainFlow.HUMAN_REVIEW_DONE approved)])
           ++ [(MainFlow.sp3Verification, MainFlow.DoneSp3 o)]
       /\ mkExecutionResult "draft"%string true true
          = mkExecutionResult x true approved.
Proof.
  assert (Hrun : MainFlow.execute Sample.aiPath
                 = ((MainFlow.taskCompleted, snd (fst Sample.aiPathEnd)),
                    snd Sample.aiPathEnd)) by reflexivity.
  assert (Hr : MainFlow.executionResult (snd (fst Sample.aiPathEnd))
               = Some (mkExecutionResult "draft"%string true true)) by reflexivity.
  assert (Hgen : isAiGenerated (mkExecutionResult "draft"%string true true) = true)
    by reflexivity.
  refine (conj Hrun (conj Hr (conj Hgen _))).
  exact (C7_ai_output_is_reviewed_before_completion _ _ _ _ Hrun Hr Hgen).
Defined.

(** The [onDone] of [sp3Verification], branch by branch: a pass goes to
    [taskCompleted] whatever [principleViolation] holds; without a pass, a
    principle violation goes back to [brightLinesCheck] and sets
    [hasPrincipleViolation]; without either, the flow goes to
    [recoveryFlow]. *)
Lemma mf_sp3_done_order (out : SP3.Output) (c : MainFlow.Context) :
  (SP3.passed out = true ->
   MainFlow.sp3VerificationDone out c
   = (MainFlow.taskCompleted, MainFlow.setSp3Result (Some out) c))
  /\ (SP3.passed out = false -> SP3.principleViolation out = true ->
      MainFlow.sp3VerificationDone out c
      = (MainFlow.brightLinesCheck,
         MainFlow.setHasPrincipleViolation true (MainFlow.setSp3Result (Some out) c)))
  /\ (SP3.passed out = false -> SP3.principleViolation out = false ->
      fst (MainFlow.sp3VerificationDone out c) = MainFlow.recoveryFlow).
Proof.
  unfold MainFlow.sp3VerificationDone.
  destruct (SP3.passed out), (SP3.principleViolation out);
    repeat split; intros; try discriminate; reflexivity.
Qed.

(** C1, the code at the failing input.  On the human-led path, a
    verification loop that reports [passed = true] together with
    [principleViolation = true] takes the orchestrator to [taskCompleted]:
    the pass branch of [sp3Verification] is tried first, the violation is
    not recorded in [hasPrincipleViolation] and the flow does not go back to
    [brightLinesCheck].  The violation branch is taken when [passed] is
    false. *)
Lemma C1_pass_branch_is_tried_before_violation :
  SP3.passed Sample.passedWithViolation = true
  /\ SP3.principleViolation Sample.passedWithViolation = true
  /\ fst (fst (MainFlow.execute (Sample.humanPath Sample.passedWithViolation)))
     = MainFlow.taskCompleted
  /\ MainFlow.hasPrincipleViolation
       (snd (fst (MainFlow.execute (Sample.humanPath Sample.passedWithViolation))))
     = false
  /\ MainFlow.completionType
       (MainFlow.output
          (snd (fst (MainFlow.execute (Sample.humanPath Sample.passedWithViolation)))))
     = completedTask
  /\ fst (fst (MainFlow.execute
                 (Sample.humanPath (SP3.mkOutput false true None [] true))))
     = MainFlow.brightLinesCheck.
Proof.
  repeat split; reflexivity.
Qed.

(** ** L0-L3 check *)

Section L0L3Facts.

Import L0L3Check.

Lemma l0l3_step_shape c e : levelsShape c -> levelsShape (step c e).
Proof.
  destruct c as [s ctx]. unfold step, on.
  destruct s, e as [r|r|r|r]; try (intros H; exact H);
    destruct (lrPassed r) eqn:Hr; cbn; unfold okAt, koAt;
    intros H; decompose [and] H; clear H;
    repeat match goal with
      | |- _ /\ _ => split
      end;
    eauto 10.
Qed.

Lemma l0l3_run_shape events :
  forall c, levelsShape c -> levelsShape (run c events).
Proof.
  unfold run. induction events as [|e rest IH]; intros c H; simpl; [exact H|].
  apply IH. now apply l0l3_step_shape.
Qed.

Lemma l0l3_execute_shape events : levelsShape (execute events).
Proof.
  apply l0l3_run_shape. cbn. auto.
Qed.

Lemma levelPassed_ok r : levelPassed r = true <-> okAt r.
Proof.
  unfold levelPassed, okAt. destruct r as [x|].
  - destruct (lrPassed x) eqn:E; simpl; split; intros H; try discriminate; eauto.
    destruct H as (y & Hy & Hp). injection Hy as <-. congruence.
  - split; [discriminate|]. intros (x & Hx & _). discriminate.
Qed.

Lemma koAt_not_passed r : koAt r -> levelPassed r = false.
Proof.
  intros (x & -> & Hx). simpl. now rewrite Hx.
Qed.

End L0L3Facts.

Lemma l0l3_allPassed_state (events : list L0L3Check.Event) :
  allPassed (L0L3Check.output (snd (L0L3Check.execute events))) = true
  <-> fst (L0L3Check.execute events) = L0L3Check.passed.
Proof.
  pose proof (l0l3_execute_shape events) as H.
  destruct (L0L3Check.execute events) as [s ctx]. cbn [fst snd].
  unfold L0L3Check.output; cbn [allPassed forallb].
  destruct s; cbn in H.
  all: try (destruct H as (H0 & H1 & H2 & H3);
            rewrite ?H0, ?H1, ?H2, ?H3;
            repeat match goal with
              | Hk : L0L3Check.okAt _ |- _ =>
                  apply levelPassed_ok in Hk; rewrite Hk
              end;
            cbn; rewrite ?andb_false_r; split; intros; try discriminate; reflexivity).
  destruct H as [H|[H|[H|H]]]; destruct H as (H0 & H1 & H2 & H3);
    repeat match goal with
      | Hk : L0L3Check.okAt _ |- _ => apply levelPassed_ok in Hk; rewrite Hk
      | Hk : L0L3Check.koAt _ |- _ => apply koAt_not_passed in Hk; rewrite Hk
      end;
    rewrite ?H1, ?H2, ?H3; cbn; rewrite ?andb_false_r;
    split; intros; discriminate.
Qed.

(** X1.  Whatever events the L0-L3 check receives, its output reports
    [allPassed = true] exactly when the machine is in its final state
    [passed]. *)
Theorem l0l3_allPassed_iff_passed (events : list L0L3Check.Event) :
  allPassed (L0L3Check.output (snd (L0L3Check.execute events))) = true
  <-> fst (L0L3Check.execute events) = L0L3Check.passed.
Proof. apply l0l3_allPassed_state. Qed.

(** X2.  Whatever events the L0-L3 check receives, the levels are recorded
    in order and nothing is recorded past a level that did not pass: in
    [lNCheck] exactly the levels before N are on record and all passed; in
    [passed] all four passed; in [failed] the levels before the failing one
    passed, the failing one is on record with [passed = false], and every
    level after it is still [null]. *)
Theorem l0l3_levels_in_order (events : list L0L3Check.Event) :
  L0L3Check.levelsShape (L0L3Check.execute events).
Proof. apply l0l3_execute_shape. Qed.

(** X3.  The orchestrator and the L0-L3 check agree: when the output of a
    finished L0-L3 check is handed to [sp1Check], the orchestrator goes on
    to [sp2Division] if the check ended in [passed], and to
    [taskAdjustment] if it ended in [failed]. *)
Theorem mf_sp1_follows_l0l3_verdict
  (events : list L0L3Check.Event) (c : MainFlow.Context) (s' : MainFlow.State)
  (c' : MainFlow.Context) :
  L0L3Check.isFinal (fst (L0L3Check.execute events)) = true ->
  MainFlow.on (MainFlow.sp1Check, c)
    (MainFlow.DoneSp1 (L0L3Check.output (snd (L0L3Check.execute events))))
  = Some (s', c') ->
  (fst (L0L3Check.execute events) = L0L3Check.passed /\ s' = MainFlow.sp2Division)
  \/ (fst (L0L3Check.execute events) = L0L3Check.failed /\ s' = MainFlow.taskAdjustment).
Proof.
  intros Hfin. pose proof (l0l3_allPassed_state events) as Hiff.
  unfold MainFlow.on.
  destruct (allPassed (L0L3Check.output (snd (L0L3Check.execute events)))) eqn:E;
    cbn; intros H; injection H as <- _.
  - left. split; [now apply Hiff | reflexivity].
  - right. split; [|reflexivity].
    destruct (fst (L0L3Check.execute events)); try discriminate; try reflexivity.
    assert (false = true) by now apply Hiff. discriminate.
Qed.

Lemma mf_sp1_follows_l0l3_verdict_witness :
  L0L3Check.isFinal (fst (L0L3Check.execute Sample2.fourLevelsPass)) = true
  /\ MainFlow.on (MainFlow.sp1Check, MainFlow.createMainFlowContext EmptyString)
       (MainFlow.DoneSp1
          (L0L3Check.output (snd (L0L3Check.execute Sample2.fourLevelsPass))))
     = Some (MainFlow.sp2Division, Sample2.afterSp1)
  /\ ((fst (L0L3Check.execute Sample2.fourLevelsPass) = L0L3Check.passed
       /\ MainFlow.sp2Division = MainFlow.sp2Division)
      \/ (fst (L0L3Check.execute Sample2.fourLevelsPass) = L0L3Check.failed
          /\ MainFlow.sp2Division = MainFlow.taskAdjustment)).
Proof.
  assert (H1 : L0L3Check.isFinal (fst (L0L3Check.execute Sample2.fourLevelsPass))
               = true) by reflexivity.
  assert (H2 : MainFlow.on
                 (MainFlow.sp1Check, MainFlow.createMainFlowContext EmptyString)
                 (MainFlow.DoneSp1
                    (L0L3Check.output
                       (snd (L0L3Check.execute Sample2.fourLevelsPass))))
               = Some (MainFlow.sp2Division, Sample2.afterSp1)) by reflexivity.
  refine (conj H1 (conj H2 _)).
  exact (mf_sp1_follows_l0l3_verdict _ _ _ _ H1 H2).
Defined.

(** ** Division of work *)

Section SP2Facts.

Import SP2Division.

Lemma sp2_step_shape c e : contextShape c -> contextShape (step c e).
Proof.
  destruct c as [s ctx]. unfold step, on.
  destruct s, e as [|ch b|r|t]; try (intros H; exact H).
  - destruct (isNotAiStrength ch) eqn:Hc; cbn; intros (H1 & H2 & H3);
      repeat split; eauto.
  - destruct r; cbn; intros ((ch & Hch & Hn) & H2 & H3); repeat split; eauto.
  - cbn. intros ((ch & Hch & Hn) & H2 & H3). repeat split; eauto.
Qed.

Lemma sp2_run_shape events :
  forall c, contextShape c -> contextShape (run c events).
Proof.
  unfold run. induction events as [|e rest IH]; intros c H; simpl; [exact H|].
  apply IH. now apply sp2_step_shape.
Qed.

Lemma sp2_execute_shape events : contextShape (execute events).
Proof. apply sp2_run_shape. cbn. auto. Qed.

(** A final state handles no event. *)
Lemma sp2_final_absorbs events :
  forall s ctx, isFinal s = true -> run (s, ctx) events = (s, ctx).
Proof.
  unfold run. induction events as [|e rest IH]; intros s ctx H; simpl; [reflexivity|].
  assert (Hs : step (s, ctx) e = (s, ctx)).
  { unfold step, on. destruct s, e; try discriminate; reflexivity. }
  rewrite Hs. now apply IH.
Qed.

Lemma sp2_step_flag a b e flag :
  sameButFlag a b -> sameButFlag (step a (withFlag flag e)) (step b e).
Proof.
  destruct a as [sa ca], b as [sb cb]. unfold sameButFlag; cbn [fst snd].
  intros (Hs & Hd & Hc & Hv & Hp). subst sb.
  unfold step, on, withFlag.
  destruct sa, e as [|ch x|r|t]; cbn; auto;
    try destruct (isNotAiStrength ch); try destruct r; cbn; auto 10.
Qed.

Lemma sp2_run_flag flag events :
  forall a b, sameButFlag a b ->
              sameButFlag (run a (map (withFlag flag) events)) (run b events).
Proof.
  unfold run. induction events as [|e rest IH]; intros a b H; simpl; [exact H|].
  apply IH. now apply sp2_step_flag.
Qed.

End SP2Facts.

Lemma sp2_output_shape (events : list SP2Division.Event) :
  (fst (SP2Division.execute events) = SP2Division.aiLedExit ->
   division (SP2Division.output (snd (SP2Division.execute events))) = aiLed
   /\ exists t,
        promptTechnique (SP2Division.output (snd (SP2Division.execute events)))
        = Some t)
  /\ (fst (SP2Division.execute events) = SP2Division.humanLedExit ->
      division (SP2Division.output (snd (SP2Division.execute events))) = humanLed
      /\ promptTechnique (SP2Division.output (snd (SP2Division.execute events)))
         = None)
  /\ (promptTechnique (SP2Division.output (snd (SP2Division.execute events))) <> None ->
      fst (SP2Division.execute events) = SP2Division.aiLedExit).
Proof.
  pose proof (sp2_execute_shape events) as H.
  destruct (SP2Division.execute events) as [s ctx]. cbn [fst snd].
  unfold SP2Division.output; cbn [division promptTechnique].
  destruct s; cbn in H; destruct H as (H1 & H2 & H3); rewrite H2;
    repeat split; intros; try discriminate; try congruence; try reflexivity;
    try assumption.
Qed.

(** X4.  Whatever events the division machine receives: in [aiLedExit] its
    output is [aiLed] with a prompt technique, in [humanLedExit] it is
    [humanLed] without one, and an output that carries a prompt technique
    comes from [aiLedExit] only. *)
Theorem sp2_output_matches_exit (events : list SP2Division.Event) :
  (fst (SP2Division.execute events) = SP2Division.aiLedExit ->
   division (SP2Division.output (snd (SP2Division.execute events))) = aiLed
   /\ exists t,
        promptTechnique (SP2Division.output (snd (SP2Division.execute events)))
        = Some t)
  /\ (fst (SP2Division.execute events) = SP2Division.humanLedExit ->
      division (SP2Division.output (snd (SP2Division.execute events))) = humanLed
      /\ promptTechnique (SP2Division.output (snd (SP2Division.execute events)))
         = None)
  /\ (promptTechnique (SP2Division.output (snd (SP2Division.execute events))) <> None ->
      fst (SP2Division.execute events) = SP2Division.aiLedExit).
Proof. apply sp2_output_shape. Qed.

Lemma sp2_output_matches_exit_witness :
  fst (SP2Division.execute Sample2.aiLedRun) = SP2Division.aiLedExit
  /\ division (SP2Division.output (snd (SP2Division.execute Sample2.aiLedRun)))
     = aiLed.
Proof.
  assert (H : fst (SP2Division.execute Sample2.aiLedRun) = SP2Division.aiLedExit)
    by reflexivity.
  refine (conj H _).
  exact (proj1 (proj1 (sp2_output_matches_exit Sample2.aiLedRun) H)).
Defined.

(** X5.  A task analysed as [designDecision] or [domainSpecific] is
    human-led at once: whatever the flag of the event and whatever events
    follow, the machine ends in [humanLedExit] and its output is [humanLed],
    without a prompt technique, with the analysed characteristic.  More
    generally, in every run in which one of these two characteristics is
    on record, the machine is in [humanLedExit] with that output; and any
    other characteristic leads from [analyzingTask] to [decidingDivision],
    not to an exit. *)
Theorem sp2_not_ai_strength_is_human_led
  (characteristic : TaskCharacteristic) (flag : bool)
  (rest events : list SP2Division.Event) :
  characteristic = designDecision \/ characteristic = domainSpecific ->
  (fst (SP2Division.execute (SP2Division.TASK_ANALYZED characteristic flag :: rest))
   = SP2Division.humanLedExit
   /\ SP2Division.output
        (snd (SP2Division.execute
                (SP2Division.TASK_ANALYZED characteristic flag :: rest)))
      = mkSP2Output humanLed None characteristic)
  /\ (SP2Division.taskCharacteristic (snd (SP2Division.execute events))
      = Some characteristic ->
      fst (SP2Division.execute events) = SP2Division.humanLedExit
      /\ SP2Division.output (snd (SP2Division.execute events))
         = mkSP2Output humanLed None characteristic)
  /\ (forall other,
        other <> designDecision -> other <> domainSpecific ->
        fst (SP2Division.execute [SP2Division.TASK_ANALYZED other flag])
        = SP2Division.decidingDivision).
Proof.
  intros Hch.
  assert (H : SP2Division.isNotAiStrength characteristic = true)
    by (destruct Hch as [-> | ->]; reflexivity).
  split; [|split].
  - assert (E : SP2Division.execute
                  (SP2Division.TASK_ANALYZED characteristic flag :: rest)
                = (SP2Division.humanLedExit,
                   SP2Division.analysed characteristic flag (Some humanLed)
                     (SP2Division.createSP2Context EmptyString))).
    { unfold SP2Division.execute, SP2Division.start.
      change (SP2Division.run ?c (?e :: ?r))
        with (SP2Division.run (SP2Division.step c e) r).
      unfold SP2Division.step, SP2Division.on. rewrite H.
      now rewrite sp2_final_absorbs. }
    rewrite E. split; reflexivity.
  - intros Hrec. pose proof (sp2_execute_shape events) as Hshape.
    destruct (SP2Division.execute events) as [s ctx]. cbn [fst snd] in *.
    unfold SP2Division.output. rewrite Hrec.
    destruct s; cbn in Hshape.
    + destruct Hshape as (Hnone & _). congruence.
    + destruct Hshape as ((ch & Hc & Hn) & _). congruence.
    + destruct Hshape as ((ch & Hc & Hn) & _). congruence.
    + destruct Hshape as ((ch & Hc & Hn) & _). congruence.
    + destruct Hshape as (_ & Hd & Hp). rewrite Hd. split; reflexivity.
  - intros other H1 H2. destruct other; try reflexivity; congruence.
Qed.

Lemma sp2_not_ai_strength_is_human_led_witness :
  (designDecision = designDecision \/ designDecision = domainSpecific)
  /\ fst (SP2Division.execute
            (SP2Division.TASK_ANALYZED designDecision true
               :: [SP2Division.DECIDE_DIVISION aiLed; SP2Division.SELECT_PROMPT react]))
     = SP2Division.humanLedExit
  /\ (domainSpecific = designDecision \/ domainSpecific = domainSpecific)
  /\ fst (SP2Division.execute
            (SP2Division.TASK_ANALYZED domainSpecific false
               :: [SP2Division.DECIDE_DIVISION aiLed; SP2Division.SELECT_PROMPT react]))
     = SP2Division.humanLedExit.
Proof.
  assert (H1 : designDecision = designDecision \/ designDecision = domainSpecific)
    by (left; reflexivity).
  assert (H2 : domainSpecific = designDecision \/ domainSpecific = domainSpecific)
    by (right; reflexivity).
  refine (conj H1 (conj _ (conj H2 _))).
  - exact (proj1 (proj1 (sp2_not_ai_strength_is_human_led
                           designDecision true _ [] H1))).
  - exact (proj1 (proj1 (sp2_not_ai_strength_is_human_led
                           domainSpecific false _ [] H2))).
Defined.

(** X6.  The [isAiStrength] flag of [TASK_ANALYZED] has no influence on the
    course of the machine: replacing the flag of every event by any value
    leads to the same state and to the same output. *)
Theorem sp2_flag_does_not_route (flag : bool) (events : list SP2Division.Event) :
  fst (SP2Division.execute (map (SP2Division.withFlag flag) events))
  = fst (SP2Division.execute events)
  /\ SP2Division.output
       (snd (SP2Division.execute (map (SP2Division.withFlag flag) events)))
     = SP2Division.output (snd (SP2Division.execute events)).
Proof.
  destruct (sp2_run_flag flag events SP2Division.start SP2Division.start)
    as (Hs & Hd & Hc & Hv & Hp).
  { repeat split. }
  split; [exact Hs|].
  unfold SP2Division.execute, SP2Division.output. now rewrite Hc, Hv, Hp.
Qed.

(** X7.  The orchestrator and the division machine agree: when the output
    of a finished division machine is handed to [sp2Division], the
    orchestrator goes to [aiExecution] if the machine ended in [aiLedExit]
    and to [humanExecution] if it ended in [humanLedExit]. *)
Theorem mf_sp2_follows_division
  (events : list SP2Division.Event) (c : MainFlow.Context) (s' : MainFlow.State)
  (c' : MainFlow.Context) :
  SP2Division.isFinal (fst (SP2Division.execute events)) = true ->
  MainFlow.on (MainFlow.sp2Division, c)
    (MainFlow.DoneSp2 (SP2Division.output (snd (SP2Division.execute events))))
  = Some (s', c') ->
  (fst (SP2Division.execute events) = SP2Division.aiLedExit
   /\ s' = MainFlow.aiExecution)
  \/ (fst (SP2Division.execute events) = SP2Division.humanLedExit
      /\ s' = MainFlow.humanExecution).
Proof.
  intros Hfin.
  destruct (sp2_output_shape events) as (Hai & Hh & _).
  unfold MainFlow.on.
  destruct (fst (SP2Division.execute events)) eqn:E; try discriminate.
  - destruct (Hai eq_refl) as (Hd & _). rewrite Hd.
    intros H; injection H as <- _. left. split; reflexivity.
  - destruct (Hh eq_refl) as (Hd & _). rewrite Hd.
    intros H; injection H as <- _. right. split; reflexivity.
Qed.

Lemma mf_sp2_follows_division_witness :
  SP2Division.isFinal (fst (SP2Division.execute Sample2.aiLedRun)) = true
  /\ MainFlow.on (MainFlow.sp2Division, Sample2.afterSp1)
       (MainFlow.DoneSp2
          (SP2Division.output (snd (SP2Division.execute Sample2.aiLedRun))))
     = Some (MainFlow.aiExecution, Sample2.afterSp2)
  /\ ((fst (SP2Division.execute Sample2.aiLedRun) = SP2Division.aiLedExit
       /\ MainFlow.aiExecution = MainFlow.aiExecution)
      \/ (fst (SP2Division.execute Sample2.aiLedRun) = SP2Division.humanLedExit
          /\ MainFlow.aiExecution = MainFlow.humanExecution)).
Proof.
  assert (H1 : SP2Division.isFinal (fst (SP2Division.execute Sample2.aiLedRun))
               = true) by reflexivity.
  assert (H2 : MainFlow.on (MainFlow.sp2Division, Sample2.afterSp1)
                 (MainFlow.DoneSp2
                    (SP2Division.output
                       (snd (SP2Division.execute Sample2.aiLedRun))))
               = Some (MainFlow.aiExecution, Sample2.afterSp2)) by reflexivity.
  refine (conj H1 (conj H2 _)).
  exact (mf_sp2_follows_division _ _ _ _ H1 H2).
Defined.

(** ** Orchestrator: paths and context *)

Section MainFlowPathFacts.

Import MainFlow MainFlowPaths.

Lemma throughGate_snoc outs o :
  throughGate (outs ++ [o])
  = throughGate outs ++ [(sp1Check, DoneSp1 o); (taskAdjustment, ADJUSTMENT_DONE)].
Proof.
  unfold throughGate. rewrite flat_map_app. reflexivity.
Qed.

Lemma mf_step_path cfg log e :
  pathShape cfg log -> pathShape (fst (step cfg log e)) (snd (step cfg log e)).
Proof.
  destruct cfg as [s c]. unfold step, on, sp3VerificationDone.
  destruct s, e as [| | |v| | |lvl| |t ch| |x|x|b| | | | |o|o|o|o];
    try (intros H; exact H); cbn.
  - (* gate passed *)
    intros _. exists log, []. split; [constructor | reflexivity].
  - (* L0-L3 done *)
    destruct (allPassed o) eqn:E; cbn; intros H; exists log, o; auto.
  - (* adjustment *)
    intros (l & o & (pre & outs & Hf & ->) & Ho & ->).
    exists pre, (outs ++ [o]). split.
    + apply Forall_app. split; [exact Hf | constructor; [exact Ho | constructor]].
    + rewrite throughGate_snoc, <- !app_assoc. reflexivity.
  - (* division done *)
    destruct (division o) eqn:E; cbn; intros H; exists log, o; auto.
  - intros H. left. exists log, x. auto.
  - intros H. exists log, x. auto.
  - intros (l & y & Hl & ->). right. exists l, y, b. auto.
  - (* verification done *)
    destruct (SP3.passed o) eqn:Ep; cbn.
    + intros H. exists log, o. auto.
    + destruct (SP3.principleViolation o) eqn:Ev; cbn; intros H; [exact I|].
      exists log, o. repeat split; auto.
  - intros H. exists log, o. auto.
Qed.

Lemma mf_execute_path events :
  pathShape (fst (execute events)) (snd (execute events)).
Proof.
  unfold execute. apply mf_run_invariant; [exact mf_step_path | exact I].
Qed.

End MainFlowPathFacts.

Section MainFlowContextFacts.

Import MainFlow MainFlowPaths.

Ltac mf_cases cfg e :=
  let s := fresh "s" in
  let c := fresh "c" in
  let H := fresh "H" in
  destruct cfg as [s c]; unfold step, on, sp3VerificationDone;
  destruct s, e as [| | |v| | |lvl| |t ch| |x|x|b| | | | |o|o|o|o];
  try (intros H; exact H); cbn;
  repeat match goal with
    | |- context [Bool.eqb ?b true] => destruct b eqn:?; cbn
    | |- context [match division ?o with _ => _ end] => destruct (division o) eqn:?
    end;
  cbn.

Lemma mf_gate_flag events :
  hasViolation (brightLinesResult (snd (fst (execute events)))) = true
  <-> fst (fst (execute events)) = brightLinesFix.
Proof.
  unfold execute.
  apply (mf_run_invariant
           (fun cfg _ => hasViolation (brightLinesResult (snd cfg)) = true
                         <-> fst cfg = brightLinesFix)).
  - intros cfg log e. mf_cases cfg e; intros [H1 H2];
      split; intros; try discriminate; try reflexivity;
      try (assert (Hx : brightLinesFix = brightLinesFix) by reflexivity;
           first [discriminate (H1 ltac:(assumption)) | idtac]).
  - cbn. split; discriminate.
Qed.


Lemma mf_recovery_result events :
  recoveryResult (snd (fst (execute events))) <> None
  <-> fst (fst (execute events)) = recoveryExit.
Proof.
  unfold execute.
  apply (mf_run_invariant
           (fun cfg _ => recoveryResult (snd cfg) <> None <-> fst cfg = recoveryExit)).
  - intros cfg log e. mf_cases cfg e; intros [H1 H2];
      split; intros Hx; try discriminate; try reflexivity;
      try (discriminate (H1 Hx)); try (exfalso; apply Hx; reflexivity).
  - cbn. split; [intros H; now elim H | discriminate].
Qed.

Lemma violationTaken_snoc log t :
  (forall o, t = (sp3Verification, DoneSp3 o) ->
             ~ (SP3.passed o = false /\ SP3.principleViolation o = true)) ->
  violationTaken (log ++ [t]) <-> violationTaken log.
Proof.
  intros Ht. unfold violationTaken. split.
  - intros (o & Hin & Hp & Hv). apply in_app_or in Hin as [Hin|[Hin|[]]].
    + eauto.
    + exfalso. apply (Ht o); auto.
  - intros (o & Hin & Hp & Hv). exists o. split; [|auto].
    apply in_or_app. now left.
Qed.

Lemma mf_violation_flag events :
  hasPrincipleViolation (snd (fst (execute events))) = true
  <-> violationTaken (snd (execute events)).
Proof.
  unfold execute.
  apply (mf_run_invariant
           (fun cfg log => hasPrincipleViolation (snd cfg) = true
                           <-> violationTaken log)).
  - intros cfg log e. mf_cases cfg e; intros H;
      try (rewrite violationTaken_snoc;
           [exact H | intros o' Ho'; try discriminate Ho';
                      injection Ho' as <-; intros [? ?]; congruence]).
    split; [intros _|reflexivity].
    exists o. split; [apply in_or_app; right; left; reflexivity | auto].
  - cbn. split; [discriminate|]. intros (o & [] & _).
Qed.

Lemma mf_adjustment_count events :
  adjustmentCount (snd (fst (execute events)))
  = Z.of_nat (List.length (filter isAdjustment (snd (execute events)))).
Proof.
  unfold execute.
  apply (mf_run_invariant
           (fun cfg log => adjustmentCount (snd cfg)
                           = Z.of_nat (List.length (filter isAdjustment log)))).
  - intros cfg log e. mf_cases cfg e; intros H;
      rewrite filter_app, length_app; cbn; rewrite H; lia.
  - reflexivity.
Qed.

Lemma mf_completed_result events :
  fst (fst (execute events)) = taskCompleted ->
  exists o, sp3Result (snd (fst (execute events))) = Some o /\ SP3.passed o = true.
Proof.
  unfold execute.
  apply (mf_run_invariant
           (fun cfg _ => fst cfg = taskCompleted ->
                         exists o, sp3Result (snd cfg) = Some o /\ SP3.passed o = true)).
  - intros cfg log e. mf_cases cfg e; intros H Hs; try discriminate Hs; eauto.
  - discriminate.
Qed.

Lemma mf_hand_over events :
  fst (fst (execute events)) = recoveryFlow
  \/ fst (fst (execute events)) = recoveryExit ->
  exists o,
    sp3Result (snd (fst (execute events))) = Some o
    /\ SP3.passed o = false /\ SP3.principleViolation o = false
    /\ lastError (snd (fst (execute events))) = SP3.lastError o
    /\ errorHistory (snd (fst (execute events))) = SP3.errorHistory o.
Proof.
  unfold execute.
  apply (mf_run_invariant
           (fun cfg _ =>
              fst cfg = recoveryFlow \/ fst cfg = recoveryExit ->
              exists o,
                sp3Result (snd cfg) = Some o
                /\ SP3.passed o = false /\ SP3.principleViolation o = false
                /\ lastError (snd cfg) = SP3.lastError o
                /\ errorHistory (snd cfg) = SP3.errorHistory o)).
  - intros cfg log e. mf_cases cfg e; intros H [Hs|Hs]; try discriminate Hs.
    + exists o. auto.
    + apply H. now left.
  - intros [H|H]; discriminate H.
Qed.

Lemma mf_execution_on_record events :
  match fst (fst (execute events)) with
  | humanReview | sp3Verification | taskCompleted | recoveryFlow | recoveryExit =>
      executionResult (snd (fst (execute events))) <> None
  | _ => True
  end.
Proof.
  unfold execute.
  apply (mf_run_invariant
           (fun cfg _ =>
              match fst cfg with
              | humanReview | sp3Verification | taskCompleted | recoveryFlow
              | recoveryExit => executionResult (snd cfg) <> None
              | _ => True
              end)).
  - intros cfg log e. mf_cases cfg e; intros H; try exact I; try exact H;
      discriminate.
  - exact I.
Qed.

End MainFlowContextFacts.

Section MainFlowVerdictFacts.

Import MainFlow MainFlowPaths.

Lemma mf_step_verdict a b la lb e flag :
  sameButVerdict a b ->
  sameButVerdict (fst (step a la (withVerdict flag e))) (fst (step b lb e)).
Proof.
  destruct a as [sa ca], b as [sb cb]. unfold sameButVerdict; cbn [fst snd].
  intros (Hs & H1 & H2 & H3 & H4 & H5 & H6 & H7 & H8 & H9 & H10 & H11). subst sb.
  unfold step, on, sp3VerificationDone, withVerdict.
  destruct sa, e as [| | |v| | |lvl| |t ch| |x|x|x| | | | |o|o|o|o]; cbn;
    repeat match goal with
      | |- context [Bool.eqb ?b true] => destruct b eqn:?; cbn
      | |- context [match division ?o with _ => _ end] => destruct (division o) eqn:?
      end;
    cbn; try (repeat split; congruence).
  (* the review itself *)
  unfold sameButReviewed, reviewed in *.
  destruct (executionResult ca), (executionResult cb); cbn in *;
    repeat split; try congruence; tauto.
Qed.

Lemma mf_run_verdict flag events :
  forall a b la lb,
    sameButVerdict a b ->
    sameButVerdict (fst (run a la (map (withVerdict flag) events)))
      (fst (run b lb events)).
Proof.
  induction events as [|e rest IH]; intros a b la lb H; simpl; [exact H|].
  pose proof (mf_step_verdict a b la lb e flag H) as Hs.
  destruct (step a la (withVerdict flag e)) as [a' la'].
  destruct (step b lb e) as [b' lb']. now apply IH.
Qed.

End MainFlowVerdictFacts.

(** X8.  Whatever events the orchestrator receives, its output names the
    completion [recoveryExit] exactly when the machine is in its final
    state [recoveryExit]; everywhere else, in [taskCompleted] in
    particular, it names [taskCompleted]. *)
Theorem mf_completion_type_names_the_final_state (events : list MainFlow.Event) :
  MainFlow.completionType (MainFlow.output (snd (fst (MainFlow.execute events))))
  = recoveryExited
  <-> fst (fst (MainFlow.execute events)) = MainFlow.recoveryExit.
Proof.
  rewrite <- mf_recovery_result. unfold MainFlow.output; cbn.
  destruct (MainFlow.recoveryResult (snd (fst (MainFlow.execute events))));
    split; intros H; try discriminate; try reflexivity; congruence.
Qed.

(** X9.  Whatever events the orchestrator receives, the violation flag of
    the Bright Lines result is set exactly while the machine is in
    [brightLinesFix]: every other state, the gate [brightLinesCheck]
    included, is entered with the flag cleared. *)
Theorem mf_gate_flag_set_only_while_fixing (events : list MainFlow.Event) :
  hasViolation (MainFlow.brightLinesResult (snd (fst (MainFlow.execute events))))
  = true
  <-> fst (fst (MainFlow.execute events)) = MainFlow.brightLinesFix.
Proof. apply mf_gate_flag. Qed.

(** X10.  When the orchestrator is in [recoveryFlow] or [recoveryExit], the
    verification output on record reports neither a pass nor a principle
    violation, and the context fields [lastError] and [errorHistory] are
    copies of that output's. *)
Theorem mf_recovery_holds_the_abandoned_output (events : list MainFlow.Event) :
  fst (fst (MainFlow.execute events)) = MainFlow.recoveryFlow
  \/ fst (fst (MainFlow.execute events)) = MainFlow.recoveryExit ->
  exists o,
    MainFlow.sp3Result (snd (fst (MainFlow.execute events))) = Some o
    /\ SP3.passed o = false /\ SP3.principleViolation o = false
    /\ MainFlow.lastError (snd (fst (MainFlow.execute events))) = SP3.lastError o
    /\ MainFlow.errorHistory (snd (fst (MainFlow.execute events)))
       = SP3.errorHistory o.
Proof. apply mf_hand_over. Qed.

Lemma mf_recovery_holds_the_abandoned_output_witness :
  (fst (fst (MainFlow.execute Sample2.recoveryPath)) = MainFlow.recoveryFlow
   \/ fst (fst (MainFlow.execute Sample2.recoveryPath)) = MainFlow.recoveryExit)
  /\ exists o,
       MainFlow.sp3Result (snd (fst (MainFlow.execute Sample2.recoveryPath))) = Some o
       /\ MainFlow.lastError (snd (fst (MainFlow.execute Sample2.recoveryPath)))
          = SP3.lastError o.
Proof.
  assert (H : fst (fst (MainFlow.execute Sample2.recoveryPath)) = MainFlow.recoveryFlow
              \/ fst (fst (MainFlow.execute Sample2.recoveryPath)) = MainFlow.recoveryExit)
    by (right; reflexivity).
  refine (conj H _).
  destruct (mf_recovery_holds_the_abandoned_output _ H) as (o & H1 & _ & _ & H2 & _).
  exists o. split; assumption.
Defined.

(** X11.  A run of the orchestrator that ends in [taskCompleted] ends with
    one full pass: the gate passed, then only failed L0-L3 rounds each
    followed by an adjustment, then an L0-L3 check with all levels passed,
    the division of work, the execution (by the human, or by the AI followed
    by the human review), and a verification that reports a pass.  A run
    that ends in [recoveryExit] ends with the same pass, a verification
    that reports neither pass nor principle violation, and the recovery
    flow. *)
Theorem mf_final_states_follow_a_full_pass (events : list MainFlow.Event) :
  (fst (fst (MainFlow.execute events)) = MainFlow.taskCompleted ->
   MainFlowPaths.pastSp3 MainFlowPaths.passedOutput (snd (MainFlow.execute events)))
  /\ (fst (fst (MainFlow.execute events)) = MainFlow.recoveryExit ->
      MainFlowPaths.pastRecovery (snd (MainFlow.execute events))).
Proof.
  pose proof (mf_execute_path events) as H. unfold MainFlowPaths.pathShape in H.
  split; intros Hs; rewrite Hs in H; exact H.
Qed.

Lemma mf_final_states_follow_a_full_pass_witness :
  fst (fst (MainFlow.execute Sample.aiPath)) = MainFlow.taskCompleted
  /\ MainFlowPaths.pastSp3 MainFlowPaths.passedOutput
       (snd (MainFlow.execute Sample.aiPath))
  /\ fst (fst (MainFlow.execute Sample2.recoveryPath)) = MainFlow.recoveryExit
  /\ MainFlowPaths.pastRecovery (snd (MainFlow.execute Sample2.recoveryPath)).
Proof.
  assert (H1 : fst (fst (MainFlow.execute Sample.aiPath)) = MainFlow.taskCompleted)
    by reflexivity.
  assert (H2 : fst (fst (MainFlow.execute Sample2.recoveryPath)) = MainFlow.recoveryExit)
    by reflexivity.
  refine (conj H1 (conj _ (conj H2 _))).
  - exact (proj1 (mf_final_states_follow_a_full_pass Sample.aiPath) H1).
  - exact (proj2 (mf_final_states_follow_a_full_pass Sample2.recoveryPath) H2).
Defined.

(** X12.  Whatever events the orchestrator receives, [hasPrincipleViolation]
    is set exactly when a verification output without a pass and with a
    principle violation has been taken in [sp3Verification]; once set it is
    never cleared. *)
Theorem mf_violation_flag_records_the_loop_back (events : list MainFlow.Event) :
  MainFlow.hasPrincipleViolation (snd (fst (MainFlow.execute events))) = true
  <-> MainFlowPaths.violationTaken (snd (MainFlow.execute events)).
Proof. apply mf_violation_flag. Qed.

(** X13.  Whatever events the orchestrator receives, [adjustmentCount] is
    the number of [ADJUSTMENT_DONE] transitions taken in [taskAdjustment]. *)
Theorem mf_adjustment_count_counts_adjustments (events : list MainFlow.Event) :
  MainFlow.adjustmentCount (snd (fst (MainFlow.execute events)))
  = Z.of_nat (List.length (filter MainFlowPaths.isAdjustment
                             (snd (MainFlow.execute events)))).
Proof. apply mf_adjustment_count. Qed.

(** X14.  The verdict of the human review does not steer the orchestrator:
    replacing the verdict of every [HUMAN_REVIEW_DONE] event by any value
    leads to the same state and to the same context but for the field
    [humanReviewed] of the execution result; a rejected AI output goes on
    to verification like an approved one. *)
Theorem mf_review_verdict_does_not_route (flag : bool) (events : list MainFlow.Event) :
  MainFlowPaths.sameButVerdict
    (fst (MainFlow.execute (map (MainFlowPaths.withVerdict flag) events)))
    (fst (MainFlow.execute events)).
Proof.
  unfold MainFlow.execute. apply mf_run_verdict.
  repeat split.
Qed.

(** X15.  Whatever events the orchestrator receives, in [taskCompleted] the
    verification output on record reports a pass, and the output of the
    machine names [taskCompleted], carries an execution result and no
    recovery result. *)
Theorem mf_completed_task_has_passed_verification (events : list MainFlow.Event) :
  fst (fst (MainFlow.execute events)) = MainFlow.taskCompleted ->
  (exists o,
      MainFlow.sp3Result (snd (fst (MainFlow.execute events))) = Some o
      /\ SP3.passed o = true)
  /\ MainFlow.completionType (MainFlow.output (snd (fst (MainFlow.execute events))))
     = completedTask
  /\ MainFlow.outExecutionResult
       (MainFlow.output (snd (fst (MainFlow.execute events)))) <> None
  /\ MainFlow.outRecoveryResult
       (MainFlow.output (snd (fst (MainFlow.execute events)))) = None.
Proof.
  intros Hs. split; [now apply mf_completed_result|].
  pose proof (mf_execution_on_record events) as He. rewrite Hs in He.
  assert (Hr : MainFlow.recoveryResult (snd (fst (MainFlow.execute events))) = None).
  { destruct (MainFlow.recoveryResult (snd (fst (MainFlow.execute events)))) eqn:E;
      [|reflexivity].
    assert (Hx : fst (fst (MainFlow.execute events)) = MainFlow.recoveryExit).
    { apply mf_recovery_result. rewrite E. discriminate. }
    congruence. }
  unfold MainFlow.output; cbn. rewrite Hr. repeat split. exact He.
Qed.

Lemma mf_completed_task_has_passed_verification_witness :
  fst (fst (MainFlow.execute Sample.aiPath)) = MainFlow.taskCompleted
  /\ MainFlow.completionType
       (MainFlow.output (snd (fst (MainFlow.execute Sample.aiPath))))
     = completedTask.
Proof.
  assert (H : fst (fst (MainFlow.execute Sample.aiPath)) = MainFlow.taskCompleted)
    by reflexivity.
  refine (conj H _).
  exact (proj1 (proj2 (mf_completed_task_has_passed_verification Sample.aiPath H))).
Defined.

(** ** Verification loop: paths and contexts *)

Section VerificationLoopPathFacts.

Import VerificationLoop VerificationLoopPaths.

Variable exec : Action -> Context -> Context.

(** A property of configurations and logs that every transition preserves
    holds at the end of every settled run. *)
Variable P : Config -> list State -> Prop.

Hypothesis P_on :
  forall cfg log e cfg' obs,
    on exec cfg e = Some (cfg', obs) -> P cfg log -> P cfg' (log ++ obs).
Hypothesis P_always :
  forall cfg log cfg' obs,
    always exec cfg = Fired cfg' obs -> P cfg log -> P cfg' (log ++ obs).
Hypothesis P_elapse :
  forall cfg log ms, P cfg log -> P (elapse ms cfg) log.
Hypothesis P_fire :
  forall cfg log,
    P cfg log -> P (fst (fire exec cfg)) (log ++ snd (fire exec cfg)).

Lemma vl_settle_invariant fuel :
  forall cfg log cfg' log',
    P cfg log ->
    settle (always exec) fuel cfg log = Settled cfg' log' ->
    P cfg' log'.
Proof.
  induction fuel as [|fuel IH]; intros cfg log cfg' log' HP; simpl;
    destruct (always exec cfg) as [c obs| |] eqn:E; try discriminate.
  - intros H; injection H as <- <-; assumption.
  - intros H. eapply IH; [|exact H]. eapply P_always; eassumption.
  - intros H; injection H as <- <-; assumption.
Qed.

Lemma vl_step_invariant fuel cfg log i cfg' log' :
  P cfg log ->
  step exec fuel cfg log i = Settled cfg' log' ->
  P cfg' log'.
Proof.
  intros HP. unfold step.
  destruct (isFinal (state cfg)) eqn:Hfin.
  { intros H; injection H as <- <-; assumption. }
  destruct i as [e|ms].
  - destruct (on exec cfg e) as [[c obs]|] eqn:E.
    + apply vl_settle_invariant. eapply P_on; eassumption.
    + intros H; injection H as <- <-; assumption.
  - destruct (due (elapse ms cfg)) eqn:Hdue.
    + pose proof (P_fire _ _ (P_elapse _ _ ms HP)) as HF.
      destruct (fire exec (elapse ms cfg)) as [c obs].
      apply vl_settle_invariant. exact HF.
    + intros H; injection H as <- <-. now apply P_elapse.
Qed.

Lemma vl_run_invariant fuel inputs :
  forall cfg log cfg' log',
    P cfg log ->
    run exec fuel cfg log inputs = Settled cfg' log' ->
    P cfg' log'.
Proof.
  induction inputs as [|i rest IH]; intros cfg log cfg' log' HP; simpl.
  - intros H; injection H as <- <-; assumption.
  - destruct (step exec fuel cfg log i) as [c l| |] eqn:E; try discriminate.
    apply IH. eapply vl_step_invariant; eassumption.
Qed.

Lemma vl_execute_invariant fuel definedAt startedNow inputs cfg log :
  P (fst (start exec definedAt startedNow)) (snd (start exec definedAt startedNow)) ->
  execute exec fuel definedAt startedNow inputs = Settled cfg log ->
  P cfg log.
Proof.
  unfold execute. destruct (start exec definedAt startedNow) as [c l].
  apply vl_run_invariant.
Qed.

End VerificationLoopPathFacts.

Section VerificationLoopOrderFacts.

Import VerificationLoop VerificationLoopPaths.

Variable exec : Action -> Context -> Context.

Lemma endsWith_snoc suffix log s :
  endsWith suffix log -> endsWith (suffix ++ [s]) (log ++ [s]).
Proof.
  intros (pre & ->). exists pre. now rewrite app_assoc.
Qed.

Lemma endsWith_last log s : endsWith [s] (log ++ [s]).
Proof. now exists log. Qed.

Lemma vl_on_path cfg log e cfg' obs :
  on exec cfg e = Some (cfg', obs) -> pathShape cfg log -> pathShape cfg' (log ++ obs).
Proof.
  unfold on, enter, pathShape.
  destruct (state cfg) as [| | |[]| | |], e as [r|r|r| |];
    try discriminate; try destruct (Bool.eqb (crPassed r) true);
    intros H; injection H as <- <-; cbn [state];
    intros HP;
    first [ apply endsWith_last
          | exact (endsWith_snoc _ _ _ HP) ].
Qed.

Lemma vl_always_path cfg log cfg' obs :
  always exec cfg = Fired cfg' obs -> pathShape cfg log -> pathShape cfg' (log ++ obs).
Proof.
  unfold always, enter, pathShape.
  destruct (state cfg) as [| | |[]| | |]; try discriminate;
    repeat match goal with
      | |- context [if ?b then _ else _] => destruct b
      | |- context [match LossCut.checkRecurringError ?x with _ => _ end] =>
          destruct (LossCut.checkRecurringError x) as [[|]|]
      end;
    try discriminate.
  all: try (intros H; injection H as <- <-; cbn [state context fst entry];
            intros HP;
            first [ exact (endsWith_snoc _ _ _ HP)
                  | split; [|reflexivity];
                    first [ exact (endsWith_snoc _ _ _ HP)
                          | (exists 1%nat; split; [lia|]; exact (endsWith_snoc _ _ _ HP))
                          | (exists 2%nat; split; [lia|]; exact (endsWith_snoc _ _ _ HP))
                          | (exists 3%nat; split; [lia|]; exact (endsWith_snoc _ _ _ HP))
                          | (exists 4%nat; split; [lia|]; exact (endsWith_snoc _ _ _ HP)) ] ]).
  - (* onDone after continueFix *)
    intros H [HP Hd]. rewrite Hd in H. injection H as <- <-. cbn [state fst].
    exact (endsWith_snoc _ _ _ HP).
  - (* onDone after lossCutConfirmed *)
    intros H [(k & HP) Hd]. rewrite Hd in H. injection H as <- <-.
    cbn [state context fst entry]. split; [|exact Hd].
    exists k, log. split; [exact HP | reflexivity].
Qed.

Lemma vl_execute_path fuel definedAt startedNow inputs cfg log :
  execute exec fuel definedAt startedNow inputs = Settled cfg log ->
  pathShape cfg log.
Proof.
  apply (vl_execute_invariant exec pathShape).
  - exact vl_on_path.
  - exact vl_always_path.
  - intros c l ms H. exact H.
  - intros c l _. unfold fire, enter, pathShape; cbn. apply endsWith_last.
  - unfold start, enter, pathShape; cbn. now exists [].
Qed.

End VerificationLoopOrderFacts.

Section VerificationLoopContextFacts.

Import VerificationLoop VerificationLoopPaths.

Variable exec : Action -> Context -> Context.

(** The injected actions leave the loss-cut fields alone. *)
Hypothesis exec_keeps_base : forall a ctx, base (exec a ctx) = base ctx.

Lemma vl_entry_base s ctx : base (entry exec s ctx) = base ctx.
Proof.
  unfold entry. destruct s as [| | |[]| | |]; rewrite ?exec_keeps_base; reflexivity.
Qed.

Lemma latestError_snoc records r : latestError (records ++ [r]) = error r.
Proof.
  unfold latestError. rewrite map_app. cbn [map]. apply last_last.
Qed.

Ltac vl_context_goal :=
  cbn [recordFailure resetForRetry setDecision withBase base errorCount
         startedAt lastError errorHistory lossCutDecision];
  rewrite ?length_app, ?latestError_snoc; cbn [List.length];
  repeat split; try assumption; try reflexivity; try lia.

Lemma vl_on_context definedAt cfg e cfg' obs :
  on exec cfg e = Some (cfg', obs) ->
  contextShape definedAt cfg -> contextShape definedAt cfg'.
Proof.
  unfold on, enter, contextShape, stateShape.
  destruct (state cfg) as [| | |[]| | |], e as [r|r|r| |];
    try discriminate; try destruct (Bool.eqb (crPassed r) true);
    intros H; injection H as <- _; cbn [state context];
    rewrite ?vl_entry_base, ?exec_keeps_base;
    intros (H1 & H2 & H3 & H4); try destruct H4 as [H4 H5];
    vl_context_goal.
Qed.

Lemma vl_always_context definedAt cfg cfg' obs :
  always exec cfg = Fired cfg' obs ->
  contextShape definedAt cfg -> contextShape definedAt cfg'.
Proof.
  unfold always, enter, contextShape, stateShape, LossCut.checkErrorCount3OrMore.
  destruct (state cfg) as [| | |[]| | |]; try discriminate;
    repeat match goal with
      | |- context [if ?a <=? ?b then _ else _] => destruct (Z.leb_spec a b)
      | |- context [if ?b then _ else _] => destruct b
      | |- context [match LossCut.checkRecurringError ?x with _ => _ end] =>
          destruct (LossCut.checkRecurringError x) as [[|]|]
      | |- context [match lossCutDecision ?x with _ => _ end] =>
          destruct (lossCutDecision x) as [[|]|] eqn:?
      end;
    try discriminate;
    intros Hf; injection Hf as <- _; cbn [state context fst];
    rewrite ?vl_entry_base, ?exec_keeps_base;
    intros (H1 & H2 & H3 & H4); try destruct H4 as [H4 H5];
    try congruence;
    vl_context_goal.
Qed.

Lemma vl_stateShape_bound cfg :
  stateShape cfg -> errorCount (base (context cfg)) <= 3.
Proof.
  unfold stateShape. destruct (state cfg) as [| | |[]| | |]; intros H; lia.
Qed.

Lemma vl_context_invariant definedAt startedNow cfg :
  Reach exec definedAt startedNow cfg -> contextShape definedAt cfg.
Proof.
  induction 1 as [|cfg e cfg' obs _ IH Hon|cfg cfg' obs _ IH Hal
                  |cfg ms _ IH Hfin Hdue|cfg ms _ IH Hfin Hdue].
  - unfold start, enter, contextShape, stateShape; cbn [fst state context].
    rewrite vl_entry_base. cbn. repeat split; lia.
  - eapply vl_on_context; eassumption.
  - eapply vl_always_context; eassumption.
  - exact IH.
  - destruct IH as (H1 & H2 & H3 & H4).
    apply vl_stateShape_bound in H4.
    unfold fire, enter, elapse, contextShape, stateShape; cbn [fst state context].
    rewrite vl_entry_base. repeat split; assumption.
Qed.

End VerificationLoopContextFacts.

Section VerificationLoopRestFacts.

Import VerificationLoop VerificationLoopPaths.

Variable exec : Action -> Context -> Context.

Lemma vl_idle_resting cfg : always exec cfg = Idle <-> resting (state cfg) = true.
Proof.
  unfold always, resting.
  destruct (state cfg) as [| | |[]| | |];
    repeat match goal with
      | |- context [if ?b then _ else _] => destruct b
      | |- context [match LossCut.checkRecurringError ?x with _ => _ end] =>
          destruct (LossCut.checkRecurringError x) as [[|]|]
      | |- context [match lossCutDecision ?x with _ => _ end] =>
          destruct (lossCutDecision x) as [[|]|]
      end;
    split; intros H; try discriminate; reflexivity.
Qed.

Lemma vl_settle_resting fuel :
  forall cfg log cfg' log',
    settle (always exec) fuel cfg log = Settled cfg' log' ->
    resting (state cfg') = true.
Proof.
  induction fuel as [|fuel IH]; intros cfg log cfg' log'; simpl;
    destruct (always exec cfg) as [c obs| |] eqn:E; try discriminate.
  - intros H; injection H as <- _. now apply vl_idle_resting.
  - apply IH.
  - intros H; injection H as <- _. now apply vl_idle_resting.
Qed.

Lemma vl_step_resting fuel cfg log i cfg' log' :
  resting (state cfg) = true ->
  step exec fuel cfg log i = Settled cfg' log' ->
  resting (state cfg') = true.
Proof.
  intros HP. unfold step.
  destruct (isFinal (state cfg)) eqn:Hfin.
  { intros H; injection H as <- _; assumption. }
  destruct i as [e|ms].
  - destruct (on exec cfg e) as [[c obs]|] eqn:E.
    + apply vl_settle_resting.
    + intros H; injection H as <- _; assumption.
  - destruct (due (elapse ms cfg)) eqn:Hdue.
    + destruct (fire exec (elapse ms cfg)) as [c obs].
      apply vl_settle_resting.
    + intros H; injection H as <- _. exact HP.
Qed.

Lemma vl_run_resting fuel inputs :
  forall cfg log cfg' log',
    resting (state cfg) = true ->
    run exec fuel cfg log inputs = Settled cfg' log' ->
    resting (state cfg') = true.
Proof.
  induction inputs as [|i rest IH]; intros cfg log cfg' log' HP; simpl.
  - intros H; injection H as <- _; assumption.
  - destruct (step exec fuel cfg log i) as [c l| |] eqn:E; try discriminate.
    apply IH. eapply vl_step_resting; eassumption.
Qed.

Lemma vl_execute_resting fuel definedAt startedNow inputs cfg log :
  execute exec fuel definedAt startedNow inputs = Settled cfg log ->
  resting (state cfg) = true.
Proof.
  unfold execute, start, enter. apply vl_run_resting. reflexivity.
Qed.

Hypothesis exec_keeps_base : forall a ctx, base (exec a ctx) = base ctx.

Lemma vl_after_deadline definedAt startedNow cfg :
  definedAt <= startedNow ->
  Reach exec definedAt startedNow cfg ->
  deadline cfg = None ->
  afterDeadline (state cfg) = true.
Proof.
  intros Hle.
  induction 1 as [|cfg e cfg' obs HR IH Hon|cfg cfg' obs HR IH Hal
                  |cfg ms HR IH Hfin Hdue|cfg ms HR IH Hfin Hdue].
  - discriminate.
  - destruct (vl_on_timer _ _ _ _ _ Hon) as [_ Hd]. rewrite Hd. intros Hn.
    specialize (IH Hn). revert Hon IH. unfold on, enter.
    destruct (state cfg) as [| | |[]| | |], e as [r|r|r| |];
      try discriminate; intros Hf; injection Hf as <- _; reflexivity.
  - destruct (vl_always_timer _ _ _ _ Hal) as [_ Hd]. rewrite Hd. intros Hn.
    specialize (IH Hn).
    destruct (vl_context_invariant exec exec_keeps_base _ _ _ HR)
      as (Hs & _ & _ & Hshape).
    destruct (vl_deadline_invariant _ _ _ _ HR) as [Hx|[_ Hclock]];
      [congruence|].
    revert Hal IH Hshape.
    unfold always, enter, stateShape, LossCut.checkOver30Min.
    destruct (state cfg) as [| | |[]| | |]; try discriminate.
    + destruct (LossCut.checkErrorCount3OrMore _);
        intros Hf; injection Hf as <- _; reflexivity.
    + rewrite Hs. destruct (Z.leb_spec 1800000 (clock cfg - definedAt)); [|lia].
      intros Hf; injection Hf as <- _; reflexivity.
    + intros Hf _ [_ Hc]. rewrite Hc in Hf. injection Hf as <- _. reflexivity.
  - exact IH.
  - reflexivity.
Qed.

End VerificationLoopRestFacts.

Section VerificationLoopDeadlineFacts.

Import VerificationLoop VerificationLoopPaths.

Variable exec : Action -> Context -> Context.

Hypothesis exec_keeps_base : forall a ctx, base (exec a ctx) = base ctx.

(** Once the delayed transition has fired, the judgment that follows the
    recording of the error state cuts. *)
Lemma vl_judgment_after_deadline definedAt startedNow fuel cfg log :
  definedAt <= startedNow ->
  (3 <= fuel)%nat ->
  Reach exec definedAt startedNow cfg ->
  deadline cfg = None ->
  state cfg = lossCutJudgment LossCut.recordErrorState ->
  exists cfg' log',
    step exec fuel cfg log (Deliver ERROR_STATE_RECORDED) = Settled cfg' log'
    /\ state cfg' = verificationFailed.
Proof.
  intros Hle Hfuel HR Hd Hs.
  destruct (vl_context_invariant exec exec_keeps_base _ _ _ HR) as (Hst & _).
  destruct (vl_deadline_invariant _ _ _ _ HR) as [Hx|[_ Hclock]]; [congruence|].
  destruct (fuel_split 3 fuel Hfuel) as (n & ->).
  unfold step, on. rewrite Hs. cbn [isFinal enter entry].
  change (3 + n)%nat with (S (S (S n))).
  assert (H30 : LossCut.checkOver30Min (clock cfg) (base (context cfg)) = true).
  { unfold LossCut.checkOver30Min. rewrite Hst. apply Z.leb_le. lia. }
  destruct (LossCut.checkErrorCount3OrMore (base (context cfg))) eqn:E3.
  - eexists. eexists. split.
    + cbn [settle always state context clock deadline enter entry fst]. rewrite E3.
      cbn [settle always state context clock deadline enter entry fst setDecision withBase base
             lossCutDecision].
      destruct n; reflexivity.
    + reflexivity.
  - eexists. eexists. split.
    + cbn [settle always state context clock deadline enter entry fst]. rewrite E3.
      cbn [settle always state context clock deadline enter entry fst]. rewrite H30.
      cbn [settle always state context clock deadline enter entry fst setDecision withBase base
             lossCutDecision].
      destruct n; reflexivity.
    + reflexivity.
Qed.

End VerificationLoopDeadlineFacts.

(** X16.  Whatever the injected actions, a settled run of the verification
    loop that ends in [verificationPassed] entered [typecheck], [lint] and
    [test] in this order just before, with nothing in between; one that
    rests in [issueFix] comes from a judgment that recorded the error state
    and went through all four checks down to [continueFix]; one that ends in
    [verificationFailed] comes from a judgment that recorded the error
    state, went through the first [k] checks (1 <= k <= 4) in order and was
    cut by the [k]-th. *)
Theorem vl_final_states_follow_the_stages
  (exec : VerificationLoop.Action -> VerificationLoop.Context -> VerificationLoop.Context)
  (fuel : nat) (definedAt startedNow : Z) (inputs : list VerificationLoop.Input)
  (cfg : VerificationLoop.Config) (log : list VerificationLoop.State) :
  VerificationLoop.execute exec fuel definedAt startedNow inputs = Settled cfg log ->
  (VerificationLoop.state cfg = VerificationLoop.verificationPassed ->
   VerificationLoopPaths.endsWith
     [VerificationLoop.typecheck; VerificationLoop.lint; VerificationLoop.test;
      VerificationLoop.verificationPassed] log)
  /\ (VerificationLoop.state cfg = VerificationLoop.issueFix ->
      VerificationLoopPaths.endsWith
        (VerificationLoopPaths.judgment 4
           ++ [VerificationLoop.lossCutJudgment LossCut.continueFix;
               VerificationLoop.issueFix]) log)
  /\ (VerificationLoop.state cfg = VerificationLoop.verificationFailed ->
      exists k l,
        VerificationLoopPaths.cutAt k l
        /\ log = l ++ [VerificationLoop.verificationFailed]).
Proof.
  intros H. apply vl_execute_path in H. unfold VerificationLoopPaths.pathShape in H.
  repeat split; intros Hs; rewrite Hs in H; [exact H | exact H | exact (proj1 H)].
Qed.

Lemma vl_final_states_follow_the_stages_witness :
  VerificationLoop.execute VerificationLoop.noActions 5 0 0 Sample.threePasses
  = Settled Sample2.passedConfig Sample2.passedLog
  /\ VerificationLoop.state Sample2.passedConfig = VerificationLoop.verificationPassed
  /\ VerificationLoopPaths.endsWith
       [VerificationLoop.typecheck; VerificationLoop.lint; VerificationLoop.test;
        VerificationLoop.verificationPassed] Sample2.passedLog.
Proof.
  assert (H : VerificationLoop.execute VerificationLoop.noActions 5 0 0
                Sample.threePasses
              = Settled Sample2.passedConfig Sample2.passedLog) by reflexivity.
  assert (Hs : VerificationLoop.state Sample2.passedConfig
               = VerificationLoop.verificationPassed) by reflexivity.
  refine (conj H (conj Hs _)).
  exact (proj1 (vl_final_states_follow_the_stages _ _ _ _ _ _ _ H) Hs).
Defined.

(** X17.  When the injected actions leave the loss-cut fields alone, the
    output of a run that has ended tells how it ended: [passed] is true
    exactly in [verificationPassed], [lossCut] is true exactly in
    [verificationFailed]. *)
Theorem vl_output_verdict_matches_final_state
  (exec : VerificationLoop.Action -> VerificationLoop.Context -> VerificationLoop.Context)
  (fuel : nat) (definedAt startedNow : Z) (inputs : list VerificationLoop.Input)
  (cfg : VerificationLoop.Config) (log : list VerificationLoop.State) :
  (forall a ctx, VerificationLoop.base (exec a ctx) = VerificationLoop.base ctx) ->
  VerificationLoop.execute exec fuel definedAt startedNow inputs = Settled cfg log ->
  VerificationLoop.isFinal (VerificationLoop.state cfg) = true ->
  (SP3.passed (VerificationLoop.output (VerificationLoop.context cfg)) = true
   <-> VerificationLoop.state cfg = VerificationLoop.verificationPassed)
  /\ (SP3.lossCut (VerificationLoop.output (VerificationLoop.context cfg)) = true
      <-> VerificationLoop.state cfg = VerificationLoop.verificationFailed).
Proof.
  intros Hexec H Hfin. apply vl_execute_Reach in H.
  destruct (vl_context_invariant exec Hexec _ _ _ H) as (_ & _ & _ & Hs).
  unfold VerificationLoopPaths.stateShape in Hs.
  unfold VerificationLoop.output; cbn [SP3.passed SP3.lossCut].
  destruct (VerificationLoop.state cfg) as [| | |[]| | |]; try discriminate Hfin;
    destruct Hs as [_ ->]; cbn; repeat split; intros; try discriminate; reflexivity.
Qed.

Lemma vl_output_verdict_matches_final_state_witness :
  (forall a ctx,
      VerificationLoop.base (VerificationLoop.noActions a ctx) = VerificationLoop.base ctx)
  /\ VerificationLoop.execute VerificationLoop.noActions 5 0 0 Sample.threePasses
     = Settled Sample2.passedConfig Sample2.passedLog
  /\ VerificationLoop.isFinal (VerificationLoop.state Sample2.passedConfig) = true
  /\ SP3.passed (VerificationLoop.output (VerificationLoop.context Sample2.passedConfig))
     = true.
Proof.
  assert (H0 : forall a ctx,
             VerificationLoop.base (VerificationLoop.noActions a ctx)
             = VerificationLoop.base ctx) by reflexivity.
  assert (H : VerificationLoop.execute VerificationLoop.noActions 5 0 0
                Sample.threePasses
              = Settled Sample2.passedConfig Sample2.passedLog) by reflexivity.
  assert (Hf : VerificationLoop.isFinal (VerificationLoop.state Sample2.passedConfig)
               = true) by reflexivity.
  refine (conj H0 (conj H (conj Hf _))).
  exact (proj2 (proj1 (vl_output_verdict_matches_final_state _ _ _ _ _ _ _ H0 H Hf))
           eq_refl).
Defined.

(** X18.  When the injected actions leave the loss-cut fields alone, in
    every configuration met by the loop [errorCount] is the number of
    records of [errorHistory], which is never above three, and never above
    two while a check stage is active: the third failure is always cut. *)
Theorem vl_at_most_three_failures
  (exec : VerificationLoop.Action -> VerificationLoop.Context -> VerificationLoop.Context)
  (definedAt startedNow : Z) (cfg : VerificationLoop.Config) :
  (forall a ctx, VerificationLoop.base (exec a ctx) = VerificationLoop.base ctx) ->
  VerificationLoop.Reach exec definedAt startedNow cfg ->
  errorCount (VerificationLoop.base (VerificationLoop.context cfg))
  = Z.of_nat (List.length
                (errorHistory (VerificationLoop.base (VerificationLoop.context cfg))))
  /\ (List.length (errorHistory (VerificationLoop.base (VerificationLoop.context cfg)))
      <= 3)%nat
  /\ (VerificationLoop.isCheckStage (VerificationLoop.state cfg) = true ->
      (List.length (errorHistory (VerificationLoop.base (VerificationLoop.context cfg)))
       <= 2)%nat).
Proof.
  intros Hexec H.
  destruct (vl_context_invariant exec Hexec _ _ _ H) as (_ & Hn & _ & Hs).
  pose proof (vl_stateShape_bound _ Hs) as Hb.
  split; [exact Hn|]. split; [lia|].
  unfold VerificationLoopPaths.stateShape in Hs.
  destruct (VerificationLoop.state cfg) as [| | |[]| | |]; try discriminate;
    intros _; lia.
Qed.

Lemma vl_at_most_three_failures_witness :
  (forall a ctx,
      VerificationLoop.base (VerificationLoop.noActions a ctx) = VerificationLoop.base ctx)
  /\ VerificationLoop.Reach VerificationLoop.noActions 0 0 Sample.afterOneFailure
  /\ errorCount (VerificationLoop.base (VerificationLoop.context Sample.afterOneFailure))
     = Z.of_nat
         (List.length
            (errorHistory
               (VerificationLoop.base (VerificationLoop.context Sample.afterOneFailure)))).
Proof.
  assert (H0 : forall a ctx,
             VerificationLoop.base (VerificationLoop.noActions a ctx)
             = VerificationLoop.base ctx) by reflexivity.
  assert (HR : VerificationLoop.Reach VerificationLoop.noActions 0 0 Sample.afterOneFailure).
  { apply (vl_execute_Reach VerificationLoop.noActions 0 0 5 Sample.failThenAcknowledge
             Sample.afterOneFailure
             [VerificationLoop.typecheck;
              VerificationLoop.lossCutJudgment LossCut.recordErrorState;
              VerificationLoop.lossCutJudgment LossCut.check3Times;
              VerificationLoop.lossCutJudgment LossCut.check30Min;
              VerificationLoop.lossCutJudgment LossCut.checkComplexity;
              VerificationLoop.lossCutJudgment LossCut.checkRecurrence;
              VerificationLoop.lossCutJudgment LossCut.continueFix;
              VerificationLoop.issueFix]).
    reflexivity. }
  refine (conj H0 (conj HR _)).
  exact (proj1 (vl_at_most_three_failures _ _ _ _ H0 HR)).
Defined.

(** X19.  When the injected actions leave the loss-cut fields alone, in
    every configuration met by the loop [lastError] is the error of the
    latest record of [errorHistory] ([null] while the history is empty),
    and [startedAt] is still the time at which the machine was defined. *)
Theorem vl_lastError_is_the_latest_record
  (exec : VerificationLoop.Action -> VerificationLoop.Context -> VerificationLoop.Context)
  (definedAt startedNow : Z) (cfg : VerificationLoop.Config) :
  (forall a ctx, VerificationLoop.base (exec a ctx) = VerificationLoop.base ctx) ->
  VerificationLoop.Reach exec definedAt startedNow cfg ->
  lastError (VerificationLoop.base (VerificationLoop.context cfg))
  = VerificationLoopPaths.latestError
      (errorHistory (VerificationLoop.base (VerificationLoop.context cfg)))
  /\ startedAt (VerificationLoop.base (VerificationLoop.context cfg)) = definedAt.
Proof.
  intros Hexec H.
  destruct (vl_context_invariant exec Hexec _ _ _ H) as (Hs & _ & Hl & _).
  split; assumption.
Qed.

Lemma vl_lastError_is_the_latest_record_witness :
  (forall a ctx,
      VerificationLoop.base (VerificationLoop.noActions a ctx) = VerificationLoop.base ctx)
  /\ VerificationLoop.Reach VerificationLoop.noActions 0 0 Sample.afterOneFailure
  /\ lastError (VerificationLoop.base (VerificationLoop.context Sample.afterOneFailure))
     = VerificationLoopPaths.latestError
         (errorHistory
            (VerificationLoop.base (VerificationLoop.context Sample.afterOneFailure))).
Proof.
  assert (H0 : forall a ctx,
             VerificationLoop.base (VerificationLoop.noActions a ctx)
             = VerificationLoop.base ctx) by reflexivity.
  assert (HR : VerificationLoop.Reach VerificationLoop.noActions 0 0 Sample.afterOneFailure).
  { apply (vl_execute_Reach VerificationLoop.noActions 0 0 5 Sample.failThenAcknowledge
             Sample.afterOneFailure
             [VerificationLoop.typecheck;
              VerificationLoop.lossCutJudgment LossCut.recordErrorState;
              VerificationLoop.lossCutJudgment LossCut.check3Times;
              VerificationLoop.lossCutJudgment LossCut.check30Min;
              VerificationLoop.lossCutJudgment LossCut.checkComplexity;
              VerificationLoop.lossCutJudgment LossCut.checkRecurrence;
              VerificationLoop.lossCutJudgment LossCut.continueFix;
              VerificationLoop.issueFix]).
    reflexivity. }
  refine (conj H0 (conj HR _)).
  exact (proj1 (vl_lastError_is_the_latest_record _ _ _ _ H0 HR)).
Defined.

(** X20.  Once the thirty-minute transition has fired, the loop can only
    be abandoned.  For a machine defined no later than its actor is started
    and actions that leave the loss-cut fields alone: a settled run whose
    delayed transition has fired waits in [recordErrorState] or has ended in
    [verificationFailed]; and when it waits, [ERROR_STATE_RECORDED] ends it
    in [verificationFailed] (three eventless transitions are enough). *)
Theorem vl_after_the_deadline_only_abandon
  (exec : VerificationLoop.Action -> VerificationLoop.Context -> VerificationLoop.Context)
  (fuel : nat) (definedAt startedNow : Z) (inputs : list VerificationLoop.Input)
  (cfg : VerificationLoop.Config) (log : list VerificationLoop.State) :
  (forall a ctx, VerificationLoop.base (exec a ctx) = VerificationLoop.base ctx) ->
  definedAt <= startedNow ->
  (3 <= fuel)%nat ->
  VerificationLoop.execute exec fuel definedAt startedNow inputs = Settled cfg log ->
  VerificationLoop.deadline cfg = None ->
  (VerificationLoop.state cfg = VerificationLoop.verificationFailed
   \/ (VerificationLoop.state cfg
       = VerificationLoop.lossCutJudgment LossCut.recordErrorState
       /\ exists cfg' log',
           VerificationLoop.step exec fuel cfg log
             (VerificationLoop.Deliver VerificationLoop.ERROR_STATE_RECORDED)
           = Settled cfg' log'
           /\ VerificationLoop.state cfg' = VerificationLoop.verificationFailed)).
Proof.
  intros Hexec Hle Hfuel H Hd.
  pose proof (vl_execute_resting _ _ _ _ _ _ _ H) as Hrest.
  apply vl_execute_Reach in H.
  pose proof (vl_after_deadline exec Hexec _ _ _ Hle H Hd) as Hafter.
  destruct (VerificationLoop.state cfg) as [| | |[]| | |] eqn:Hs;
    try discriminate Hrest; try discriminate Hafter.
  - right. split; [reflexivity|].
    exact (vl_judgment_after_deadline exec Hexec _ _ _ _ log Hle Hfuel H Hd Hs).
  - left. reflexivity.
Qed.

Lemma vl_after_the_deadline_only_abandon_witness :
  (forall a ctx,
      VerificationLoop.base (VerificationLoop.noActions a ctx) = VerificationLoop.base ctx)
  /\ 0 <= 0
  /\ (3 <= 5)%nat
  /\ VerificationLoop.execute VerificationLoop.noActions 5 0 0 Sample2.thirtyMinutes
     = Settled Sample2.timedOutConfig Sample2.timedOutLog
  /\ VerificationLoop.deadline Sample2.timedOutConfig = None
  /\ (VerificationLoop.state Sample2.timedOutConfig
      = VerificationLoop.verificationFailed
      \/ (VerificationLoop.state Sample2.timedOutConfig
          = VerificationLoop.lossCutJudgment LossCut.recordErrorState
          /\ exists cfg' log',
              VerificationLoop.step VerificationLoop.noActions 5
                Sample2.timedOutConfig Sample2.timedOutLog
                (VerificationLoop.Deliver VerificationLoop.ERROR_STATE_RECORDED)
              = Settled cfg' log'
              /\ VerificationLoop.state cfg' = VerificationLoop.verificationFailed)).
Proof.
  assert (H0 : forall a ctx,
             VerificationLoop.base (VerificationLoop.noActions a ctx)
             = VerificationLoop.base ctx) by reflexivity.
  assert (H1 : 0 <= 0) by lia.
  assert (H2 : (3 <= 5)%nat) by lia.
  assert (H3 : VerificationLoop.execute VerificationLoop.noActions 5 0 0
                 Sample2.thirtyMinutes
               = Settled Sample2.timedOutConfig Sample2.timedOutLog) by reflexivity.
  assert (H4 : VerificationLoop.deadline Sample2.timedOutConfig = None) by reflexivity.
  refine (conj H0 (conj H1 (conj H2 (conj H3 (conj H4 _))))).
  exact (vl_after_the_deadline_only_abandon _ _ _ _ _ _ _ H0 H1 H2 H3 H4).
Defined.

(** X21.  The orchestrator and the verification loop agree on the outcome,
    up to the precedence of the pass.  When the injected actions leave the
    loss-cut fields alone and the output of a loop that has ended is handed
    to [sp3Verification]: a loop that ended in [verificationPassed] makes
    the orchestrator complete the task, whatever the principle checks have
    recorded; one that ended in [verificationFailed] sends it back to
    [brightLinesCheck] if the agent-principle check on record failed, and to
    [recoveryFlow] otherwise. *)
Theorem mf_sp3_follows_the_verification_loop
  (exec : VerificationLoop.Action -> VerificationLoop.Context -> VerificationLoop.Context)
  (fuel : nat) (definedAt startedNow : Z) (inputs : list VerificationLoop.Input)
  (cfg : VerificationLoop.Config) (log : list VerificationLoop.State)
  (c : MainFlow.Context) :
  (forall a ctx, VerificationLoop.base (exec a ctx) = VerificationLoop.base ctx) ->
  VerificationLoop.execute exec fuel definedAt startedNow inputs = Settled cfg log ->
  (VerificationLoop.state cfg = VerificationLoop.verificationPassed ->
   fst (MainFlow.sp3VerificationDone
          (VerificationLoop.output (VerificationLoop.context cfg)) c)
   = MainFlow.taskCompleted)
  /\ (VerificationLoop.state cfg = VerificationLoop.verificationFailed ->
      fst (MainFlow.sp3VerificationDone
             (VerificationLoop.output (VerificationLoop.context cfg)) c)
      = if SP3.principleViolation
             (VerificationLoop.output (VerificationLoop.context cfg))
        then MainFlow.brightLinesCheck
        else MainFlow.recoveryFlow).
Proof.
  intros Hexec H. apply vl_execute_Reach in H.
  destruct (vl_context_invariant exec Hexec _ _ _ H) as (_ & _ & _ & Hs).
  unfold VerificationLoopPaths.stateShape in Hs.
  unfold MainFlow.sp3VerificationDone, VerificationLoop.output;
    cbn [SP3.passed SP3.lossCut SP3.principleViolation].
  split; intros Hstate; rewrite Hstate in Hs; destruct Hs as [_ ->]; cbn.
  - reflexivity.
  - destruct (VerificationLoop.aiPrincipleCheckResult (VerificationLoop.context cfg))
      as [r|]; cbn; [destruct (pcPassed r)|]; reflexivity.
Qed.

Lemma mf_sp3_follows_the_verification_loop_witness :
  (forall a ctx,
      VerificationLoop.base (VerificationLoop.noActions a ctx) = VerificationLoop.base ctx)
  /\ VerificationLoop.execute VerificationLoop.noActions 5 0 0 Sample.threePasses
     = Settled Sample2.passedConfig Sample2.passedLog
  /\ VerificationLoop.state Sample2.passedConfig = VerificationLoop.verificationPassed
  /\ fst (MainFlow.sp3VerificationDone
            (VerificationLoop.output (VerificationLoop.context Sample2.passedConfig))
            (MainFlow.createMainFlowContext EmptyString))
     = MainFlow.taskCompleted.
Proof.
  assert (H0 : forall a ctx,
             VerificationLoop.base (VerificationLoop.noActions a ctx)
             = VerificationLoop.base ctx) by reflexivity.
  assert (H : VerificationLoop.execute VerificationLoop.noActions 5 0 0
                Sample.threePasses
              = Settled Sample2.passedConfig Sample2.passedLog) by reflexivity.
  assert (Hs : VerificationLoop.state Sample2.passedConfig
               = VerificationLoop.verificationPassed) by reflexivity.
  refine (conj H0 (conj H (conj Hs _))).
  exact (proj1 (mf_sp3_follows_the_verification_loop _ _ _ _ _ _ _
                  (MainFlow.createMainFlowContext EmptyString) H0 H) Hs).
Defined.

(** ** Recovery flow: paths *)

Section RecoveryFlowInvariant.

Import RecoveryFlow RecoveryFlowPaths.

Variable exec : Act.Name -> Context -> Context.

(** A property of configurations and logs that every transition preserves,
    on events that satisfy [Q], holds at the end of every settled run on
    such events. *)
Variable Q : Event -> Prop.
Variable P : State * Context -> list Obs -> Prop.

Hypothesis P_on :
  forall c log e c' obs,
    Q e -> on exec c e = Some (c', obs) -> P c log -> P c' (log ++ obs).
Hypothesis P_always :
  forall c log c' obs,
    always exec c = Fired c' obs -> P c log -> P c' (log ++ obs).

Lemma rf_settle_invariant fuel :
  forall c log c' log',
    P c log -> settle (always exec) fuel c log = Settled c' log' -> P c' log'.
Proof.
  induction fuel as [|fuel IH]; intros c log c' log' HP; simpl;
    destruct (always exec c) as [c1 obs| |] eqn:E; try discriminate.
  - intros H; injection H as <- <-; assumption.
  - apply IH. eapply P_always; eassumption.
  - intros H; injection H as <- <-; assumption.
Qed.

Lemma rf_run_invariant fuel events :
  Forall Q events ->
  forall c log c' log',
    P c log -> run exec fuel c log events = Settled c' log' -> P c' log'.
Proof.
  induction 1 as [|e rest He _ IH]; intros c log c' log' HP; simpl.
  - intros H; injection H as <- <-; assumption.
  - unfold step. destruct (on exec c e) as [[c1 obs]|] eqn:E.
    + destruct (settle (always exec) fuel c1 (log ++ obs)) as [c2 l2| |] eqn:Es;
        try discriminate.
      apply IH. eapply rf_settle_invariant; [|exact Es].
      eapply P_on; eassumption.
    + now apply IH.
Qed.

Lemma rf_execute_invariant fuel events c log :
  P (fst (start exec)) (snd (start exec)) ->
  Forall Q events ->
  execute exec fuel events = Settled c log -> P c log.
Proof.
  unfold execute. destruct (start exec) as [c0 l0]. intros H0 HQ.
  now apply rf_run_invariant.
Qed.

End RecoveryFlowInvariant.

Section RecoveryFlowPathFacts.

Import RecoveryFlow RecoveryFlowPaths.

Variable exec : Act.Name -> Context -> Context.

Lemma analysisEntries_app log obs :
  analysisEntries log -> analysisEntries (log ++ obs).
Proof.
  intros (c0 & c1 & c2 & c3 & rest & ->).
  exists c0, c1, c2, c3, (rest ++ obs). reflexivity.
Qed.

Lemma rf_on_analysis c log e c' obs :
  on exec c e = Some (c', obs) -> analysisShape c log -> analysisShape c' (log ++ obs).
Proof.
  destruct c as [s ctx]. unfold on, enter, analysisShape.
  destruct s as [[]| |[]| |[]| | | | | | | |], e;
    try discriminate; intros H; injection H as <- <-; cbn [fst];
    try apply analysisEntries_app.
  - intros (c0 & ->). eexists. eexists. reflexivity.
  - intros (c0 & c1 & ->). eexists. eexists. eexists. reflexivity.
  - intros (c0 & c1 & c2 & ->). eexists. eexists. eexists. eexists. exists [].
    reflexivity.
Qed.

Lemma rf_always_analysis c log c' obs :
  always exec c = Fired c' obs -> analysisShape c log -> analysisShape c' (log ++ obs).
Proof.
  destruct c as [s ctx]. unfold always, escalationAlways, take, enter, analysisShape.
  destruct s as [[]| |[]| |[]| | | | | | | |]; try discriminate;
    repeat match goal with
      | |- context [if ?b then _ else _] => destruct b eqn:?
      end;
    intros H; injection H as <- <-; cbn [fst]; apply analysisEntries_app.
Qed.

Lemma rf_execute_analysis fuel events c log :
  execute exec fuel events = Settled c log -> analysisShape c log.
Proof.
  apply (rf_execute_invariant exec (fun _ => True) analysisShape).
  - intros c0 l0 e c1 obs _. apply rf_on_analysis.
  - intros c0 l0 c1 obs. apply rf_always_analysis.
  - unfold start, enter, analysisShape; cbn. eexists. reflexivity.
  - clear. induction events; constructor; auto.
Qed.

End RecoveryFlowPathFacts.

Section RecoveryFlowRouteFacts.

Import RecoveryFlow RecoveryFlowPaths.

Variable exec : Act.Name -> Context -> Context.

Lemma entered_app s log obs : entered s log -> entered s (log ++ obs).
Proof.
  intros (x & Hin). exists x. apply in_or_app. now left.
Qed.

Ltac no_entry Hn :=
  let x := fresh "x" in
  let Hin := fresh "Hin" in
  intros (x & Hin); apply in_app_or in Hin as [Hin|Hin];
  [ apply Hn; exists x; exact Hin
  | cbn in Hin; repeat destruct Hin as [Hin|Hin]; try discriminate Hin;
    try destruct Hin ].

Ltac no_approach Ha :=
  let s0 := fresh "s0" in
  let x := fresh "x" in
  let Hs0 := fresh "Hs0" in
  let Hin := fresh "Hin" in
  intros (s0 & x & Hs0 & Hin); apply in_app_or in Hin as [Hin|Hin];
  [ apply Ha; exists s0, x; split; [exact Hs0 | exact Hin]
  | cbn in Hin; repeat destruct Hin as [Hin|Hin]; try discriminate Hin;
    try (injection Hin as <- _; discriminate Hs0); try destruct Hin ].

Ltac now_entered :=
  eexists; apply in_or_app; right; cbn; auto.

Lemma rf_on_urgent c log e c' obs :
  urgent e -> on exec c e = Some (c', obs) ->
  urgentShape c log -> urgentShape c' (log ++ obs).
Proof.
  destruct c as [s ctx]. unfold on, enter, urgentShape.
  destruct s as [[]| |[]| |[]| | | | | | | |], e;
    try discriminate; intros Hu H; injection H as <- <-; cbn [fst snd];
    intros (Hn & Ha & Hs); try contradiction;
    (split; [no_entry Hn | split; [no_approach Ha |]]);
    first [ exact I | exact Hu | reflexivity | (apply entered_app; exact Hs) ].
Qed.

Lemma rf_always_urgent c log c' obs :
  always exec c = Fired c' obs -> urgentShape c log -> urgentShape c' (log ++ obs).
Proof.
  destruct c as [s ctx].
  unfold always, escalationAlways, take, enter, urgentShape, isEscalationConfirmed.
  destruct s as [[]| |[]| |[]| | | | | | | |]; try discriminate; cbn [fst snd];
    intros H (Hn & Ha & Hs); try contradiction; revert H; try rewrite Hs;
    repeat match goal with
      | |- context [if ?b then _ else _] => destruct b eqn:?
      end;
    intros H; injection H as <- <-; cbn [fst snd app];
    (split; [no_entry Hn | split; [no_approach Ha |]]);
    first [ exact I | assumption | reflexivity | (apply entered_app; exact Hs)
          | now_entered ].
Qed.

Lemma rf_execute_urgent fuel events c log :
  Forall urgent events ->
  execute exec fuel events = Settled c log -> urgentShape c log.
Proof.
  intros HQ. apply (rf_execute_invariant exec urgent urgentShape).
  - intros c0 l0 e c1 obs. apply rf_on_urgent.
  - intros c0 l0 c1 obs. apply rf_always_urgent.
  - unfold start, enter, urgentShape; cbn. repeat split.
    + intros (x & [Hin|[]]). discriminate Hin.
    + intros (s0 & x & Hs0 & [Hin|[]]). injection Hin as <- _. discriminate Hs0.
  - exact HQ.
Qed.

(** The injected actions assign no approach. *)
Hypothesis exec_keeps_selected :
  forall a ctx, selectedApproach (exec a ctx) = selectedApproach ctx.

Lemma rf_entry_selected s ctx :
  selectedApproach (entry exec s ctx) = selectedApproach ctx.
Proof.
  unfold entry.
  destruct s as [[]| |[]| |[]| | | | | | | |]; rewrite ?exec_keeps_selected; reflexivity.
Qed.

Lemma rf_on_unassigned c log e c' obs :
  on exec c e = Some (c', obs) ->
  unassignedShape c log -> unassignedShape c' (log ++ obs).
Proof.
  destruct c as [s ctx]. unfold on, enter, unassignedShape.
  destruct s as [[]| |[]| |[]| | | | | | | |], e;
    try discriminate; intros H; injection H as <- <-; cbn [fst snd];
    intros (H1 & Ha & H3 & H4); try discriminate H3;
    (split; [rewrite ?rf_entry_selected, ?exec_keeps_selected; exact H1 |
     split; [no_approach Ha | split; [reflexivity |]]]);
    cbn; intros Hc; try discriminate Hc;
    apply entered_app; apply H4; reflexivity.
Qed.

Lemma rf_always_unassigned c log c' obs :
  always exec c = Fired c' obs ->
  unassignedShape c log -> unassignedShape c' (log ++ obs).
Proof.
  destruct c as [s ctx].
  unfold always, escalationAlways, take, enter, unassignedShape, isApproach.
  destruct s as [[]| |[]| |[]| | | | | | | |]; try discriminate; cbn [fst snd];
    intros H (H1 & Ha & H3 & H4); try discriminate H3; revert H; try rewrite H1;
    repeat match goal with
      | |- context [if ?b then _ else _] => destruct b eqn:?
      end;
    intros H; injection H as <- <-; cbn [fst snd app];
    (split; [rewrite ?rf_entry_selected, ?exec_keeps_selected; exact H1 |
     split; [no_approach Ha | split; [reflexivity |]]]);
    cbn; intros Hc; try discriminate Hc;
    first [ (apply entered_app; apply H4; reflexivity) | now_entered ].
Qed.

Lemma rf_execute_unassigned fuel events c log :
  execute exec fuel events = Settled c log -> unassignedShape c log.
Proof.
  apply (rf_execute_invariant exec (fun _ => True) unassignedShape).
  - intros c0 l0 e c1 obs _. apply rf_on_unassigned.
  - intros c0 l0 c1 obs. apply rf_always_unassigned.
  - unfold start, enter, unassignedShape; cbn [fst snd].
    rewrite rf_entry_selected. repeat split.
    + intros (s0 & x & Hs0 & [Hin|[]]). injection Hin as <- _. discriminate Hs0.
    + discriminate.
  - clear. induction events; constructor; auto.
Qed.

End RecoveryFlowRouteFacts.

Section RecoveryFlowLoopFacts.

Import RecoveryFlow RecoveryFlowPaths.

Variable exec : Act.Name -> Context -> Context.

Hypothesis exec_keeps_selected :
  forall a ctx, selectedApproach (exec a ctx) = selectedApproach ctx.
Hypothesis exec_keeps_analysis :
  forall a ctx, analysisResult (exec a ctx) = analysisResult ctx.

Variable a : ProblemAnalysis.

Hypothesis not_immediate : checkImmediateEscalationNeeded (Some a) = false.
Hypothesis not_delayed : checkDelayedEscalationNeeded (Some a) = false.

(** With no approach assigned and an analysis that raises no escalation
    condition, the eventless transitions go round from [approachSelection]
    through the escalation judgment and back. *)
Lemma rf_round r :
  analysisResult r = Some a ->
  selectedApproach r = None ->
  exists o1 o2 o3 o4,
    always exec (approachSelection, r)
    = Fired (escalationJudgment checkImmediate, r) o1
    /\ always exec (escalationJudgment checkImmediate, r)
       = Fired (escalationJudgment check30Min, r) o2
    /\ always exec (escalationJudgment check30Min, r)
       = Fired (escalationJudgment selfResolution, setEscalationResult self r) o3
    /\ always exec (escalationJudgment selfResolution, setEscalationResult self r)
       = Fired (approachSelection,
                exec Act.selectApproach (setEscalationResult self r)) o4.
Proof.
  intros Ha Hs. eexists. eexists. eexists. eexists.
  unfold always, escalationAlways, isApproach, take, enter.
  rewrite Hs, Ha, not_immediate, not_delayed. cbn.
  repeat split; reflexivity.
Qed.

Lemma rf_selection_never_settles (n : nat) :
  forall r l,
    analysisResult r = Some a ->
    selectedApproach r = None ->
    settle (always exec) n (approachSelection, r) l = Diverged.
Proof.
  induction n as [n IH] using (well_founded_induction Wf_nat.lt_wf).
  intros r l Ha Hs.
  destruct (rf_round r Ha Hs) as (o1 & o2 & o3 & o4 & S1 & S2 & S3 & S4).
  destruct n as [|n]; cbn [settle]; rewrite S1; [reflexivity|].
  destruct n as [|n]; cbn [settle]; rewrite S2; [reflexivity|].
  destruct n as [|n]; cbn [settle]; rewrite S3; [reflexivity|].
  destruct n as [|n]; cbn [settle]; rewrite S4; [reflexivity|].
  apply IH; [lia | |].
  - rewrite exec_keeps_analysis. exact Ha.
  - rewrite exec_keeps_selected. exact Hs.
Qed.

Lemma rf_no_flag_diverges fuel rest :
  execute exec fuel
    ([PROBLEM_VERBALIZED; CAUSE_ANALYZED; ESSENCE_IDENTIFIED a] ++ rest)
  = Diverged.
Proof.
  unfold execute, start, enter.
  cbn [app run step on enter].
  assert (Hidle : forall s x l,
             settle (always exec) fuel (problemAnalysis s, x) l
             = Settled (problemAnalysis s, x) l).
  { intros s x l. destruct fuel; reflexivity. }
  rewrite Hidle. cbn [app run step on enter].
  rewrite Hidle. cbn [app run step on enter].
  set (r := entry exec escalationCheck
              (setAnalysisResult a
                 (entry exec (problemAnalysis identifyEssence)
                    (entry exec (problemAnalysis analyzeCause)
                       (entry exec (problemAnalysis verbalizeProblem)
                          initialContext))))).
  assert (Ha : analysisResult r = Some a) by reflexivity.
  assert (Hs : selectedApproach r = None).
  { unfold r. cbn [entry]. unfold setAnalysisResult. cbn [selectedApproach].
    now rewrite !exec_keeps_selected. }
  assert (S0 : exists o,
             always exec (escalationCheck, r)
             = Fired (approachSelection, exec Act.selectApproach r) o).
  { eexists. unfold always, take, enter. rewrite Ha, not_immediate. reflexivity. }
  destruct S0 as (o & S0).
  change (entry exec escalationCheck
            (setAnalysisResult a
               (entry exec (problemAnalysis identifyEssence)
                  (entry exec (problemAnalysis analyzeCause)
                     (entry exec (problemAnalysis verbalizeProblem)
                        initialContext))))) with r.
  destruct fuel as [|n]; cbn [settle]; rewrite S0; [reflexivity|].
  rewrite rf_selection_never_settles; [reflexivity | |].
  - now rewrite exec_keeps_analysis.
  - now rewrite exec_keeps_selected.
Qed.

End RecoveryFlowLoopFacts.

(** X22.  Analysis comes first.  Whatever the injected actions and the
    events, a settled run of the recovery flow that is still in the analysis
    has entered its steps in order and nothing else; one that has left it
    starts with [verbalizeProblem], [analyzeCause], [identifyEssence] and
    [escalationCheck], in this order: no escalation or approach decision is
    taken before the three steps of the analysis. *)
Theorem rf_analysis_comes_first
  (exec : RecoveryFlow.Act.Name -> RecoveryFlow.Context -> RecoveryFlow.Context)
  (fuel : nat) (events : list RecoveryFlow.Event)
  (c : RecoveryFlow.State * RecoveryFlow.Context) (log : list RecoveryFlow.Obs) :
  RecoveryFlow.execute exec fuel events = Settled c log ->
  RecoveryFlowPaths.analysisShape c log.
Proof. apply rf_execute_analysis. Qed.

Lemma rf_analysis_comes_first_witness :
  exists ctx log,
    RecoveryFlow.execute RecoveryFlow.noActions 5 Sample.runD
    = Settled (RecoveryFlow.recoveryComplete, ctx) log
    /\ RecoveryFlowPaths.analysisEntries log.
Proof.
  eexists. eexists.
  assert (Hrun : RecoveryFlow.execute RecoveryFlow.noActions 5 Sample.runD
                 = Settled (RecoveryFlow.recoveryComplete, _) _) by reflexivity.
  refine (conj Hrun _).
  exact (rf_analysis_comes_first _ _ _ _ _ Hrun).
Defined.

(** X23.  An immediate escalation goes to the team.  When every analysis
    delivered raises one of [hasSecurityIssue], [hasProductionImpact],
    [hasDataLossRisk], then, whatever the injected actions, a settled run
    never entered [approachSelection] nor one of the approaches A, B, C, and
    a run that has reached the closing states entered [consultTeam]. *)
Theorem rf_immediate_escalation_skips_approach_selection
  (exec : RecoveryFlow.Act.Name -> RecoveryFlow.Context -> RecoveryFlow.Context)
  (fuel : nat) (events : list RecoveryFlow.Event)
  (c : RecoveryFlow.State * RecoveryFlow.Context) (log : list RecoveryFlow.Obs) :
  Forall RecoveryFlowPaths.urgent events ->
  RecoveryFlow.execute exec fuel events = Settled c log ->
  ~ RecoveryFlowPaths.entered RecoveryFlow.approachSelection log
  /\ ~ RecoveryFlowPaths.approachEntered log
  /\ (RecoveryFlow.isClosing (fst c) = true ->
      RecoveryFlowPaths.entered RecoveryFlow.consultTeam log).
Proof.
  intros HQ H. destruct (rf_execute_urgent exec fuel events c log HQ H)
    as (Hn & Ha & Hs).
  split; [exact Hn|]. split; [exact Ha|].
  destruct (fst c) as [[]| |[]| |[]| | | | | | | |]; try discriminate;
    intros _; first [exact Hs | contradiction].
Qed.

Lemma rf_immediate_escalation_skips_approach_selection_witness :
  exists ctx log,
    Forall RecoveryFlowPaths.urgent Sample2.urgentRun
    /\ RecoveryFlow.execute RecoveryFlow.noActions 5 Sample2.urgentRun
       = Settled (RecoveryFlow.recoveryComplete, ctx) log
    /\ ~ RecoveryFlowPaths.entered RecoveryFlow.approachSelection log
    /\ RecoveryFlowPaths.entered RecoveryFlow.consultTeam log.
Proof.
  eexists. eexists.
  assert (HQ : Forall RecoveryFlowPaths.urgent Sample2.urgentRun)
    by (repeat constructor).
  assert (Hrun : RecoveryFlow.execute RecoveryFlow.noActions 5 Sample2.urgentRun
                 = Settled (RecoveryFlow.recoveryComplete, _) _) by reflexivity.
  refine (conj HQ (conj Hrun _)).
  destruct (rf_immediate_escalation_skips_approach_selection _ _ _ _ _ HQ Hrun)
    as (H1 & _ & H3).
  exact (conj H1 (H3 eq_refl)).
Defined.

(** X24.  Without an assignment of [selectedApproach] the approaches A, B
    and C are out of reach.  When the injected actions leave
    [selectedApproach] alone (as the empty actions of the source do), a
    settled run is never in [directResolution], [redecompose] or
    [resetContext] and never entered them, and a run that has reached the
    closing states entered [consultTeam]: the flow completes by the
    escalation of approach D only. *)
Theorem rf_without_assignment_only_the_team_path
  (exec : RecoveryFlow.Act.Name -> RecoveryFlow.Context -> RecoveryFlow.Context)
  (fuel : nat) (events : list RecoveryFlow.Event)
  (c : RecoveryFlow.State * RecoveryFlow.Context) (log : list RecoveryFlow.Obs) :
  (forall a ctx,
      RecoveryFlow.selectedApproach (exec a ctx) = RecoveryFlow.selectedApproach ctx) ->
  RecoveryFlow.execute exec fuel events = Settled c log ->
  RecoveryFlowPaths.isChosenApproach (fst c) = false
  /\ ~ RecoveryFlowPaths.approachEntered log
  /\ (RecoveryFlow.isClosing (fst c) = true ->
      RecoveryFlowPaths.entered RecoveryFlow.consultTeam log).
Proof.
  intros Hexec H.
  destruct (rf_execute_unassigned exec Hexec fuel events c log H)
    as (_ & Ha & Hs & Hc).
  split; [exact Hs|]. split; [exact Ha|].
  intros Hcl. apply Hc. unfold RecoveryFlowPaths.isConsulted.
  destruct (fst c); try exact Hcl; reflexivity.
Qed.

Lemma rf_without_assignment_only_the_team_path_witness :
  exists ctx log,
    (forall a ctx0,
        RecoveryFlow.selectedApproach (RecoveryFlow.noActions a ctx0)
        = RecoveryFlow.selectedApproach ctx0)
    /\ RecoveryFlow.execute RecoveryFlow.noActions 5 Sample.runD
       = Settled (RecoveryFlow.recoveryComplete, ctx) log
    /\ RecoveryFlowPaths.entered RecoveryFlow.consultTeam log.
Proof.
  eexists. eexists.
  assert (H0 : forall a ctx0,
             RecoveryFlow.selectedApproach (RecoveryFlow.noActions a ctx0)
             = RecoveryFlow.selectedApproach ctx0) by reflexivity.
  assert (Hrun : RecoveryFlow.execute RecoveryFlow.noActions 5 Sample.runD
                 = Settled (RecoveryFlow.recoveryComplete, _) _) by reflexivity.
  refine (conj H0 (conj Hrun _)).
  exact (proj2 (proj2 (rf_without_assignment_only_the_team_path _ _ _ _ _ H0 Hrun))
           eq_refl).
Defined.

(** X25.  When the injected actions leave [selectedApproach] and
    [analysisResult] alone (as the empty actions of the source do) and the
    analysis raises none of the six escalation conditions, the macrostep of
    [ESSENCE_IDENTIFIED] never ends: [approachSelection] falls back to the
    escalation judgment, which ends in [selfResolution] and hands back to
    [approachSelection], and so on, whatever the number of eventless
    transitions allowed. *)
Theorem rf_no_flag_and_no_approach_never_settles
  (exec : RecoveryFlow.Act.Name -> RecoveryFlow.Context -> RecoveryFlow.Context)
  (a : ProblemAnalysis) (fuel : nat) (rest : list RecoveryFlow.Event) :
  (forall x ctx,
      RecoveryFlow.selectedApproach (exec x ctx) = RecoveryFlow.selectedApproach ctx) ->
  (forall x ctx,
      RecoveryFlow.analysisResult (exec x ctx) = RecoveryFlow.analysisResult ctx) ->
  RecoveryFlow.checkImmediateEscalationNeeded (Some a) = false ->
  RecoveryFlow.checkDelayedEscalationNeeded (Some a) = false ->
  RecoveryFlow.execute exec fuel
    ([RecoveryFlow.PROBLEM_VERBALIZED; RecoveryFlow.CAUSE_ANALYZED;
      RecoveryFlow.ESSENCE_IDENTIFIED a] ++ rest)
  = Diverged.
Proof.
  intros H1 H2 H3 H4. now apply rf_no_flag_diverges.
Qed.

Lemma rf_no_flag_and_no_approach_never_settles_witness :
  (forall x ctx,
      RecoveryFlow.selectedApproach (RecoveryFlow.noActions x ctx)
      = RecoveryFlow.selectedApproach ctx)
  /\ (forall x ctx,
         RecoveryFlow.analysisResult (RecoveryFlow.noActions x ctx)
         = RecoveryFlow.analysisResult ctx)
  /\ RecoveryFlow.checkImmediateEscalationNeeded (Some (Sample.analysis false false 2))
     = false
  /\ RecoveryFlow.checkDelayedEscalationNeeded (Some (Sample.analysis false false 2))
     = false
  /\ RecoveryFlow.execute RecoveryFlow.noActions 1000
       ([RecoveryFlow.PROBLEM_VERBALIZED; RecoveryFlow.CAUSE_ANALYZED;
         RecoveryFlow.ESSENCE_IDENTIFIED (Sample.analysis false false 2)]
          ++ [RecoveryFlow.ESCALATION_DECIDED])
     = Diverged.
Proof.
  assert (H1 : forall x ctx,
             RecoveryFlow.selectedApproach (RecoveryFlow.noActions x ctx)
             = RecoveryFlow.selectedApproach ctx) by reflexivity.
  assert (H2 : forall x ctx,
             RecoveryFlow.analysisResult (RecoveryFlow.noActions x ctx)
             = RecoveryFlow.analysisResult ctx) by reflexivity.
  assert (H3 : RecoveryFlow.checkImmediateEscalationNeeded
                 (Some (Sample.analysis false false 2)) = false) by reflexivity.
  assert (H4 : RecoveryFlow.checkDelayedEscalationNeeded
                 (Some (Sample.analysis false false 2)) = false) by reflexivity.
  refine (conj H1 (conj H2 (conj H3 (conj H4 _)))).
  exact (rf_no_flag_and_no_approach_never_settles _ _ _ _ H1 H2 H3 H4).
Defined.

(** ** Delayed transitions *)

Section DelayFacts.

Import DelayExample.

Variable on : Config -> Event -> option Config.

Hypothesis on_shape :
  forall now cfg e cfg', on cfg e = Some cfg' -> runShape now cfg -> runShape now cfg'.

Lemma delay_step_shape now cfg i : runShape now cfg -> runShape now (step on cfg i).
Proof.
  intros H. unfold step. destruct (isFinal (state cfg)) eqn:Hfin; [exact H|].
  destruct i as [e|ms].
  - destruct (on cfg e) as [cfg'|] eqn:E; [|exact H]. eapply on_shape; eassumption.
  - unfold runShape in H. destruct (state cfg) eqn:Hs; try discriminate.
    destruct H as (Hc & Hd & Hclock).
    unfold due, elapse, leave; cbn [deadline clock]. rewrite Hd.
    destruct (Z.leb_spec (now + THIRTY_MINUTES_MS) (clock cfg + Z.of_N ms)).
    + unfold runShape; cbn. right. split; assumption.
    + unfold runShape; cbn. rewrite Hs. repeat split; try assumption; lia.
Qed.

Lemma delay_run_shape now inputs :
  forall cfg, runShape now cfg -> runShape now (run on cfg inputs).
Proof.
  unfold run. induction inputs as [|i rest IH]; intros cfg H; simpl; [exact H|].
  apply IH. now apply delay_step_shape.
Qed.

Lemma delay_execute_shape now inputs : runShape now (execute on now inputs).
Proof.
  apply delay_run_shape. unfold start, runShape, THIRTY_MINUTES_MS; cbn.
  repeat split; lia.
Qed.

End DelayFacts.

Lemma delay_basic_on_shape now cfg e cfg' :
  DelayExample.basicOn cfg e = Some cfg' ->
  DelayExample.runShape now cfg -> DelayExample.runShape now cfg'.
Proof.
  unfold DelayExample.basicOn, DelayExample.runShape, DelayExample.leave.
  destruct (DelayExample.state cfg), e; try discriminate;
    intros H; injection H as <-; cbn; intros (H1 & _ & H2); split; assumption.
Qed.

Lemma delay_combined_on_shape now cfg e cfg' :
  DelayExample.combinedOn cfg e = Some cfg' ->
  DelayExample.runShape now cfg -> DelayExample.runShape now cfg'.
Proof.
  unfold DelayExample.combinedOn, DelayExample.runShape, DelayExample.leave.
  destruct (DelayExample.state cfg), e; try discriminate.
  - intros H; injection H as <-; cbn; intros (H1 & _ & H2); split; assumption.
  - destruct (Z.leb_spec 2 (DelayExample.errorCount cfg));
      intros Hf; injection Hf as <-; cbn; intros (H1 & H2 & H3).
    + left. split; [lia | assumption].
    + repeat split; try assumption; lia.
Qed.

Lemma delay_basic_count now inputs :
  DelayExample.errorCount (DelayExample.execute DelayExample.basicOn now inputs) = 0.
Proof.
  unfold DelayExample.execute, DelayExample.run.
  assert (H : forall cfg,
             DelayExample.errorCount cfg = 0 ->
             DelayExample.errorCount
               (fold_left (DelayExample.step DelayExample.basicOn) inputs cfg) = 0).
  { induction inputs as [|i rest IH]; intros cfg H; simpl; [exact H|].
    apply IH. unfold DelayExample.step, DelayExample.basicOn, DelayExample.leave,
      DelayExample.elapse.
    destruct (DelayExample.isFinal (DelayExample.state cfg)); [exact H|].
    destruct i as [[]|ms]; destruct (DelayExample.state cfg); cbn; try exact H;
      destruct (DelayExample.due _); cbn; exact H. }
  apply H. reflexivity.
Qed.

(** X26.  [delayBasicMachine], started at [now]: whatever inputs arrive, it
    is in [lossCut] exactly when thirty minutes had passed on its clock (the
    clock of a configuration is the time of the last input taken before the
    machine stopped): it never rests in [fixing] past the deadline, and a
    [CHECK_PASS] that comes after the deadline has no effect. *)
Theorem delay_basic_cut_iff_deadline_passed
  (now : Z) (inputs : list DelayExample.Input) :
  DelayExample.state (DelayExample.execute DelayExample.basicOn now inputs)
  = DelayExample.lossCut
  <-> now + DelayExample.THIRTY_MINUTES_MS
      <= DelayExample.clock (DelayExample.execute DelayExample.basicOn now inputs).
Proof.
  pose proof (delay_execute_shape DelayExample.basicOn delay_basic_on_shape now inputs)
    as H.
  pose proof (delay_basic_count now inputs) as Hc.
  unfold DelayExample.runShape in H.
  destruct (DelayExample.state (DelayExample.execute DelayExample.basicOn now inputs));
    split; intros Hx; try discriminate; try reflexivity; lia.
Qed.

(** X27.  [delayCombinedMachine], started at [now]: whatever inputs arrive,
    [errorCount] stays between 0 and 3; the machine rests in [fixing] only
    with fewer than three failures, before the deadline, and with the
    delayed transition still due at [now + 1800000] (a [CHECK_FAIL] does
    not re-arm it); it is in [lossCut] exactly when the third failure was
    counted or the thirty minutes have passed. *)
Theorem delay_combined_cut_iff_three_failures_or_deadline
  (now : Z) (inputs : list DelayExample.Input) :
  0 <= DelayExample.errorCount
         (DelayExample.execute DelayExample.combinedOn now inputs) <= 3
  /\ (DelayExample.state (DelayExample.execute DelayExample.combinedOn now inputs)
      = DelayExample.fixing ->
      DelayExample.deadline (DelayExample.execute DelayExample.combinedOn now inputs)
      = Some (now + DelayExample.THIRTY_MINUTES_MS))
  /\ (DelayExample.state (DelayExample.execute DelayExample.combinedOn now inputs)
      = DelayExample.lossCut
      <-> DelayExample.errorCount
            (DelayExample.execute DelayExample.combinedOn now inputs) = 3
          \/ now + DelayExample.THIRTY_MINUTES_MS
             <= DelayExample.clock
                  (DelayExample.execute DelayExample.combinedOn now inputs)).
Proof.
  pose proof (delay_execute_shape DelayExample.combinedOn delay_combined_on_shape
                now inputs) as H.
  unfold DelayExample.runShape in H.
  destruct (DelayExample.state (DelayExample.execute DelayExample.combinedOn now inputs)).
  - destruct H as (H1 & H2 & H3). split; [lia|]. split; [intros _; exact H2|].
    split; [discriminate|]. intros [Hx|Hx]; lia.
  - destruct H as (H1 & H3). split; [lia|]. split; [discriminate|].
    split; [discriminate|]. intros [Hx|Hx]; lia.
  - split; [destruct H as [[H1 H2]|[H1 H2]]; lia|]. split; [discriminate|].
    split; [intros _|reflexivity]. destruct H as [[H1 H2]|[H1 H2]]; [now left|now right].
Qed.

Lemma delay_combined_cut_iff_three_failures_or_deadline_witness :
  DelayExample.state
    (DelayExample.execute DelayExample.combinedOn 0 Sample2.twoFailuresThenWait)
  = DelayExample.lossCut
  /\ DelayExample.errorCount
       (DelayExample.execute DelayExample.combinedOn 0 Sample2.twoFailuresThenWait)
     = 2.
Proof.
  split.
  - apply (proj2 (proj2 (delay_combined_cut_iff_three_failures_or_deadline
                           0 Sample2.twoFailuresThenWait))).
    right. vm_compute. discriminate.
  - reflexivity.
Defined.
